(** * pg-transit: message lifecycle over a relational store

    A shallow embedding of the broker's data model (the six relations of
    migration 1.0.0) and of the operations that read and write them:
    the message writer, the subscription reservation engine, completion,
    failure and manual retry of a subscription-message, the stale detector,
    the retention trimmer and the scheduler.

    Conventions.
    - A table is the list of its rows in heap order (insertion order);
      [UPDATE] is a [map], [DELETE] and [WHERE] are [filter]s, [ORDER BY] is
      a stable sort, [LIMIT]/[OFFSET] are [firstn]/[skipn].
    - A nullable column is an [option]; a comparison with NULL is not true.
    - Timestamps are milliseconds as [Z]; SQL [INTEGER]s and JS numbers that
      hold counters are [Z]; UUIDs are [nat]s ordered as the database orders
      them, and [v7()] is a counter handing out increasing values.
    - One call of an operation reads the clock once ([now]).
    - A JS [Date] holds a time value of at most 8.64e15 ms on either side
      of the epoch.  The retry time of [fail] leaves that range by itself
      (the delay doubles with every attempt), so [fail] is modelled with
      the invalid Date and the error it leads to; the clock, the stale
      timeout and the delivery delay of a send are taken to be such that
      the Dates built from them are valid.
    - A transaction body is a function on the database; a thrown error is an
      [Err] and leaves no new database behind. *)

From Stdlib Require Import ZArith List Bool String Lia PeanoNat.
From Stdlib Require Import Permutation Sorting.Sorted.
Import ListNotations.

Local Open Scope Z_scope.

(** ** Data model *)

Definition uuid := nat.
Definition timestamp := Z.

Inductive JSONValue : Type :=
| JNull
| JText (s : string).

Inductive MessageStatus : Type := waiting | processing | completed | failed.
Inductive ConsumptionMode : Type := sequential | parallel.
Inductive StartPosition : Type := earliest | latest.
Inductive RetryStrategy : Type := linear | exponential.

Definition status_eqb (a b : MessageStatus) : bool :=
  match a, b with
  | waiting, waiting | processing, processing
  | completed, completed | failed, failed => true
  | _, _ => false
  end.

Definition mode_eqb (a b : ConsumptionMode) : bool :=
  match a, b with
  | sequential, sequential | parallel, parallel => true
  | _, _ => false
  end.

Definition position_eqb (a b : StartPosition) : bool :=
  match a, b with
  | earliest, earliest | latest, latest => true
  | _, _ => false
  end.

Definition strategy_eqb (a b : RetryStrategy) : bool :=
  match a, b with
  | linear, linear | exponential, exponential => true
  | _, _ => false
  end.

(** pg_transit_topics *)
Record TopicRow : Type := mkTopic {
  t_id : uuid;
  t_name : string
}.

(** pg_transit_messages *)
Record MessageRow : Type := mkMessage {
  m_id : uuid;
  m_topic_id : uuid;
  m_data : JSONValue;
  m_created_at : timestamp;
  m_deliver_at : option timestamp;
  m_priority : option Z
}.

(** pg_transit_scheduled_messages, primary key (topic_id, name) *)
Record ScheduledMessageRow : Type := mkScheduled {
  sc_topic_id : uuid;
  sc_name : string;
  sc_data : JSONValue;
  sc_cron : string;
  sc_next_occurrence_at : timestamp;
  sc_deliver_in_ms : option Z;
  sc_deliver_at : option timestamp;
  sc_priority : option Z;
  sc_repeats : option Z;
  sc_repeats_made : Z
}.

(** pg_transit_subscriptions, unique on (topic_id, name) *)
Record SubscriptionRow : Type := mkSubscriptionRow {
  s_id : uuid;
  s_topic_id : uuid;
  s_name : string;
  s_processing : bool;
  s_consumption_mode : ConsumptionMode;
  s_start_position : StartPosition;
  s_max_attempts : Z;
  s_retry_strategy : RetryStrategy;
  s_retry_delay : Z
}.

(** pg_transit_subscription_messages, primary key
    (subscription_id, message_id) *)
Record SubscriptionMessageRow : Type := mkSM {
  sm_subscription_id : uuid;
  sm_message_id : uuid;
  sm_status : MessageStatus;
  sm_attempts : Z;
  sm_available_at : option timestamp;
  sm_error_stack : option string;
  sm_last_heartbeat_at : option timestamp;
  sm_progress : option JSONValue;
  sm_stale_count : Z
}.

Record DB : Type := mkDB {
  topics : list TopicRow;
  messages : list MessageRow;
  scheduled_messages : list ScheduledMessageRow;
  subscriptions : list SubscriptionRow;
  subscription_messages : list SubscriptionMessageRow
}.

Definition empty_db : DB := mkDB [] [] [] [] [].

Inductive Error : Type :=
| CountMustBePositive      (* thrown by getNextMessages *)
| TypeError                (* a property read on an undefined row *)
| RangeError               (* an invalid Date given to a query *)
| UniqueViolation          (* a primary key or unique index refused a row *)
| ForeignKeyViolation.     (* a referenced row does not exist *)

Inductive Result (A : Type) : Type :=
| Ok (a : A)
| Err (e : Error).
Arguments Ok {A} a.
Arguments Err {A} e.

(** ** Row setters and table primitives *)

(** The database after a call: the one the call committed, or the database
    as it was when the call threw. *)
Definition db_after {A : Type} (db : DB) (res : Result (DB * A)) : DB :=
  match res with
  | Ok (db', _) => db'
  | Err _ => db
  end.

Definition set_messages (db : DB) (l : list MessageRow) : DB :=
  mkDB (topics db) l (scheduled_messages db) (subscriptions db)
       (subscription_messages db).

Definition set_scheduled (db : DB) (l : list ScheduledMessageRow) : DB :=
  mkDB (topics db) (messages db) l (subscriptions db)
       (subscription_messages db).

Definition set_subscriptions (db : DB) (l : list SubscriptionRow) : DB :=
  mkDB (topics db) (messages db) (scheduled_messages db) l
       (subscription_messages db).

Definition set_subscription_messages (db : DB)
    (l : list SubscriptionMessageRow) : DB :=
  mkDB (topics db) (messages db) (scheduled_messages db) (subscriptions db) l.

(** [UPDATE t SET ... WHERE c] *)
Definition update_where {A : Type} (c : A -> bool) (f : A -> A)
    (l : list A) : list A :=
  map (fun r => if c r then f r else r) l.

(** [x = ANY (ids)] *)
Definition any_eq (x : uuid) (ids : list uuid) : bool :=
  existsb (Nat.eqb x) ids.

(** [col <= v] on a nullable column *)
Definition null_leb (col : option Z) (v : Z) : bool :=
  match col with
  | Some x => x <=? v
  | None => false
  end.

Definition set_processing (b : bool) (s : SubscriptionRow) : SubscriptionRow :=
  mkSubscriptionRow (s_id s) (s_topic_id s) (s_name s) b
    (s_consumption_mode s) (s_start_position s) (s_max_attempts s)
    (s_retry_strategy s) (s_retry_delay s).

(** [UPDATE pg_transit_subscriptions SET processing = b WHERE id = sid] *)
Definition update_processing (db : DB) (sid : uuid) (b : bool) : DB :=
  set_subscriptions db
    (update_where (fun s => Nat.eqb (s_id s) sid) (set_processing b)
                  (subscriptions db)).

Definition sm_key_is (sid mid : uuid) (r : SubscriptionMessageRow) : bool :=
  Nat.eqb (sm_subscription_id r) sid && Nat.eqb (sm_message_id r) mid.

Definition find_sm (db : DB) (sid mid : uuid) : option SubscriptionMessageRow :=
  find (sm_key_is sid mid) (subscription_messages db).

Definition find_subscription (db : DB) (sid : uuid) : option SubscriptionRow :=
  find (fun s => Nat.eqb (s_id s) sid) (subscriptions db).

Definition find_message (db : DB) (mid : uuid) : option MessageRow :=
  find (fun m => Nat.eqb (m_id m) mid) (messages db).

(** ** In-memory objects *)

(** The [Subscription] object: the configuration it was initialised with. *)
Record Subscription : Type := mkSubscription {
  id : uuid;
  name : string;
  consumptionMode : ConsumptionMode;
  startPosition : StartPosition;
  maxAttempts : Z;
  retryStrategy : RetryStrategy;
  retryDelay : Z
}.

(** The [SubscriptionMessage] object handed to a handler or returned by
    [getMessages]: a snapshot of the row plus the joined message columns. *)
Record SubscriptionMessage : Type := mkHandle {
  subscription : Subscription;
  msg_id : uuid;
  data : JSONValue;
  createdAt : timestamp;
  status : MessageStatus;
  attempts : Z;
  availableAt : option timestamp;
  errorStack : option string;
  lastHeartbeatAt : option timestamp;
  priority : option Z;
  progress : option JSONValue;
  staleCount : Z
}.

(** A JS [Error]: only its [stack] is read. *)
Record JsError : Type := mkJsError { stack : option string }.

(** ** Subscription reservation engine *)

(** One row of the reservation query: the subscription-message row and the
    message the LEFT JOIN attaches to it.  The foreign key on [message_id]
    makes the join total; a row without message would carry NULL columns. *)
Definition Joined : Type := (SubscriptionMessageRow * option MessageRow)%type.

Definition left_join_message (db : DB) (r : SubscriptionMessageRow) : Joined :=
  (r, find_message db (sm_message_id r)).

Definition joined_priority (j : Joined) : option Z :=
  match snd j with
  | Some m => m_priority m
  | None => None
  end.

Definition joined_id (j : Joined) : uuid := sm_message_id (fst j).

(** [WHERE subscription_id = sid AND status = 'waiting'
      AND (available_at IS NULL OR available_at <= now)] *)
Definition is_candidate (sid : uuid) (now : timestamp)
    (r : SubscriptionMessageRow) : bool :=
  Nat.eqb (sm_subscription_id r) sid
  && status_eqb (sm_status r) waiting
  && match sm_available_at r with
     | None => true
     | Some t => t <=? now
     end.

(** [priority ASC NULLS LAST]: strict order and equality on the column. *)
Definition priority_ltb (p q : option Z) : bool :=
  match p, q with
  | Some a, Some b => a <? b
  | Some _, None => true
  | None, _ => false
  end.

Definition priority_eqb (p q : option Z) : bool :=
  match p, q with
  | Some a, Some b => a =? b
  | None, None => true
  | _, _ => false
  end.

(** [ORDER BY pg_transit_messages.priority ASC NULLS LAST,
             pg_transit_messages.id] *)
Definition order_leb (a b : Joined) : bool :=
  priority_ltb (joined_priority a) (joined_priority b)
  || (priority_eqb (joined_priority a) (joined_priority b)
      && Nat.leb (joined_id a) (joined_id b)).

Fixpoint insert_sorted {A : Type} (leb : A -> A -> bool) (x : A)
    (l : list A) : list A :=
  match l with
  | [] => [x]
  | y :: l' => if leb x y then x :: l else y :: insert_sorted leb x l'
  end.

Fixpoint order_by {A : Type} (leb : A -> A -> bool) (l : list A) : list A :=
  match l with
  | [] => []
  | x :: l' => insert_sorted leb x (order_by leb l')
  end.

(** The candidate rows of the reservation query, ordered. *)
Definition candidates (db : DB) (sid : uuid) (now : timestamp) : list Joined :=
  order_by order_leb
    (map (left_join_message db)
         (filter (is_candidate sid now) (subscription_messages db))).

(** [LIMIT ${this.consumptionMode === 'sequential' ? 1 : count}] *)
Definition reservation_limit (this : Subscription) (count : Z) : nat :=
  match consumptionMode this with
  | sequential => 1%nat
  | parallel => Z.to_nat count
  end.

(** [SET status = 'processing', attempts = attempts + 1,
        last_heartbeat_at = hb, progress = NULL] *)
Definition reserve_row (hb : timestamp)
    (r : SubscriptionMessageRow) : SubscriptionMessageRow :=
  mkSM (sm_subscription_id r) (sm_message_id r) processing
       (sm_attempts r + 1) (sm_available_at r) (sm_error_stack r)
       (Some hb) None (sm_stale_count r).

Definition reserved_handle (this : Subscription) (hb : timestamp)
    (j : Joined) : SubscriptionMessage :=
  let r := fst j in
  mkHandle this (joined_id j)
    (match snd j with Some m => m_data m | None => JNull end)
    (match snd j with Some m => m_created_at m | None => 0 end)
    processing (sm_attempts r + 1) (sm_available_at r) (sm_error_stack r)
    (Some hb) (joined_priority j) None (sm_stale_count r).

(** The body of the transaction once the sequential gate is passed. *)
Definition reserve_batch (db : DB) (this : Subscription) (count : Z)
    (now : timestamp) : DB * list SubscriptionMessage :=
  let batch := firstn (reservation_limit this count)
                      (candidates db (id this) now) in
  match batch with
  | [] => (db, [])
  | _ :: _ =>
      let db1 := match consumptionMode this with
                 | sequential => update_processing db (id this) true
                 | parallel => db
                 end in
      let messageIds := map joined_id batch in
      let db2 := set_subscription_messages db1
                   (update_where
                      (fun r => Nat.eqb (sm_subscription_id r) (id this)
                                && any_eq (sm_message_id r) messageIds)
                      (reserve_row now)
                      (subscription_messages db1)) in
      (db2, map (reserved_handle this now) batch)
  end.

(** The sequential gate as [getNextMessages] finds it: closed when the
    subscription is sequential and its stored row has [processing] set. *)
Definition gate_closed (db : DB) (this : Subscription) : bool :=
  match consumptionMode this with
  | sequential =>
      match find_subscription db (id this) with
      | Some row => s_processing row
      | None => false
      end
  | parallel => false
  end.

(** [Subscription.getNextMessages(count)] *)
Definition getNextMessages (db : DB) (this : Subscription) (count : Z)
    (now : timestamp) : Result (DB * list SubscriptionMessage) :=
  if count <=? 0 then Err CountMustBePositive
  else
    match consumptionMode this with
    | sequential =>
        match find_subscription db (id this) with
        | None => Err TypeError
        | Some row =>
            if s_processing row then Ok (db, [])
            else Ok (reserve_batch db this count now)
        end
    | parallel => Ok (reserve_batch db this count now)
    end.

(** Successive reservations on one subscription, each with its count and
    its clock reading; the batches are concatenated in call order. *)
Fixpoint reserveInOrder (db : DB) (this : Subscription)
    (requests : list (Z * timestamp))
    : Result (DB * list SubscriptionMessage) :=
  match requests with
  | [] => Ok (db, [])
  | (count, now) :: rest =>
      match getNextMessages db this count now with
      | Err e => Err e
      | Ok (db1, batch) =>
          match reserveInOrder db1 this rest with
          | Err e => Err e
          | Ok (db2, more) => Ok (db2, batch ++ more)
          end
      end
  end.

(** The number of rows the requests ask for in total. *)
Definition requested (requests : list (Z * timestamp)) : nat :=
  fold_right (fun q acc => (Z.to_nat (fst q) + acc)%nat) 0%nat requests.

(** [props.progress ?? undefined] in the constructor of a message object:
    a column that is NULL and one that holds the JSON value null both read
    as [null], which the object shows as [undefined]. *)
Definition progress_of_column (col : option JSONValue) : option JSONValue :=
  match col with
  | Some JNull => None
  | _ => col
  end.

(** [Subscription.getMessages(...statuses)]: the rows of the subscription,
    all of them when no status is given, ordered by message id. *)
Definition row_handle (this : Subscription) (j : Joined)
    : SubscriptionMessage :=
  let r := fst j in
  mkHandle this (joined_id j)
    (match snd j with Some m => m_data m | None => JNull end)
    (match snd j with Some m => m_created_at m | None => 0 end)
    (sm_status r) (sm_attempts r) (sm_available_at r) (sm_error_stack r)
    (sm_last_heartbeat_at r) (joined_priority j)
    (progress_of_column (sm_progress r)) (sm_stale_count r).

Definition getMessages (db : DB) (this : Subscription)
    (statuses : list MessageStatus) : list SubscriptionMessage :=
  map (row_handle this)
    (order_by (fun a b => Nat.leb (joined_id a) (joined_id b))
       (map (left_join_message db)
          (filter (fun r => Nat.eqb (sm_subscription_id r) (id this)
                            && match statuses with
                               | [] => true
                               | _ :: _ =>
                                   existsb (status_eqb (sm_status r)) statuses
                               end)
                  (subscription_messages db)))).

(** ** Completion, failure and manual retry *)

Definition set_status (st : MessageStatus)
    (r : SubscriptionMessageRow) : SubscriptionMessageRow :=
  mkSM (sm_subscription_id r) (sm_message_id r) st (sm_attempts r)
       (sm_available_at r) (sm_error_stack r) (sm_last_heartbeat_at r)
       (sm_progress r) (sm_stale_count r).

Definition set_outcome (st : MessageStatus) (av : option timestamp)
    (es : option string) (r : SubscriptionMessageRow)
    : SubscriptionMessageRow :=
  mkSM (sm_subscription_id r) (sm_message_id r) st (sm_attempts r)
       av es (sm_last_heartbeat_at r) (sm_progress r) (sm_stale_count r).

Definition handle_set_outcome (st : MessageStatus) (av : option timestamp)
    (es : option string) (h : SubscriptionMessage) : SubscriptionMessage :=
  mkHandle (subscription h) (msg_id h) (data h) (createdAt h) st
    (attempts h) av es (lastHeartbeatAt h) (priority h) (progress h)
    (staleCount h).

Definition update_own_row (db : DB) (this : SubscriptionMessage)
    (f : SubscriptionMessageRow -> SubscriptionMessageRow) : DB :=
  set_subscription_messages db
    (update_where (sm_key_is (id (subscription this)) (msg_id this)) f
                  (subscription_messages db)).

(** [SubscriptionMessage.completeMessage] *)
Definition completeMessage (db : DB) (this : SubscriptionMessage)
    : DB * SubscriptionMessage :=
  (update_own_row db this (set_status completed),
   handle_set_outcome completed (availableAt this) (errorStack this) this).

(** [SubscriptionMessage.complete] *)
Definition complete (db : DB) (this : SubscriptionMessage)
    : DB * SubscriptionMessage :=
  match consumptionMode (subscription this) with
  | sequential =>
      let (db1, this1) := completeMessage db this in
      (update_processing db1 (id (subscription this)) false, this1)
  | parallel => completeMessage db this
  end.

(** A JS [Date]: a time value in whole milliseconds, or the invalid Date
    that [new Date(v)] is when [v] is not a finite number within
    8.64e15 ms of the epoch. *)
Inductive JsDate : Type :=
| ValidDate (t : timestamp)
| InvalidDate.

Definition max_time_value : Z := 8640000000000000.

(** [new Date(v)] for a whole number [v]. *)
Definition new_Date (v : Z) : JsDate :=
  if Z.abs v <=? max_time_value then ValidDate v else InvalidDate.

(** [new Date(t + d * Math.pow(2, e))], the sum taken exactly.  From
    [e = 1024] on [Math.pow(2, e)] is [Infinity] and the sum is [Infinity]
    or [NaN]: the Date is invalid.  For a negative exponent the sum has a
    fraction, which [Date] drops (toward zero) once the range is checked. *)
Definition date_plus_scaled (t d e : Z) : JsDate :=
  if 1024 <=? e then InvalidDate
  else if 0 <=? e then new_Date (t + d * 2 ^ e)
  else if Z.abs (t * 2 ^ (- e) + d) <=? max_time_value * 2 ^ (- e)
       then ValidDate (Z.quot (t * 2 ^ (- e) + d) (2 ^ (- e)))
       else InvalidDate.

(** The [availableAt] computed by [failMessage]: a [Date] or [null]. *)
Definition retry_available_at (this : SubscriptionMessage)
    (now : timestamp) : option JsDate :=
  let sub := subscription this in
  if attempts this <? maxAttempts sub then
    match retryStrategy sub with
    | linear => Some (new_Date (now + retryDelay sub))
    | exponential =>
        Some (date_plus_scaled now (retryDelay sub) (attempts this - 1))
    end
  else None.

(** A [Date | null] as the parameter of a query: an invalid Date cannot be
    serialised ([toISOString] throws a RangeError), so the query is not
    sent. *)
Definition date_param (d : option JsDate) : Result (option timestamp) :=
  match d with
  | None => Ok None
  | Some (ValidDate t) => Ok (Some t)
  | Some InvalidDate => Err RangeError
  end.

(** [SubscriptionMessage.failMessage]: when the UPDATE throws, the fields of
    the object are not assigned. *)
Definition failMessage (db : DB) (this : SubscriptionMessage)
    (error : JsError) (now : timestamp)
    : Result (DB * SubscriptionMessage) :=
  let st := if attempts this >=? maxAttempts (subscription this)
            then failed else waiting in
  match date_param (retry_available_at this now) with
  | Err e => Err e
  | Ok availableAt =>
      Ok (update_own_row db this (set_outcome st availableAt (stack error)),
          handle_set_outcome st availableAt (stack error) this)
  end.

(** [SubscriptionMessage.fail] *)
Definition fail (db : DB) (this : SubscriptionMessage) (error : JsError)
    (now : timestamp) : Result (DB * SubscriptionMessage) :=
  match consumptionMode (subscription this) with
  | sequential =>
      match failMessage db this error now with
      | Err e => Err e
      | Ok (db1, this1) =>
          Ok (update_processing db1 (id (subscription this)) false, this1)
      end
  | parallel => failMessage db this error now
  end.

(** [SubscriptionMessage.retry] *)
Definition retry (db : DB) (this : SubscriptionMessage)
    : DB * SubscriptionMessage :=
  (update_own_row db this (set_outcome waiting None None),
   handle_set_outcome waiting None None this).

(** [SubscriptionMessage.heartbeat] *)
Definition heartbeat (db : DB) (this : SubscriptionMessage)
    (now : timestamp) : DB * SubscriptionMessage :=
  (update_own_row db this
     (fun r => mkSM (sm_subscription_id r) (sm_message_id r) (sm_status r)
                    (sm_attempts r) (sm_available_at r) (sm_error_stack r)
                    (Some now) (sm_progress r) (sm_stale_count r)),
   mkHandle (subscription this) (msg_id this) (data this) (createdAt this)
     (status this) (attempts this) (availableAt this) (errorStack this)
     (Some now) (priority this) (progress this) (staleCount this)).

(** [sql.json(value)] as the parameter of a query: the JS value [null] is
    sent as an SQL NULL, any other value as its JSON text. *)
Definition json_param (value : JSONValue) : option JSONValue :=
  match value with
  | JNull => None
  | _ => Some value
  end.

(** [SubscriptionMessage.updateProgress]: the column takes the parameter,
    the object keeps the value it was given. *)
Definition updateProgress (db : DB) (this : SubscriptionMessage)
    (value : JSONValue) : DB * SubscriptionMessage :=
  (update_own_row db this
     (fun r => mkSM (sm_subscription_id r) (sm_message_id r) (sm_status r)
                    (sm_attempts r) (sm_available_at r) (sm_error_stack r)
                    (sm_last_heartbeat_at r) (json_param value)
                    (sm_stale_count r)),
   mkHandle (subscription this) (msg_id this) (data this) (createdAt this)
     (status this) (attempts this) (availableAt this) (errorStack this)
     (lastHeartbeatAt this) (priority this) (Some value) (staleCount this)).

(** ** Stale detector *)

(** [WHERE status = 'processing' AND last_heartbeat_at <= staleAt] *)
Definition is_stale (staleAt : timestamp)
    (r : SubscriptionMessageRow) : bool :=
  status_eqb (sm_status r) processing
  && null_leb (sm_last_heartbeat_at r) staleAt.

(** [SET status = CASE WHEN stale_count = 0 THEN 'waiting' ELSE 'failed' END,
        stale_count = stale_count + 1, last_heartbeat_at = NULL] *)
Definition reset_row (r : SubscriptionMessageRow) : SubscriptionMessageRow :=
  mkSM (sm_subscription_id r) (sm_message_id r)
       (if sm_stale_count r =? 0 then waiting else failed)
       (sm_attempts r) (sm_available_at r) (sm_error_stack r)
       None (sm_progress r) (sm_stale_count r + 1).

(** The payload of a ['stale'] event. *)
Record StaleEvent : Type := mkStale {
  messageId : uuid;
  subscriptionId : uuid
}.

(** [PgTransit.resetStaleMessages]: the new database, the events emitted
    and the returned count. *)
Definition resetStaleMessages (db : DB) (staleMessageTimeoutInMs : Z)
    (now : timestamp) : DB * list StaleEvent * Z :=
  let staleAt := now - staleMessageTimeoutInMs in
  let rows := filter (is_stale staleAt) (subscription_messages db) in
  let db1 := set_subscription_messages db
               (update_where (is_stale staleAt) reset_row
                             (subscription_messages db)) in
  match rows with
  | [] => (db1, [], 0)
  | _ :: _ =>
      let events := map (fun r => mkStale (sm_message_id r)
                                          (sm_subscription_id r)) rows in
      let subscriptionIds := nodup Nat.eq_dec
                               (map sm_subscription_id rows) in
      let db2 := set_subscriptions db1
                   (update_where (fun s => any_eq (s_id s) subscriptionIds)
                                 (set_processing false)
                                 (subscriptions db1)) in
      (db2, events, Z.of_nat (List.length rows))
  end.

(** The database and the events of [resetStaleMessages]. *)
Definition stale_db (db : DB) (timeout : Z) (now : timestamp) : DB :=
  fst (fst (resetStaleMessages db timeout now)).

Definition stale_events (db : DB) (timeout : Z) (now : timestamp)
    : list StaleEvent :=
  snd (fst (resetStaleMessages db timeout now)).

(** The primary key of a subscription-message row. *)
Definition sm_key (r : SubscriptionMessageRow) : uuid * uuid :=
  (sm_subscription_id r, sm_message_id r).

(** ** Message writer *)

Record MessageOptions : Type := mkMessageOptions {
  deliverInMs : option Z;
  deliverAt : option timestamp;
  priorityOption : option Z
}.

Definition no_options : MessageOptions := mkMessageOptions None None None.

(** The [deliverAt] local of [insertMessages]: [deliverInMs] counts when it
    is truthy (a number other than 0); a given [deliverAt] overrides it. *)
Definition effective_deliver_at (options : MessageOptions)
    (now : timestamp) : option timestamp :=
  let d := match deliverInMs options with
           | Some ms => if ms =? 0 then None else Some (now + ms)
           | None => None
           end in
  match deliverAt options with
  | Some t => Some t
  | None => d
  end.

(** A row of [pg_transit_subscription_messages] with the column defaults of
    the migration: status 'waiting', attempts 0, stale_count 0, the rest
    NULL unless given. *)
Definition default_sm (sid mid : uuid) (available : option timestamp)
    : SubscriptionMessageRow :=
  mkSM sid mid waiting 0 available None None None 0.

(** [INSERT INTO pg_transit_subscription_messages]: the primary key refuses
    a row whose key is already present or occurs twice among the new rows. *)
Fixpoint insert_subscription_messages (table new : list SubscriptionMessageRow)
    : Result (list SubscriptionMessageRow) :=
  match new with
  | [] => Ok table
  | r :: rest =>
      if existsb (sm_key_is (sm_subscription_id r) (sm_message_id r)) table
      then Err UniqueViolation
      else insert_subscription_messages (table ++ [r]) rest
  end.

(** The identifiers [v7()] hands out for [n] consecutive calls starting
    from generator state [g]. *)
Definition v7_ids (g : uuid) (n : nat) : list uuid := seq g n.

(** The rows selected by the fan-out query of [insertMessages]. *)
Definition fan_out_rows (db : DB) (topicId : uuid) (ids : list uuid)
    (deliver : option timestamp) : list SubscriptionMessageRow :=
  flat_map
    (fun s =>
       map (fun m => default_sm (s_id s) (m_id m) deliver)
           (filter (fun m => Nat.eqb (m_topic_id m) topicId
                             && any_eq (m_id m) ids)
                   (messages db)))
    (filter (fun s => Nat.eqb (s_topic_id s) topicId) (subscriptions db)).

(** [insertMessages(sql, topicId, data, options)], with [g] the state of the
    identifier generator.  An empty batch is taken to insert nothing. *)
Definition insertMessages (g : uuid) (db : DB) (topicId : uuid)
    (data : list JSONValue) (options : MessageOptions) (now : timestamp)
    : Result (DB * list MessageRow) :=
  let createdAt := now in
  let deliverAt := effective_deliver_at options now in
  let priority := priorityOption options in
  let ids := v7_ids g (List.length data) in
  let rows := map (fun p => mkMessage (fst p) topicId (snd p) createdAt
                                      deliverAt priority)
                  (combine ids data) in
  match rows with
  | [] => Ok (db, [])
  | _ :: _ =>
      if negb (existsb (fun t => Nat.eqb (t_id t) topicId) (topics db))
      then Err ForeignKeyViolation
      else if existsb (fun i => existsb (fun m => Nat.eqb (m_id m) i)
                                        (messages db)) ids
      then Err UniqueViolation
      else
        let db1 := set_messages db (messages db ++ rows) in
        match insert_subscription_messages (subscription_messages db1)
                (fan_out_rows db1 topicId ids deliverAt) with
        | Err e => Err e
        | Ok table => Ok (set_subscription_messages db1 table, rows)
        end
  end.

(** The message rows [insertMessages] builds. *)
Definition new_message_rows (g topicId : uuid) (data : list JSONValue)
    (options : MessageOptions) (now : timestamp) : list MessageRow :=
  map (fun p => mkMessage (fst p) topicId (snd p) now
                          (effective_deliver_at options now)
                          (priorityOption options))
      (combine (v7_ids g (List.length data)) data).

(** The effective [deliver_at] as the specification words it: the explicit
    [deliver_at] when given, else [now + deliver_in_ms]. *)
Definition spec_deliver_at (options : MessageOptions)
    (now : timestamp) : option timestamp :=
  match deliverAt options with
  | Some t => Some t
  | None => option_map (fun ms => now + ms) (deliverInMs options)
  end.

(** ** Topics and subscriptions *)

(** The [Topic] object; [maxMessagesRetention = None] is [Infinity]. *)
Record Topic : Type := mkTopicObject {
  topicId : uuid;
  topicName : string;
  maxMessagesRetention : option nat
}.

(** The [Topic] constructor's [init]: insert unless the name exists, then
    read the id back. [retention] is [options?.maxMessagesRetention ?? 0]. *)
Definition topic_init (g : uuid) (db : DB) (name : string)
    (retention : option nat) : Result (DB * Topic) :=
  match find (fun t => String.eqb (t_name t) name) (topics db) with
  | Some row => Ok (db, mkTopicObject (t_id row) name retention)
  | None =>
      if existsb (fun t => Nat.eqb (t_id t) g) (topics db)
      then Err UniqueViolation
      else Ok (mkDB (topics db ++ [mkTopic g name]) (messages db)
                    (scheduled_messages db) (subscriptions db)
                    (subscription_messages db),
               mkTopicObject g name retention)
  end.

Record SubscriptionOptions : Type := mkSubscriptionOptions {
  o_consumptionMode : option ConsumptionMode;
  o_startPosition : option StartPosition;
  o_maxAttempts : option Z;
  o_retryStrategy : option RetryStrategy;
  o_retryDelayInMs : option Z
}.

Definition default_options : SubscriptionOptions :=
  mkSubscriptionOptions None None None None None.

Definition or_default {A : Type} (o : option A) (d : A) : A :=
  match o with
  | Some a => a
  | None => d
  end.

(** The names of the options of [mismatchedOptions]. *)
Definition mismatched_options (consumption : ConsumptionMode)
    (start : StartPosition) (maxA : Z) (strategy : RetryStrategy)
    (delay : Z) (existingSub : SubscriptionRow) : list string :=
  (if mode_eqb consumption (s_consumption_mode existingSub)
   then [] else ["consumptionMode"%string])
  ++ (if position_eqb start (s_start_position existingSub)
      then [] else ["startPosition"%string])
  ++ (if maxA =? s_max_attempts existingSub
      then [] else ["maxAttempts"%string])
  ++ (if strategy_eqb strategy (s_retry_strategy existingSub)
      then [] else ["retryStrategy"%string])
  ++ (if delay =? s_retry_delay existingSub
      then [] else ["retryDelay"%string]).

(** [topic.subscribe(name, options)]: the [init] of the [Subscription]
    constructor.  [g] is the value [v7()] returns.  The result carries the
    new database, the initialised object and the option names of the
    ['error'] event (empty when none is emitted). *)
Definition subscribe (g : uuid) (db : DB) (topic : Topic)
    (subscriptionName : string) (options : SubscriptionOptions)
    : Result (DB * Subscription * list string) :=
  let consumptionMode := or_default (o_consumptionMode options) sequential in
  let startPosition := or_default (o_startPosition options) latest in
  let maxAttempts := or_default (o_maxAttempts options) 1 in
  let retryStrategy := or_default (o_retryStrategy options) linear in
  let retryDelay := or_default (o_retryDelayInMs options) 0 in
  if existsb (fun s => Nat.eqb (s_topic_id s) (topicId topic)
                       && String.eqb (s_name s) subscriptionName)
             (subscriptions db)
  then
    (* ON CONFLICT (topic_id, name) DO NOTHING returned no row *)
    match find (fun s => String.eqb (s_name s) subscriptionName)
               (subscriptions db) with
    | None => Err TypeError
    | Some existingSub =>
        Ok (db,
            mkSubscription (s_id existingSub) subscriptionName
              (s_consumption_mode existingSub) (s_start_position existingSub)
              (s_max_attempts existingSub) (s_retry_strategy existingSub)
              (s_retry_delay existingSub),
            mismatched_options consumptionMode startPosition maxAttempts
              retryStrategy retryDelay existingSub)
    end
  else if existsb (fun s => Nat.eqb (s_id s) g) (subscriptions db)
  then Err UniqueViolation
  else if negb (existsb (fun t => Nat.eqb (t_id t) (topicId topic))
                        (topics db))
  then Err ForeignKeyViolation
  else
    let row := mkSubscriptionRow g (topicId topic) subscriptionName false
                 consumptionMode startPosition maxAttempts retryStrategy
                 retryDelay in
    let db1 := set_subscriptions db (subscriptions db ++ [row]) in
    let this := mkSubscription g subscriptionName consumptionMode
                  startPosition maxAttempts retryStrategy retryDelay in
    match startPosition with
    | earliest =>
        match insert_subscription_messages (subscription_messages db1)
                (map (fun m => default_sm g (m_id m) None)
                     (filter (fun m => Nat.eqb (m_topic_id m) (topicId topic))
                             (messages db1))) with
        | Err e => Err e
        | Ok table => Ok (set_subscription_messages db1 table, this, [])
        end
    | latest => Ok (db1, this, [])
    end.

(** The arbiter of [ON CONFLICT (topic_id, name)]: a subscription of that
    topic already has the name. *)
Definition name_taken (db : DB) (topic : Topic) (n : string) : bool :=
  existsb (fun s => Nat.eqb (s_topic_id s) (topicId topic)
                    && String.eqb (s_name s) n)
          (subscriptions db).

(** ** Retention trimmer *)

(** [DELETE FROM pg_transit_messages WHERE c], with the cascade of the
    foreign key of [pg_transit_subscription_messages.message_id]. *)
Definition delete_messages (db : DB) (c : MessageRow -> bool) : DB :=
  let gone := map m_id (filter c (messages db)) in
  mkDB (topics db)
       (filter (fun m => negb (c m)) (messages db))
       (scheduled_messages db) (subscriptions db)
       (filter (fun r => negb (any_eq (sm_message_id r) gone))
               (subscription_messages db)).

(** The first query of [trim] after the subscription list:
    [earliestUnprocessedMessage]. *)
Definition earliest_unprocessed (db : DB) (this : Topic) : option uuid :=
  let subscriptionIds :=
    map s_id (filter (fun s => Nat.eqb (s_topic_id s) (topicId this))
                     (subscriptions db)) in
  match subscriptionIds with
  | [] => None
  | _ :: _ =>
      hd_error
        (order_by Nat.leb
           (map sm_message_id
              (filter (fun r => any_eq (sm_subscription_id r) subscriptionIds
                                && negb (status_eqb (sm_status r) completed))
                      (subscription_messages db))))
  end.

(** The messages the second query of [trim] ranks: those of the topic below
    the earliest unprocessed one, newest first. *)
Definition acknowledged_desc (db : DB) (this : Topic) : list uuid :=
  order_by (fun a b => Nat.leb b a)
    (map m_id
       (filter (fun m => Nat.eqb (m_topic_id m) (topicId this)
                         && match earliest_unprocessed db this with
                            | Some e => Nat.ltb (m_id m) e
                            | None => true
                            end)
               (messages db))).

(** [Topic.trim]: the new database and the returned count. *)
Definition trim (db : DB) (this : Topic) : DB * Z :=
  match maxMessagesRetention this with
  | None => (db, 0)
  | Some retention =>
      match nth_error (acknowledged_desc db this) retention with
      | None => (db, 0)
      | Some latestMessageToRemove =>
          let c := fun m => Nat.eqb (m_topic_id m) (topicId this)
                            && Nat.leb (m_id m) latestMessageToRemove in
          (delete_messages db c,
           Z.of_nat (List.length (filter c (messages db))))
      end
  end.

(** ** Removal *)

(** [Message.remove] *)
Definition removeMessage (db : DB) (this : MessageRow) : DB :=
  delete_messages db
    (fun m => Nat.eqb (m_topic_id m) (m_topic_id this)
              && Nat.eqb (m_id m) (m_id this)).

(** [Subscription.remove], with the cascade of the foreign key of
    [pg_transit_subscription_messages.subscription_id]. *)
Definition removeSubscription (db : DB) (this : Subscription) : DB :=
  mkDB (topics db) (messages db) (scheduled_messages db)
       (filter (fun s => negb (Nat.eqb (s_id s) (id this)))
               (subscriptions db))
       (filter (fun r => negb (Nat.eqb (sm_subscription_id r) (id this)))
               (subscription_messages db)).

(** [Topic.clear] *)
Definition clear (db : DB) (this : Topic) : DB :=
  let db1 := delete_messages db
               (fun m => Nat.eqb (m_topic_id m) (topicId this)) in
  set_scheduled db1
    (filter (fun r => negb (Nat.eqb (sc_topic_id r) (topicId this)))
            (scheduled_messages db1)).

(** [ScheduledMessage.remove] *)
Definition removeScheduled (db : DB) (this : ScheduledMessageRow) : DB :=
  set_scheduled db
    (filter (fun r => negb (Nat.eqb (sc_topic_id r) (sc_topic_id this)
                            && String.eqb (sc_name r) (sc_name this)))
            (scheduled_messages db)).

(** ** Scheduler *)

Section Scheduler.

(** [CronExpressionParser.parse(cron).next().toDate()] evaluated when the
    clock reads [now]: the first occurrence of [cron] after [now]. *)
Variable cron_next : string -> timestamp -> timestamp.

Record ScheduledMessageConfig : Type := mkConfig {
  cron : string;
  repeats : option Z
}.

(** [Topic.schedule]: insert, or on a (topic_id, name) conflict update
    every column but [repeats_made]. *)
Definition schedule (db : DB) (this : Topic) (scheduledMessageName : string)
    (config : ScheduledMessageConfig) (data : JSONValue)
    (options : MessageOptions) (now : timestamp) : DB :=
  let row := mkScheduled (topicId this) scheduledMessageName data
               (cron config) (cron_next (cron config) now)
               (deliverInMs options) (deliverAt options)
               (priorityOption options) (repeats config) 0 in
  let same := fun r => Nat.eqb (sc_topic_id r) (topicId this)
                       && String.eqb (sc_name r) scheduledMessageName in
  if existsb same (scheduled_messages db)
  then set_scheduled db
         (update_where same
            (fun r => mkScheduled (sc_topic_id r) (sc_name r) data
                        (cron config) (cron_next (cron config) now)
                        (deliverInMs options) (deliverAt options)
                        (priorityOption options) (repeats config)
                        (sc_repeats_made r))
            (scheduled_messages db))
  else set_scheduled db (scheduled_messages db ++ [row]).

(** [WHERE next_occurrence_at <= now
      AND (repeats IS NULL OR repeats_made < repeats)] *)
Definition is_due (now : timestamp) (r : ScheduledMessageRow) : bool :=
  (sc_next_occurrence_at r <=? now)
  && match sc_repeats r with
     | None => true
     | Some k => sc_repeats_made r <? k
     end.

Definition due_rows (db : DB) (now : timestamp) : list ScheduledMessageRow :=
  filter (is_due now) (scheduled_messages db).

(** [SET next_occurrence_at = parse(row.cron).next(),
        repeats_made = repeats_made + 1] *)
Definition advance (row : ScheduledMessageRow) (now : timestamp)
    (r : ScheduledMessageRow) : ScheduledMessageRow :=
  mkScheduled (sc_topic_id r) (sc_name r) (sc_data r) (sc_cron r)
    (cron_next (sc_cron row) now)
    (sc_deliver_in_ms r) (sc_deliver_at r) (sc_priority r) (sc_repeats r)
    (sc_repeats_made r + 1).

(** The body of the [for (const row of rows)] loop. *)
Fixpoint fire_rows (rows : list ScheduledMessageRow) (g : uuid) (db : DB)
    (now : timestamp) : Result (uuid * DB * list MessageRow) :=
  match rows with
  | [] => Ok (g, db, [])
  | row :: rest =>
      match insertMessages g db (sc_topic_id row) [sc_data row]
              (mkMessageOptions (sc_deliver_in_ms row) (sc_deliver_at row)
                                (sc_priority row)) now with
      | Err e => Err e
      | Ok (db1, inserted) =>
          let db2 := set_scheduled db1
                       (update_where
                          (fun r => Nat.eqb (sc_topic_id r) (sc_topic_id row)
                                    && String.eqb (sc_name r) (sc_name row))
                          (advance row now)
                          (scheduled_messages db1)) in
          match fire_rows rest (S g) db2 now with
          | Err e => Err e
          | Ok (g', db3, more) => Ok (g', db3, inserted ++ more)
          end
      end
  end.

(** [PgTransit.processScheduledMessages] *)
Definition processScheduledMessages (g : uuid) (db : DB) (now : timestamp)
    : Result (uuid * DB * list MessageRow) :=
  fire_rows (due_rows db now) g db now.

End Scheduler.


(** ** Scheduler bookkeeping *)

(** The primary key of a schedule. *)
Definition sc_key (r : ScheduledMessageRow) : uuid * string :=
  (sc_topic_id r, sc_name r).

Definition sc_key_is (k : uuid * string) (r : ScheduledMessageRow) : bool :=
  Nat.eqb (sc_topic_id r) (fst k) && String.eqb (sc_name r) (snd k).

(** The message a due schedule row materialises when [v7()] returns [g]. *)
Definition fired_message (g : uuid) (now : timestamp)
    (row : ScheduledMessageRow) : MessageRow :=
  mkMessage g (sc_topic_id row) (sc_data row) now
    (effective_deliver_at
       (mkMessageOptions (sc_deliver_in_ms row) (sc_deliver_at row)
                         (sc_priority row)) now)
    (sc_priority row).

(** How often the schedule [k] fires in one run at [now]: the number of its
    rows among the due ones. *)
Definition fires (k : uuid * string) (db : DB) (now : timestamp) : nat :=
  List.length (filter (sc_key_is k) (due_rows db now)).

Section SchedulerRuns.
Variable cron_next : string -> timestamp -> timestamp.

(** The updates of one run applied to one row of the table. *)
Definition apply_updates (rows : list ScheduledMessageRow)
    (now : timestamp) (r : ScheduledMessageRow) : ScheduledMessageRow :=
  fold_left
    (fun acc row => if sc_key_is (sc_key row) acc
                    then advance cron_next row now acc else acc)
    rows r.

End SchedulerRuns.

(** A cron expression modelled for the scenarios: an occurrence every 10
    milliseconds, on the multiples of 10. *)
Definition every_10ms (_ : string) (t : timestamp) : timestamp :=
  (t / 10 + 1) * 10.

(** ** Schema constraints *)

(** The primary key of [pg_transit_messages]. *)
Definition pk_messages (db : DB) : Prop := NoDup (map m_id (messages db)).

(** The two foreign keys of [pg_transit_subscription_messages], together
    with the data-model invariant that a row joins a subscription and a
    message of one topic. *)
Definition fk_subscription_messages (db : DB) : Prop :=
  forall r, In r (subscription_messages db) ->
    exists s m,
      In s (subscriptions db) /\ s_id s = sm_subscription_id r
      /\ In m (messages db) /\ m_id m = sm_message_id r
      /\ s_topic_id s = m_topic_id m.

(** The primary key of [pg_transit_subscription_messages]. *)
Definition pk_subscription_messages (db : DB) : Prop :=
  NoDup (map sm_key (subscription_messages db)).

(** No delays and no retries pending on a subscription: none of its waiting
    rows has an [available_at]. *)
Definition no_delays (db : DB) (sid : uuid) : Prop :=
  forall r, In r (subscription_messages db) ->
            sm_subscription_id r = sid -> sm_status r = waiting ->
            sm_available_at r = None.

(** ** Runs of the broker *)

(** The [Subscription] object a stored row initialises. *)
Definition object_of_row (s : SubscriptionRow) : Subscription :=
  mkSubscription (s_id s) (s_name s) (s_consumption_mode s)
    (s_start_position s) (s_max_attempts s) (s_retry_strategy s)
    (s_retry_delay s).

Inductive Op : Type :=
| OpTopic | OpSend | OpSubscribe | OpReserve | OpComplete | OpFail
| OpRetry | OpHeartbeat | OpProgress | OpResetStale | OpTrim
| OpSchedule | OpFire | OpRemove.

Section Runs.
Variable cron_next : string -> timestamp -> timestamp.

(** One committed operation of the API.  The methods of a message object
    ([complete], [fail], [retry], [heartbeat], [updateProgress]) are public
    and can be called on any object at any time, also on one that no longer
    shows its row as it is stored; [maxAttempts] is at least 1 as its
    documentation requires. *)
Inductive step : Op -> DB -> DB -> Prop :=
| step_topic : forall g db n retention db' topic,
    topic_init g db n retention = Ok (db', topic) ->
    step OpTopic db db'
| step_send : forall g db topicId data options now db' rows,
    insertMessages g db topicId data options now = Ok (db', rows) ->
    step OpSend db db'
| step_subscribe : forall g db topic n options db' this errs,
    1 <= or_default (o_maxAttempts options) 1 ->
    subscribe g db topic n options = Ok (db', this, errs) ->
    step OpSubscribe db db'
| step_reserve : forall db s count now db' batch,
    In s (subscriptions db) ->
    getNextMessages db (object_of_row s) count now = Ok (db', batch) ->
    step OpReserve db db'
| step_complete : forall db h,
    step OpComplete db (fst (complete db h))
| step_fail : forall db h error now db' h',
    fail db h error now = Ok (db', h') ->
    step OpFail db db'
| step_retry : forall db h,
    step OpRetry db (fst (retry db h))
| step_heartbeat : forall db h now,
    step OpHeartbeat db (fst (heartbeat db h now))
| step_progress : forall db h value,
    step OpProgress db (fst (updateProgress db h value))
| step_reset_stale : forall db timeout now,
    step OpResetStale db (stale_db db timeout now)
| step_trim : forall db topic,
    step OpTrim db (fst (trim db topic))
| step_schedule : forall db topic n config data options now,
    step OpSchedule db (schedule cron_next db topic n config data options now)
| step_fire : forall g db now g' db' msgs,
    processScheduledMessages cron_next g db now = Ok (g', db', msgs) ->
    step OpFire db db'
| step_remove_message : forall db m,
    step OpRemove db (removeMessage db m)
| step_remove_subscription : forall db this,
    step OpRemove db (removeSubscription db this)
| step_remove_scheduled : forall db r,
    step OpRemove db (removeScheduled db r)
| step_clear : forall db topic,
    step OpRemove db (clear db topic).

(** The databases a run reaches from the empty one using only the
    operations [allowed]. *)
Inductive reachable (allowed : Op -> Prop) : DB -> Prop :=
| reach_empty : reachable allowed empty_db
| reach_step : forall op db db',
    reachable allowed db -> allowed op -> step op db db' ->
    reachable allowed db'.
End Runs.

(** Runs without manual retry and without stale resets. *)
Definition plain_run (op : Op) : Prop :=
  op <> OpRetry /\ op <> OpResetStale.

Section PlainRuns.
Variable cron_next : string -> timestamp -> timestamp.



End PlainRuns.




(** The keys a database stores, table by table. *)
Definition msg_keys (db : DB) : list (uuid * uuid) :=
  map (fun m => (m_id m, m_topic_id m)) (messages db).

Definition sub_keys (db : DB) : list (uuid * uuid) :=
  map (fun s => (s_id s, s_topic_id s)) (subscriptions db).

(** The constraints of the schema that the properties above rely on. *)
Definition schema_core (db : DB) : Prop :=
  pk_messages db
  /\ pk_subscription_messages db
  /\ fk_subscription_messages db
  /\ NoDup (map s_id (subscriptions db)).

Definition schema (db : DB) : Prop :=
  schema_core db /\ NoDup (map sc_key (scheduled_messages db)).

(** The generator state [g] lies above every stored message id, as a
    time-ordered generator's does. *)
Definition fresh (g : uuid) (db : DB) : Prop :=
  forall m, In m (messages db) -> (m_id m < g)%nat.

(** The foreign key of [pg_transit_scheduled_messages.topic_id]. *)
Definition fk_scheduled (db : DB) : Prop :=
  forall r, In r (scheduled_messages db) ->
    existsb (fun t => Nat.eqb (t_id t) (sc_topic_id r)) (topics db) = true.

(** The messages a [trim] of the topic deletes. *)
Definition trimmed (db : DB) (this : Topic) (m : MessageRow) : bool :=
  match maxMessagesRetention this with
  | None => false
  | Some retention =>
      match nth_error (acknowledged_desc db this) retention with
      | None => false
      | Some latestMessageToRemove =>
          Nat.eqb (m_topic_id m) (topicId this)
          && Nat.leb (m_id m) latestMessageToRemove
      end
  end.

(** ** Trimming all topics *)

(** The trims of [PgTransit.trimTopics], one transaction per topic, taken
    in the order of the list, with the count each one returns. *)
Fixpoint trim_each (db : DB) (topics : list Topic) : DB * list Z :=
  match topics with
  | [] => (db, [])
  | topic :: rest =>
      let (db1, count) := trim db topic in
      let (db2, counts) := trim_each db1 rest in
      (db2, count :: counts)
  end.

(** [PgTransit.trimTopics]:
    [counts.reduce((acc, count) => acc + count, 0)] *)
Definition trimTopics (db : DB) (topics : list Topic) : DB * Z :=
  let (db', counts) := trim_each db topics in
  (db', fold_left (fun acc count => acc + count) counts 0).

(** ** Sending and listing *)

(** [Topic.sendBulk]: the inserted messages, each also the payload of one
    ['send'] event, in this order. *)
Definition sendBulk (g : uuid) (db : DB) (this : Topic)
    (data : list JSONValue) (options : MessageOptions) (now : timestamp)
    : Result (DB * list MessageRow) :=
  insertMessages g db (topicId this) data options now.

(** [Topic.send]: the first (and only) message of the batch. *)
Definition send (g : uuid) (db : DB) (this : Topic) (data : JSONValue)
    (options : MessageOptions) (now : timestamp)
    : Result (DB * option MessageRow) :=
  match insertMessages g db (topicId this) [data] options now with
  | Err e => Err e
  | Ok (db', messages) => Ok (db', hd_error messages)
  end.

(** [Topic.getMessages]: [WHERE topic_id = this.id ORDER BY id]. *)
Definition topic_getMessages (db : DB) (this : Topic) : list MessageRow :=
  order_by (fun a b => Nat.leb (m_id a) (m_id b))
    (filter (fun m => Nat.eqb (m_topic_id m) (topicId this)) (messages db)).

(** [Topic.getScheduledMessages]: [WHERE topic_id = this.id]. *)
Definition getScheduledMessages (db : DB) (this : Topic)
    : list ScheduledMessageRow :=
  filter (fun r => Nat.eqb (sc_topic_id r) (topicId this))
         (scheduled_messages db).

(** ** Consumer *)

(** [set concurrency(value)]: [None] when the setter throws. *)
Definition set_concurrency (subscription : Subscription) (value : Z)
    : option Z :=
  if value <? 1 then None
  else match consumptionMode subscription with
       | sequential => Some 1
       | parallel => Some value
       end.

(** What a run of the handler does with the message it is given: the
    values it passes to [updateProgress], in order, and the error it throws,
    if any.  The handler returns before the first heartbeat is due. *)
Record Handling : Type := mkHandling {
  updates : list JSONValue;
  thrown : option JsError
}.

Definition Handler : Type := SubscriptionMessage -> Handling.

(** The events of a consumer, with the id of the message they carry. *)
Inductive ConsumerEvent : Type :=
| EvConsume
| EvProcess (messageId : uuid)
| EvProgress (messageId : uuid) (value : JSONValue)
| EvCompleted (messageId : uuid)
| EvFailed (messageId : uuid) (error : JsError)
| EvIdle.

(** The calls of [updateProgress] a handler makes, each re-emitted by the
    consumer's progress listener. *)
Fixpoint run_updates (db : DB) (message : SubscriptionMessage)
    (values : list JSONValue)
    : DB * SubscriptionMessage * list ConsumerEvent :=
  match values with
  | [] => (db, message, [])
  | v :: rest =>
      let (db1, message1) := updateProgress db message v in
      let '(db2, message2, events) := run_updates db1 message1 rest in
      (db2, message2, EvProgress (msg_id message1) v :: events)
  end.

(** [Consumer.processMessage]; [now] is the clock when the handler has
    returned or thrown.  When [fail] throws, the promise is rejected: no
    'failed' event is emitted and the consumer asks for no next message. *)
Definition processMessage (handler : Handler) (db : DB)
    (message : SubscriptionMessage) (now : timestamp)
    : Result (DB * list ConsumerEvent) :=
  let run := handler message in
  let '(db1, message1, progressed) :=
    run_updates db message (updates run) in
  match thrown run with
  | Some error =>
      match fail db1 message1 error now with
      | Err e => Err e
      | Ok (db2, message2) =>
          Ok (db2, EvProcess (msg_id message) :: progressed
                   ++ [EvFailed (msg_id message2) error])
      end
  | None =>
      let (db2, message2) := complete db1 message1 in
      Ok (db2, EvProcess (msg_id message) :: progressed
               ++ [EvCompleted (msg_id message2)])
  end.

(** [consumeNextMessages] inside [Consumer.consume], for a consumer whose
    concurrency is 1 and that is not processing anything when it is called:
    one slot is free, so one message is asked for; an empty answer makes
    the consumer idle, otherwise the message is processed and the next one
    is asked for.  [clock] gives, round by round, the time of the
    reservation and the time the handler ends; the result tells whether the
    consumer became idle within these rounds. *)
Fixpoint consumeNextMessages (handler : Handler) (subscription : Subscription)
    (clock : list (timestamp * timestamp)) (db : DB)
    : Result (DB * list ConsumerEvent * bool) :=
  match clock with
  | [] => Ok (db, [], false)
  | (polledAt, endedAt) :: rest =>
      match getNextMessages db subscription 1 polledAt with
      | Err e => Err e
      | Ok (db1, []) => Ok (db1, [EvIdle], true)
      | Ok (db1, message :: _) =>
          match processMessage handler db1 message endedAt with
          | Err e => Err e
          | Ok (db2, events) =>
              match consumeNextMessages handler subscription rest db2 with
              | Err e => Err e
              | Ok (db3, more, idle) => Ok (db3, events ++ more, idle)
              end
          end
      end
  end.

(** [Consumer.consume] on an idle consumer. *)
Definition consume (handler : Handler) (subscription : Subscription)
    (clock : list (timestamp * timestamp)) (db : DB)
    : Result (DB * list ConsumerEvent * bool) :=
  match consumeNextMessages handler subscription clock db with
  | Err e => Err e
  | Ok (db', events, idle) => Ok (db', EvConsume :: events, idle)
  end.

(** The events one message of a drain gives rise to. *)
Definition message_events (handler : Handler) (message : SubscriptionMessage)
    : list ConsumerEvent :=
  EvProcess (msg_id message)
  :: map (EvProgress (msg_id message)) (updates (handler message))
  ++ [match thrown (handler message) with
      | Some error => EvFailed (msg_id message) error
      | None => EvCompleted (msg_id message)
      end].

(** The events of a drain of the rows [queue], reserved at the times the
    clock gives. *)
Fixpoint drain_events (handler : Handler) (subscription : Subscription)
    (queue : list Joined) (clock : list (timestamp * timestamp))
    : list ConsumerEvent :=
  match queue, clock with
  | j :: queue', (polledAt, _) :: clock' =>
      message_events handler (reserved_handle subscription polledAt j)
      ++ drain_events handler subscription queue' clock'
  | _, _ => [EvIdle]
  end.

(** The ids of the messages handed to the handler, in order. *)
Fixpoint processed (events : list ConsumerEvent) : list uuid :=
  match events with
  | [] => []
  | EvProcess i :: rest => i :: processed rest
  | _ :: rest => processed rest
  end.

(** A subscription at rest, as a consumer of concurrency 1 finds it when it
    is the only one working on it: keys unique, no delay or retry pending,
    the gate open. *)
Definition at_rest (db : DB) (this : Subscription) : Prop :=
  pk_subscription_messages db
  /\ no_delays db (id this)
  /\ (consumptionMode this = sequential ->
      exists s, find_subscription db (id this) = Some s
                /\ s_processing s = false).

(** A failure ends the message: the handler never throws, or every waiting
    message of the subscription is on its last attempt (as with the default
    [maxAttempts] of 1). *)
Definition failure_is_final (handler : Handler) (db : DB)
    (this : Subscription) : Prop :=
  (forall message, thrown (handler message) = None)
  \/ (forall r, In r (subscription_messages db) ->
                sm_subscription_id r = id this -> sm_status r = waiting ->
                maxAttempts this <= sm_attempts r + 1).

(** ** What a subscription sees *)

(** Two databases show the same thing to a subscription: the same rows
    through [getMessages], the same candidates of the reservation query at
    every time, and the same stored subscription row (the gate). *)
Definition same_view (db db' : DB) (other : Subscription) : Prop :=
  (forall statuses,
      getMessages db' other statuses = getMessages db other statuses)
  /\ (forall now, candidates db' (id other) now = candidates db (id other) now)
  /\ find_subscription db' (id other) = find_subscription db (id other).

(** ** Migrations *)

Record Migration : Type := mkMigration {
  version : string;
  sql : string
}.

(** The registry [migrations] of the package. *)
Definition migrations : list Migration :=
  [mkMigration "1.0.0" "migration1_0_0"].

(** The loop over [notExecutedMigrations]: each script is run and its
    version inserted into [pg_transit_migrations], whose [version] column is
    unique.  The result is the table and the scripts run, in order. *)
Fixpoint run_each (table : list string) (notExecuted : list Migration)
    : Result (list string * list string) :=
  match notExecuted with
  | [] => Ok (table, [])
  | migration :: rest =>
      if existsb (String.eqb (version migration)) table
      then Err UniqueViolation
      else
        match run_each (table ++ [version migration]) rest with
        | Err e => Err e
        | Ok (table', scripts) => Ok (table', sql migration :: scripts)
        end
  end.

(** [runMigrations], for a list of declared migrations: [table] holds the
    versions recorded so far, [None] when the table does not exist yet
    ([CREATE TABLE IF NOT EXISTS] then creates it empty). *)
Definition runMigrations (declared : list Migration)
    (table : option (list string)) : Result (list string * list string) :=
  let executedVersions := match table with
                          | Some rows => rows
                          | None => []
                          end in
  let notExecutedMigrations :=
    filter (fun migration =>
              negb (existsb (String.eqb (version migration))
                            executedVersions))
           declared in
  run_each executedVersions notExecutedMigrations.

(** ** Careful clients *)

Section CarefulRuns.
Variable cron_next : string -> timestamp -> timestamp.

(** The API used with care: [complete] and [fail] are called only on a
    message whose row is still 'processing', through a handle that shows the
    row as it is (the consumer that holds the message, before anything
    reopened it); every other operation is free, the stale detector and
    manual retries included. *)
Inductive careful_step : DB -> DB -> Prop :=
| careful_api : forall op db db',
    op <> OpComplete -> op <> OpFail ->
    step cron_next op db db' ->
    careful_step db db'
| careful_complete : forall db s h,
    In s (subscriptions db) ->
    In h (getMessages db (object_of_row s) [processing]) ->
    careful_step db (fst (complete db h))
| careful_fail : forall db s h error now db' h',
    In s (subscriptions db) ->
    In h (getMessages db (object_of_row s) [processing]) ->
    fail db h error now = Ok (db', h') ->
    careful_step db db'.

Inductive careful_run : DB -> Prop :=
| careful_start : careful_run empty_db
| careful_next : forall db db',
    careful_run db -> careful_step db db' -> careful_run db'.

End CarefulRuns.

(** The row filter behind the messages in flight. *)
Definition is_processing (sid : uuid) (r : SubscriptionMessageRow) : bool :=
  Nat.eqb (sm_subscription_id r) sid
  && status_eqb (sm_status r) processing.

(** The messages in flight on a subscription. *)
Definition in_flight (db : DB) (sid : uuid) : list SubscriptionMessageRow :=
  filter (is_processing sid) (subscription_messages db).

(** Sequential exclusivity: a sequential subscription has at most one
    message in flight, and none while its gate is open. *)
Definition exclusive (db : DB) : Prop :=
  forall s, In s (subscriptions db) -> s_consumption_mode s = sequential ->
    (List.length (in_flight db (s_id s)) <= 1)%nat
    /\ (s_processing s = false -> in_flight db (s_id s) = []).

(** ** Scenarios *)

(** Two topics, each with a subscription called "logger". *)
Definition topic_orders : Topic := mkTopicObject 1%nat "orders" (Some 0%nat).
Definition topic_payments : Topic :=
  mkTopicObject 2%nat "payments" (Some 0%nat).

Definition two_topics : DB :=
  mkDB [mkTopic 1%nat "orders"; mkTopic 2%nat "payments"] [] [] [] [].

(** The database after [topic_orders.subscribe("logger")] followed by
    [topic_payments.subscribe("logger")], with [v7()] returning 10 and 11. *)
Definition two_loggers : DB :=
  mkDB [mkTopic 1%nat "orders"; mkTopic 2%nat "payments"] [] []
       [mkSubscriptionRow 10%nat 1%nat "logger" false sequential latest 1
                          linear 0;
        mkSubscriptionRow 11%nat 2%nat "logger" false sequential latest 1
                          linear 0]
       [].


(** The same two subscriptions stored in the other order. *)
Definition two_loggers_swapped : DB :=
  mkDB [mkTopic 1%nat "orders"; mkTopic 2%nat "payments"] [] []
       [mkSubscriptionRow 11%nat 2%nat "logger" false sequential latest 1
                          linear 0;
        mkSubscriptionRow 10%nat 1%nat "logger" false sequential latest 1
                          linear 0]
       [].

(** A sequential subscription "worker" (id 10) on topic "orders", created
    with the default options, and three messages sent afterwards. *)
Definition worker : Subscription :=
  mkSubscription 10%nat "worker" sequential latest 1 linear 0.

Definition worker_row : SubscriptionRow :=
  mkSubscriptionRow 10%nat 1%nat "worker" false sequential latest 1 linear 0.

Definition three_waiting : DB :=
  mkDB [mkTopic 1%nat "orders"]
       [mkMessage 100%nat 1%nat (JText "a") 0 None None;
        mkMessage 101%nat 1%nat (JText "b") 0 None None;
        mkMessage 102%nat 1%nat (JText "c") 0 None None]
       []
       [worker_row]
       [default_sm 10%nat 100%nat None;
        default_sm 10%nat 101%nat None;
        default_sm 10%nat 102%nat None].

(** The message ids of the rows of a subscription that are 'processing'. *)
Definition in_processing (db : DB) (sid : uuid) : list uuid :=
  map sm_message_id
    (filter (fun r => Nat.eqb (sm_subscription_id r) sid
                      && status_eqb (sm_status r) processing)
            (subscription_messages db)).



(** A parallel subscription "jobs" (id 20) with three waiting messages:
    200 without priority, 201 with priority 1, 202 with priority 5. *)
Definition jobs : Subscription :=
  mkSubscription 20%nat "jobs" parallel latest 3 exponential 10000.

Definition priority_queue : DB :=
  mkDB [mkTopic 1%nat "orders"]
       [mkMessage 200%nat 1%nat (JText "a") 0 None None;
        mkMessage 201%nat 1%nat (JText "b") 0 None (Some 1);
        mkMessage 202%nat 1%nat (JText "c") 0 None (Some 5)]
       []
       [mkSubscriptionRow 20%nat 1%nat "jobs" false parallel latest 3
                          exponential 10000]
       [default_sm 20%nat 200%nat None;
        default_sm 20%nat 201%nat None;
        default_sm 20%nat 202%nat None].


Definition second_attempt_db : DB :=
  mkDB [mkTopic 1%nat "orders"]
       [mkMessage 201%nat 1%nat (JText "b") 0 None (Some 1)]
       []
       [mkSubscriptionRow 20%nat 1%nat "jobs" false parallel latest 3
                          exponential 10000]
       [mkSM 20%nat 201%nat processing 2 None None (Some 7) None 0].

(** Topic "audit" keeps one acknowledged message; its subscription has
    completed 300 and 301, and 302 is waiting. *)
Definition topic_audit : Topic := mkTopicObject 3%nat "audit" (Some 1%nat).

Definition audit_db : DB :=
  mkDB [mkTopic 3%nat "audit"]
       [mkMessage 300%nat 3%nat (JText "a") 0 None None;
        mkMessage 301%nat 3%nat (JText "b") 0 None None;
        mkMessage 302%nat 3%nat (JText "c") 0 None None]
       []
       [mkSubscriptionRow 30%nat 3%nat "auditor" false sequential latest 1
                          linear 0]
       [mkSM 30%nat 300%nat completed 1 None None (Some 1) None 0;
        mkSM 30%nat 301%nat completed 1 None None (Some 2) None 0;
        default_sm 30%nat 302%nat None].

(** A message of topic "orders" to be delivered at 5000, sent before any
    subscription exists. *)
Definition delayed_db : DB :=
  mkDB [mkTopic 1%nat "orders"]
       [mkMessage 400%nat 1%nat (JText "later") 0 (Some 5000) None]
       [] [] [].

Definition from_earliest : SubscriptionOptions :=
  mkSubscriptionOptions (Some parallel) (Some earliest) None None None.

(** The database after: create topic "orders"; subscribe "worker"
    ([max_attempts = 1]); send one message; reserve it. *)
Definition reserved_once : DB :=
  mkDB [mkTopic 1%nat "orders"]
       [mkMessage 100%nat 1%nat (JText "a") 0 None None]
       []
       [mkSubscriptionRow 10%nat 1%nat "worker" true sequential latest 1
                          linear 0]
       [mkSM 10%nat 100%nat processing 1 None None (Some 0) None 0].

(** A row whose heartbeat stopped at 0. *)
Definition stalled_row : SubscriptionMessageRow :=
  mkSM 10%nat 100%nat processing 1 None None (Some 0) None 0.

(** The handle a consumer holds for message 100 of "worker" after the
    first reservation, at time 0. *)
Definition first_attempt : SubscriptionMessage :=
  mkHandle worker 100%nat (JText "a") 0 processing 1 None None (Some 0)
           None None 0.

(** Message 201 of "jobs" after its third and last attempt failed. *)
Definition failed_db : DB :=
  mkDB [mkTopic 1%nat "orders"]
       [mkMessage 201%nat 1%nat (JText "b") 0 None (Some 1)]
       []
       [mkSubscriptionRow 20%nat 1%nat "jobs" false parallel latest 3
                          exponential 10000]
       [mkSM 20%nat 201%nat failed 3 None (Some "boom"%string) (Some 7)
             None 0].

Definition failed_message : SubscriptionMessage :=
  mkHandle jobs 201%nat (JText "b") 0 failed 3 None (Some "boom"%string)
           (Some 7) (Some 1) None 0.

(** A handler that returns at once, and the clock of four rounds of a
    consumer. *)
Definition always_succeeds : Handler := fun _ => mkHandling [] None.

Definition four_rounds : list (timestamp * timestamp) :=
  [(0, 1); (2, 3); (4, 5); (6, 7)].




(** The object [getMessages] returns for message 100 of "worker" while it
    waits, and the database after: create topic "orders"; subscribe
    "worker" ([max_attempts = 1]); send one message; read it with
    [getMessages]; reserve it; call [fail] on the object read before the
    reservation; reserve it again. *)
Definition read_while_waiting : SubscriptionMessage :=
  mkHandle worker 100%nat (JText "a") 0 waiting 0 None None None None None 0.

Definition failed_late_and_reserved : DB :=
  mkDB [mkTopic 1%nat "orders"]
       [mkMessage 100%nat 1%nat (JText "a") 0 None None]
       []
       [mkSubscriptionRow 10%nat 1%nat "worker" true sequential latest 1
                          linear 0]
       [mkSM 10%nat 100%nat processing 2 (Some 1) (Some "boom"%string)
             (Some 2) None 0].

(** The database after: create topic "orders"; subscribe "worker"
    ([max_attempts = 1]); send one message; reserve it at 0; the heartbeat
    stops and the stale detector (timeout 60) reopens it at 100; reserve it
    again at 101. *)
Definition reopened_and_reserved : DB :=
  mkDB [mkTopic 1%nat "orders"]
       [mkMessage 100%nat 1%nat (JText "a") 0 None None]
       []
       [mkSubscriptionRow 10%nat 1%nat "worker" true sequential latest 1
                          linear 0]
       [mkSM 10%nat 100%nat processing 2 None None (Some 101) None 1].


(** * Properties *)

(** ** Table primitives *)

Lemma status_eqb_eq a b : status_eqb a b = true <-> a = b.
Proof. destruct a, b; simpl; split; congruence. Qed.

Lemma status_eqb_refl a : status_eqb a a = true.
Proof. now destruct a. Qed.

Lemma status_eqb_neq a b : status_eqb a b = false <-> a <> b.
Proof. destruct a, b; simpl; split; congruence. Qed.

Lemma any_eq_In x ids : any_eq x ids = true <-> In x ids.
Proof.
  unfold any_eq. rewrite existsb_exists. split.
  - intros [y [Hy He]]. apply Nat.eqb_eq in He. now subst.
  - intros H. exists x. split; [assumption | apply Nat.eqb_refl].
Qed.

Lemma sm_key_is_true sid mid r :
  sm_key_is sid mid r = true <->
  sm_subscription_id r = sid /\ sm_message_id r = mid.
Proof.
  unfold sm_key_is. rewrite andb_true_iff, !Nat.eqb_eq. tauto.
Qed.

Lemma update_where_length {A} (c : A -> bool) f l :
  List.length (update_where c f l) = List.length l.
Proof. unfold update_where. apply length_map. Qed.

Lemma update_where_In {A} (c : A -> bool) f l y :
  In y (update_where c f l) <->
  exists x, In x l /\ y = (if c x then f x else x).
Proof.
  unfold update_where. rewrite in_map_iff. split.
  - intros [x [E H]]. exists x. now subst.
  - intros [x [H E]]. exists x. now subst.
Qed.

(** Looking a key up after an update that keeps keys in place. *)
Lemma find_update_where {A} (k c : A -> bool) (f : A -> A) l :
  (forall r, k (f r) = k r) ->
  find k (update_where c f l) =
  option_map (fun r => if c r then f r else r) (find k l).
Proof.
  intros Hk. induction l as [|x l IH]; simpl; [reflexivity|].
  destruct (c x) eqn:Ec; [rewrite Hk|]; destruct (k x) eqn:Ek; simpl;
    rewrite ?Ec; auto.
Qed.

Lemma find_sm_update_own_row db this f sid mid :
  (forall r, sm_subscription_id (f r) = sm_subscription_id r) ->
  (forall r, sm_message_id (f r) = sm_message_id r) ->
  find_sm (update_own_row db this f) sid mid =
  option_map
    (fun r => if sm_key_is (id (subscription this)) (msg_id this) r
              then f r else r)
    (find_sm db sid mid).
Proof.
  intros H1 H2. unfold find_sm, update_own_row. simpl.
  apply find_update_where. intros r. unfold sm_key_is. now rewrite H1, H2.
Qed.


Lemma find_sm_key db sid mid r :
  find_sm db sid mid = Some r ->
  sm_subscription_id r = sid /\ sm_message_id r = mid.
Proof.
  unfold find_sm. intros H. apply find_some in H.
  now apply sm_key_is_true.
Qed.

Lemma find_sm_In db sid mid r :
  find_sm db sid mid = Some r -> In r (subscription_messages db).
Proof. unfold find_sm. intros H. now apply find_some in H. Qed.

(** ** Failure (C3) *)


Lemma new_Date_invalid v :
  max_time_value < Z.abs v -> new_Date v = InvalidDate.
Proof.
  intros H. unfold new_Date.
  destruct (Z.abs v <=? max_time_value) eqn:E;
    [apply Z.leb_le in E; lia | reflexivity].
Qed.

Lemma date_plus_scaled_nonneg t d e :
  0 <= e < 1024 -> date_plus_scaled t d e = new_Date (t + d * 2 ^ e).
Proof.
  intros H. unfold date_plus_scaled.
  destruct (1024 <=? e) eqn:E1; [apply Z.leb_le in E1; lia|].
  destruct (0 <=? e) eqn:E; [reflexivity | apply Z.leb_gt in E; lia].
Qed.



(** What a call of [fail] that returns has done: the row of the message is
    written with the status and the time computed from the object, and on a
    sequential subscription the gate is opened. *)
Lemma fail_Ok db this error now db' this' :
  fail db this error now = Ok (db', this') ->
  exists av,
    date_param (retry_available_at this now) = Ok av
    /\ db' =
       match consumptionMode (subscription this) with
       | sequential =>
           update_processing
             (update_own_row db this
                (set_outcome
                   (if attempts this >=? maxAttempts (subscription this)
                    then failed else waiting) av (stack error)))
             (id (subscription this)) false
       | parallel =>
           update_own_row db this
             (set_outcome
                (if attempts this >=? maxAttempts (subscription this)
                 then failed else waiting) av (stack error))
       end
    /\ this' =
       handle_set_outcome
         (if attempts this >=? maxAttempts (subscription this)
          then failed else waiting) av (stack error) this.
Proof.
  unfold fail, failMessage.
  destruct (date_param (retry_available_at this now)) as [av|e];
    [|destruct (consumptionMode (subscription this)); discriminate].
  intros H. exists av. split; [reflexivity|].
  destruct (consumptionMode (subscription this));
    injection H as <- <-; split; reflexivity.
Qed.

(** [fail] returns whenever the retry time is a valid Date or is not
    needed. *)
Lemma fail_returns db this error now av :
  date_param (retry_available_at this now) = Ok av ->
  exists db',
    fail db this error now
    = Ok (db', handle_set_outcome
                 (if attempts this >=? maxAttempts (subscription this)
                  then failed else waiting) av (stack error) this).
Proof.
  intros H. unfold fail, failMessage. rewrite H.
  destruct (consumptionMode (subscription this)); eexists; reflexivity.
Qed.


(** On the last attempt no retry time is computed. *)
Lemma retry_available_at_last this now :
  maxAttempts (subscription this) <= attempts this ->
  retry_available_at this now = None.
Proof.
  intros H. unfold retry_available_at.
  destruct (attempts this <? maxAttempts (subscription this)) eqn:E;
    [apply Z.ltb_lt in E; lia | reflexivity].
Qed.


(** Beyond the range of [Date] the retry time is an invalid Date and
    [fail] throws. *)
Lemma fail_out_of_range db this error now t :
  attempts this < maxAttempts (subscription this) ->
  (retryStrategy (subscription this) = linear
   /\ t = now + retryDelay (subscription this))
  \/ (retryStrategy (subscription this) = exponential
      /\ 1 <= attempts this <= 1024
      /\ t = now + retryDelay (subscription this)
                   * 2 ^ (attempts this - 1)) ->
  max_time_value < Z.abs t ->
  fail db this error now = Err RangeError.
Proof.
  intros Hlt Ht Hrange.
  assert (Hd : retry_available_at this now = Some InvalidDate).
  { unfold retry_available_at.
    replace (attempts this <? maxAttempts (subscription this)) with true
      by (symmetry; now apply Z.ltb_lt).
    destruct Ht as [[-> ->] | [-> [Hatt ->]]]; f_equal.
    - now apply new_Date_invalid.
    - rewrite date_plus_scaled_nonneg by lia. now apply new_Date_invalid. }
  unfold fail, failMessage. rewrite Hd. simpl.
  now destruct (consumptionMode (subscription this)).
Qed.





(** ** Stale detector (C8) *)

Lemma stale_db_rows db timeout now :
  subscription_messages (stale_db db timeout now) =
  update_where (is_stale (now - timeout)) reset_row
               (subscription_messages db).
Proof.
  unfold stale_db, resetStaleMessages.
  destruct (filter _ _); reflexivity.
Qed.

Lemma stale_events_eq db timeout now :
  stale_events db timeout now =
  map (fun r => mkStale (sm_message_id r) (sm_subscription_id r))
      (filter (is_stale (now - timeout)) (subscription_messages db)).
Proof.
  unfold stale_events, resetStaleMessages.
  destruct (filter _ _); reflexivity.
Qed.

Lemma stale_db_subscriptions db timeout now :
  subscriptions (stale_db db timeout now) =
  update_where
    (fun s => any_eq (s_id s)
                (map sm_subscription_id
                   (filter (is_stale (now - timeout))
                           (subscription_messages db))))
    (set_processing false) (subscriptions db).
Proof.
  unfold stale_db, resetStaleMessages.
  destruct (filter _ _) as [|r rows] eqn:E.
  - simpl. unfold update_where. rewrite <- (map_id (subscriptions db)) at 1.
    reflexivity.
  - cbn [fst snd subscriptions set_subscriptions set_subscription_messages].
    unfold update_where. apply map_ext. intros s.
    assert (H : any_eq (s_id s)
                  (nodup Nat.eq_dec (map sm_subscription_id (r :: rows))) =
                any_eq (s_id s) (map sm_subscription_id (r :: rows))).
    { apply eq_true_iff_eq. rewrite !any_eq_In. apply nodup_In. }
    now rewrite H.
Qed.

Lemma is_stale_true staleAt r :
  is_stale staleAt r = true <->
  sm_status r = processing /\
  exists hb, sm_last_heartbeat_at r = Some hb /\ hb <= staleAt.
Proof.
  unfold is_stale, null_leb. rewrite andb_true_iff, status_eqb_eq.
  destruct (sm_last_heartbeat_at r) as [hb|].
  - rewrite Z.leb_le. split.
    + intros [H1 H2]. split; [assumption|]. now exists hb.
    + intros [H1 [hb' [E H2]]]. injection E as ->. now split.
  - split; [intros [_ H]; discriminate | intros [_ [hb [E _]]]; discriminate].
Qed.

Lemma find_sm_stale_db db timeout now sid mid :
  find_sm (stale_db db timeout now) sid mid =
  option_map (fun r => if is_stale (now - timeout) r then reset_row r else r)
             (find_sm db sid mid).
Proof.
  unfold find_sm. rewrite stale_db_rows.
  apply find_update_where. reflexivity.
Qed.

(** C8. One call of [resetStaleMessages] takes every row that is
    'processing' with [last_heartbeat_at <= now - stale_timeout] to
    'waiting' when its [stale_count] is 0 and to 'failed' otherwise,
    adds one to [stale_count], clears [last_heartbeat_at], leaves its other
    columns alone, clears [processing] on that row's subscription and emits
    a 'stale' event carrying its ids; a row with a fresh (or no) heartbeat
    or another status is unchanged.  The events are as many as the rows
    taken. *)
Theorem C8_reset_stale :
  forall db timeout now sid mid r,
    find_sm db sid mid = Some r ->
    (sm_status r = processing ->
     (exists hb, sm_last_heartbeat_at r = Some hb /\ hb <= now - timeout) ->
     find_sm (stale_db db timeout now) sid mid =
       Some (mkSM sid mid
               (if sm_stale_count r =? 0 then waiting else failed)
               (sm_attempts r) (sm_available_at r) (sm_error_stack r)
               None (sm_progress r) (sm_stale_count r + 1))
     /\ (forall s, In s (subscriptions (stale_db db timeout now)) ->
                   s_id s = sid -> s_processing s = false)
     /\ In (mkStale mid sid) (stale_events db timeout now))
    /\ ((sm_status r <> processing \/
         (forall hb, sm_last_heartbeat_at r = Some hb ->
                     now - timeout < hb)) ->
        find_sm (stale_db db timeout now) sid mid = Some r)
    /\ List.length (stale_events db timeout now) =
       List.length (filter (is_stale (now - timeout))
                           (subscription_messages db)).
Proof.
  intros db timeout now sid mid r Hfind.
  destruct (find_sm_key _ _ _ _ Hfind) as [Hs Hm].
  pose proof (find_sm_In _ _ _ _ Hfind) as Hin.
  split; [|split].
  - intros Hst Hhb.
    assert (Hstale : is_stale (now - timeout) r = true)
      by (apply is_stale_true; auto).
    split; [|split].
    + rewrite find_sm_stale_db, Hfind. simpl. rewrite Hstale.
      unfold reset_row. now rewrite Hs, Hm.
    + intros s Hins Hid. rewrite stale_db_subscriptions in Hins.
      apply update_where_In in Hins. destruct Hins as [s0 [_ ->]].
      destruct (any_eq (s_id s0) _) eqn:E; [reflexivity|].
      exfalso. assert (Hany : any_eq (s_id s0)
        (map sm_subscription_id
           (filter (is_stale (now - timeout)) (subscription_messages db)))
        = true).
      { apply any_eq_In. simpl in Hid. rewrite Hid, <- Hs.
        apply in_map. apply filter_In. now split. }
      congruence.
    + rewrite stale_events_eq. apply in_map_iff. exists r.
      split; [now rewrite Hs, Hm | apply filter_In; now split].
  - intros Hfresh. rewrite find_sm_stale_db, Hfind. simpl.
    destruct (is_stale (now - timeout) r) eqn:E; [|reflexivity].
    apply is_stale_true in E. destruct E as [Hst [hb [Hhb Hle]]].
    destruct Hfresh as [Hne | Hf]; [contradiction|].
    specialize (Hf hb Hhb). lia.
  - rewrite stale_events_eq. apply length_map.
Qed.

(** ** Message writer (C6) *)

Lemma existsb_sm_key_false r table :
  existsb (sm_key_is (sm_subscription_id r) (sm_message_id r)) table = false
  <-> ~ In (sm_key r) (map sm_key table).
Proof.
  rewrite <- not_true_iff_false, existsb_exists, in_map_iff.
  split; intros H [x Hx]; apply H; exists x.
  - destruct Hx as [E Hin]. split; [assumption|].
    apply sm_key_is_true. unfold sm_key in E. now injection E.
  - destruct Hx as [Hin E]. apply sm_key_is_true in E.
    split; [|assumption]. unfold sm_key. destruct E as [-> ->]. reflexivity.
Qed.

(** What a successful multi-row insert leaves behind: the new rows appended,
    pairwise distinct by key and distinct from the keys already there. *)
Lemma insert_subscription_messages_Ok new :
  forall table t,
    insert_subscription_messages table new = Ok t ->
    t = table ++ new
    /\ NoDup (map sm_key new)
    /\ (forall r, In r new -> ~ In (sm_key r) (map sm_key table)).
Proof.
  induction new as [|r rest IH]; intros table t H; simpl in H.
  - injection H as <-. rewrite app_nil_r. repeat split; [constructor|].
    intros r [].
  - destruct (existsb _ table) eqn:E; [discriminate|].
    apply existsb_sm_key_false in E.
    destruct (IH _ _ H) as [-> [Hnd Hfresh]].
    rewrite <- app_assoc. simpl. repeat split.
    + constructor; [|assumption]. intros Hin.
      apply in_map_iff in Hin. destruct Hin as [r' [Hk Hr']].
      apply (Hfresh r' Hr'). rewrite map_app, in_app_iff. right.
      simpl. left. now symmetry.
    + intros r' [<- | Hr']; [assumption|].
      intros Hin. apply (Hfresh r' Hr').
      rewrite map_app, in_app_iff. now left.
Qed.

Lemma insert_subscription_messages_total new :
  forall table,
    NoDup (map sm_key new) ->
    (forall r, In r new -> ~ In (sm_key r) (map sm_key table)) ->
    insert_subscription_messages table new = Ok (table ++ new).
Proof.
  induction new as [|r rest IH]; intros table Hnd Hfresh; simpl.
  - now rewrite app_nil_r.
  - assert (E : existsb (sm_key_is (sm_subscription_id r) (sm_message_id r))
                        table = false).
    { apply existsb_sm_key_false. apply Hfresh. now left. }
    rewrite E. simpl in Hnd. apply NoDup_cons_iff in Hnd.
    destruct Hnd as [Hr Hnd].
    rewrite IH; [now rewrite <- app_assoc | assumption |].
    intros r' Hr' Hin. rewrite map_app, in_app_iff in Hin.
    destruct Hin as [Hin | [Hk | []]].
    + apply (Hfresh r'); [now right | assumption].
    + apply Hr. rewrite Hk. now apply in_map.
Qed.

Lemma map_fst_combine {A B} (l : list A) :
  forall l' : list B,
    List.length l = List.length l' -> map fst (combine l l') = l.
Proof.
  induction l as [|a l IH]; intros [|b l'] H; simpl in *;
    try discriminate; [reflexivity|].
  f_equal. apply IH. now injection H.
Qed.

Lemma new_message_rows_ids g topicId data options now :
  map m_id (new_message_rows g topicId data options now) =
  v7_ids g (List.length data).
Proof.
  unfold new_message_rows. rewrite map_map. simpl.
  change (fun x : uuid * JSONValue => fst x) with (@fst uuid JSONValue).
  apply map_fst_combine. unfold v7_ids. apply length_seq.
Qed.

Lemma fan_out_rows_In db topicId ids deliver r :
  In r (fan_out_rows db topicId ids deliver) <->
  exists s m,
    In s (subscriptions db) /\ s_topic_id s = topicId
    /\ In m (messages db) /\ m_topic_id m = topicId /\ In (m_id m) ids
    /\ r = default_sm (s_id s) (m_id m) deliver.
Proof.
  unfold fan_out_rows. rewrite in_flat_map. split.
  - intros [s [Hs Hr]]. apply filter_In in Hs. destruct Hs as [Hs Ht].
    apply Nat.eqb_eq in Ht. apply in_map_iff in Hr.
    destruct Hr as [m [<- Hm]]. apply filter_In in Hm.
    destruct Hm as [Hm Hc]. apply andb_true_iff in Hc.
    destruct Hc as [Hmt Hid]. apply Nat.eqb_eq in Hmt.
    apply any_eq_In in Hid. exists s, m. repeat split; assumption.
  - intros [s [m [Hs [Ht [Hm [Hmt [Hid ->]]]]]]]. exists s. split.
    + apply filter_In. split; [assumption | now apply Nat.eqb_eq].
    + apply in_map_iff. exists m. split; [reflexivity|].
      apply filter_In. split; [assumption|].
      apply andb_true_iff. split; [now apply Nat.eqb_eq | now apply any_eq_In].
Qed.

Lemma fan_out_rows_no_ids db topicId deliver :
  fan_out_rows db topicId [] deliver = [].
Proof.
  destruct (fan_out_rows db topicId [] deliver) as [|r l] eqn:E;
    [reflexivity|].
  assert (H : In r (fan_out_rows db topicId [] deliver))
    by (rewrite E; now left).
  apply fan_out_rows_In in H.
  destruct H as [s [m [_ [_ [_ [_ [[] _]]]]]]].
Qed.

Lemma fresh_ids_spec ids table :
  existsb (fun i => existsb (fun m => Nat.eqb (m_id m) i) table) ids = false
  <-> (forall m, In m table -> ~ In (m_id m) ids).
Proof.
  rewrite <- not_true_iff_false, existsb_exists. split.
  - intros H m Hm Hin. apply H. exists (m_id m). split; [assumption|].
    apply existsb_exists. exists m. split; [assumption | apply Nat.eqb_refl].
  - intros H [i [Hi He]]. apply existsb_exists in He.
    destruct He as [m [Hm E]]. apply Nat.eqb_eq in E. subst i.
    now apply (H m).
Qed.

(** What a successful [insertMessages] did. *)
Lemma insertMessages_Ok g db topicId data options now db' rows :
  insertMessages g db topicId data options now = Ok (db', rows) ->
  rows = new_message_rows g topicId data options now
  /\ topics db' = topics db
  /\ scheduled_messages db' = scheduled_messages db
  /\ subscriptions db' = subscriptions db
  /\ messages db' = messages db ++ rows
  /\ (forall m, In m (messages db) ->
                ~ In (m_id m) (v7_ids g (List.length data)))
  /\ insert_subscription_messages (subscription_messages db)
       (fan_out_rows (set_messages db (messages db ++ rows)) topicId
          (v7_ids g (List.length data)) (effective_deliver_at options now))
     = Ok (subscription_messages db').
Proof.
  unfold insertMessages. fold (new_message_rows g topicId data options now).
  destruct (new_message_rows g topicId data options now) as [|m0 ms] eqn:Erows.
  - intros H. injection H as <- <-.
    assert (Hd : data = []).
    { pose proof (new_message_rows_ids g topicId data options now) as Hi.
      rewrite Erows in Hi. simpl in Hi. unfold v7_ids in Hi.
      destruct data; [reflexivity | discriminate]. }
    subst data. simpl. rewrite app_nil_r.
    repeat split; try reflexivity.
    + intros m _ [].
    + now rewrite fan_out_rows_no_ids.
  - destruct (negb _); [discriminate|].
    match goal with
    | |- context [existsb ?f (v7_ids ?a ?n)] =>
        destruct (existsb f (v7_ids a n)) eqn:Efresh; [discriminate|]
    end.
    destruct (insert_subscription_messages _ _) as [table|e] eqn:Eins;
      [|discriminate].
    intros H. injection H as <- <-. simpl.
    repeat split; try reflexivity.
    + now apply fresh_ids_spec.
    + exact Eins.
Qed.

(** The rows a successful [insertMessages] adds to
    [pg_transit_subscription_messages]. *)
Lemma insertMessages_fan_out g db topicId data options now db' rows :
  insertMessages g db topicId data options now = Ok (db', rows) ->
  exists new,
    subscription_messages db' = subscription_messages db ++ new
    /\ NoDup (map sm_key new)
    /\ (forall r, In r new <->
          exists s m,
            In s (subscriptions db) /\ s_topic_id s = topicId
            /\ In m rows
            /\ r = mkSM (s_id s) (m_id m) waiting 0
                        (effective_deliver_at options now)
                        None None None 0).
Proof.
  intros H. apply insertMessages_Ok in H.
  destruct H as [Hrows [_ [_ [Hsubs [Hmsgs [Hfresh Hins]]]]]].
  assert (Hids : map m_id rows = v7_ids g (List.length data))
    by (rewrite Hrows; apply new_message_rows_ids).
  apply insert_subscription_messages_Ok in Hins.
  destruct Hins as [Htable [Hnd _]].
  eexists. split; [exact Htable|]. split; [exact Hnd|].
  intros r. rewrite fan_out_rows_In. simpl. split.
  - intros [s [m [Hs [Ht [Hm [Hmt [Hid ->]]]]]]].
    exists s, m. repeat split; try assumption.
    apply in_app_or in Hm. destruct Hm as [Hold | Hnew]; [|assumption].
    exfalso. now apply (Hfresh m).
  - intros [s [m [Hs [Ht [Hm ->]]]]]. exists s, m.
    repeat split; try assumption.
    + apply in_or_app. now right.
    + rewrite Hrows in Hm. unfold new_message_rows in Hm.
      apply in_map_iff in Hm. destruct Hm as [p [<- _]]. reflexivity.
    + rewrite <- Hids. now apply in_map.
Qed.

(** C6 (as the code has it). A successful [insertMessages] computes
    [deliver_at] as the explicit [deliverAt] when given, else as
    [now + deliverInMs] when [deliverInMs] is given and is not 0, else NULL;
    it appends one message per payload, each with that [deliver_at], and
    appends to [pg_transit_subscription_messages] exactly the rows
    (subscription of the topic, new message), one per pair, each with
    [available_at = deliver_at], status 'waiting', attempts 0 and
    stale_count 0; subscriptions are left as they were. *)
Theorem C6_insert_fan_out :
  forall g db topicId data options now db' rows,
    insertMessages g db topicId data options now = Ok (db', rows) ->
    let deliver := effective_deliver_at options now in
    (forall t, deliverAt options = Some t -> deliver = Some t)
    /\ (forall ms, deliverAt options = None ->
                   deliverInMs options = Some ms -> ms <> 0 ->
                   deliver = Some (now + ms))
    /\ (deliverAt options = None ->
        deliverInMs options = None \/ deliverInMs options = Some 0 ->
        deliver = None)
    /\ messages db' = messages db ++ rows
    /\ map m_id rows = v7_ids g (List.length data)
    /\ (forall m, In m rows ->
                  m_topic_id m = topicId /\ m_deliver_at m = deliver
                  /\ m_priority m = priorityOption options)
    /\ subscriptions db' = subscriptions db
    /\ exists new,
         subscription_messages db' = subscription_messages db ++ new
         /\ NoDup (map sm_key new)
         /\ (forall r, In r new <->
               exists s m,
                 In s (subscriptions db) /\ s_topic_id s = topicId
                 /\ In m rows
                 /\ r = mkSM (s_id s) (m_id m) waiting 0 deliver
                             None None None 0).
Proof.
  intros g db topicId data options now db' rows H deliver.
  pose proof (insertMessages_fan_out _ _ _ _ _ _ _ _ H) as Hfan.
  apply insertMessages_Ok in H.
  destruct H as [Hrows [_ [_ [Hsubs [Hmsgs [Hfresh Hins]]]]]].
  assert (Hprops : forall m, In m rows ->
            m_topic_id m = topicId /\ m_deliver_at m = deliver
            /\ m_priority m = priorityOption options).
  { intros m Hm. rewrite Hrows in Hm. unfold new_message_rows in Hm.
    apply in_map_iff in Hm. destruct Hm as [p [<- _]]. now simpl. }
  assert (Hids : map m_id rows = v7_ids g (List.length data))
    by (rewrite Hrows; apply new_message_rows_ids).
  split; [|split; [|split; [|split; [|split; [|split; [|split]]]]]];
    try assumption.
  - intros t Ht. unfold deliver, effective_deliver_at. now rewrite Ht.
  - intros ms Ht Hms Hnz. unfold deliver, effective_deliver_at.
    rewrite Ht, Hms. destruct (ms =? 0) eqn:E; [|reflexivity].
    apply Z.eqb_eq in E. contradiction.
  - intros Ht Hms. unfold deliver, effective_deliver_at. rewrite Ht.
    destruct Hms as [-> | ->]; reflexivity.
Qed.

(** C6, the sentence as written fails when [deliverInMs] is 0: the message
    is stored with [deliver_at = NULL], not [now + 0]. *)
Lemma C6_deliver_in_zero_counterexample :
  ~ (forall g db topicId data options now db' rows,
       insertMessages g db topicId data options now = Ok (db', rows) ->
       forall m, In m rows -> m_deliver_at m = spec_deliver_at options now).
Proof.
  intros H.
  specialize (H 10%nat
                (mkDB [mkTopic 1%nat "orders"] [] [] [] [])
                1%nat [JText "a"] (mkMessageOptions (Some 0) None None)
                1000 _ _ eq_refl
                (mkMessage 10%nat 1%nat (JText "a") 1000 None None)
                (or_introl eq_refl)).
  discriminate H.
Qed.

(** ** ORDER BY *)

Lemma insert_sorted_perm {A} (leb : A -> A -> bool) x l :
  Permutation (insert_sorted leb x l) (x :: l).
Proof.
  induction l as [|y l IH]; simpl; [apply Permutation_refl|].
  destruct (leb x y); [apply Permutation_refl|].
  eapply perm_trans; [apply perm_skip, IH | apply perm_swap].
Qed.

Lemma order_by_perm {A} (leb : A -> A -> bool) l :
  Permutation (order_by leb l) l.
Proof.
  induction l as [|x l IH]; simpl; [constructor|].
  eapply perm_trans; [apply insert_sorted_perm | now apply perm_skip].
Qed.

Lemma order_by_In {A} (leb : A -> A -> bool) l x :
  In x (order_by leb l) <-> In x l.
Proof.
  split; apply Permutation_in;
    [apply order_by_perm | apply Permutation_sym, order_by_perm].
Qed.

Lemma order_by_length {A} (leb : A -> A -> bool) l :
  List.length (order_by leb l) = List.length l.
Proof. apply Permutation_length, order_by_perm. Qed.

Lemma candidates_In db sid now j :
  In j (candidates db sid now) <->
  exists r, In r (subscription_messages db)
            /\ is_candidate sid now r = true
            /\ j = left_join_message db r.
Proof.
  unfold candidates. rewrite order_by_In, in_map_iff. split.
  - intros [r [<- Hr]]. apply filter_In in Hr. exists r. tauto.
  - intros [r [Hin [Hc ->]]]. exists r. split; [reflexivity|].
    now apply filter_In.
Qed.

(** ** Subscribing (C9, C10) *)

(** What [subscribe] does when the (topic, name) pair is free. *)
Lemma subscribe_created g db topic n options db' this errs :
  name_taken db topic n = false ->
  subscribe g db topic n options = Ok (db', this, errs) ->
  id this = g /\ errs = []
  /\ startPosition this = or_default (o_startPosition options) latest
  /\ consumptionMode this = or_default (o_consumptionMode options) sequential
  /\ messages db' = messages db
  /\ subscriptions db' =
     subscriptions db ++
       [mkSubscriptionRow g (topicId topic) n false
          (or_default (o_consumptionMode options) sequential)
          (or_default (o_startPosition options) latest)
          (or_default (o_maxAttempts options) 1)
          (or_default (o_retryStrategy options) linear)
          (or_default (o_retryDelayInMs options) 0)]
  /\ subscription_messages db' =
     subscription_messages db ++
       match or_default (o_startPosition options) latest with
       | earliest =>
           map (fun m => default_sm g (m_id m) None)
               (filter (fun m => Nat.eqb (m_topic_id m) (topicId topic))
                       (messages db))
       | latest => []
       end.
Proof.
  unfold name_taken, subscribe. intros Hfree. rewrite Hfree.
  destruct (existsb (fun s => Nat.eqb (s_id s) g) _); [discriminate|].
  destruct (negb _); [discriminate|].
  destruct (or_default (o_startPosition options) latest) eqn:Epos.
  - destruct (insert_subscription_messages _ _) as [table|e] eqn:Eins;
      [|discriminate].
    intros H. injection H as <- <- <-. simpl.
    apply insert_subscription_messages_Ok in Eins.
    destruct Eins as [-> _]. simpl. now repeat split.
  - intros H. injection H as <- <- <-. simpl.
    rewrite app_nil_r. now repeat split.
Qed.

Lemma is_candidate_default_sm sid mid now :
  is_candidate sid now (default_sm sid mid None) = true.
Proof. unfold is_candidate. simpl. now rewrite Nat.eqb_refl. Qed.

Lemma is_candidate_not_before sid now r t :
  sm_available_at r = Some t -> now < t -> is_candidate sid now r = false.
Proof.
  intros Ha Hlt. unfold is_candidate. rewrite Ha.
  assert (E : (t <=? now) = false) by (apply Z.leb_gt; lia).
  rewrite E. apply andb_false_r.
Qed.

(** C10. A subscription created with [startPosition = 'earliest'] gets one
    row per message already in the topic, each with [available_at = NULL]
    whatever the message's [deliver_at]; such a row is among the candidates
    of the reservation query at any time [now], also before [deliver_at],
    and the new subscription's gate is open.  The fan-out of
    [insertMessages] instead copies the effective [deliver_at] into
    [available_at]: the rows it appends are exactly one per (subscription
    of the topic, new message), each with the [deliver_at] the new messages
    are stored with, and when that is a time [t] none of them is a
    candidate of its subscription before [t], while each is from [t] on. *)
Theorem C10_earliest_backfill_ignores_deliver_at :
  (forall g db topic n options db' this errs,
      name_taken db topic n = false ->
      o_startPosition options = Some earliest ->
      subscribe g db topic n options = Ok (db', this, errs) ->
      (exists new,
          subscription_messages db' = subscription_messages db ++ new
          /\ forall r, In r new <->
               exists m, In m (messages db)
                         /\ m_topic_id m = topicId topic
                         /\ r = mkSM (id this) (m_id m) waiting 0 None
                                     None None None 0)
      /\ (forall s, In s (subscriptions db') -> s_id s = id this ->
                    s_processing s = false)
      /\ forall m now,
           In m (messages db) -> m_topic_id m = topicId topic ->
           In (m_id m) (map joined_id (candidates db' (id this) now)))
  /\ (forall g db topicId data options now db' rows,
         insertMessages g db topicId data options now = Ok (db', rows) ->
         (forall m, In m rows ->
                    m_deliver_at m = effective_deliver_at options now)
         /\ exists new,
              subscription_messages db' = subscription_messages db ++ new
              /\ NoDup (map sm_key new)
              /\ (forall r, In r new <->
                    exists s m,
                      In s (subscriptions db) /\ s_topic_id s = topicId
                      /\ In m rows
                      /\ r = mkSM (s_id s) (m_id m) waiting 0
                                  (m_deliver_at m) None None None 0)
              /\ (forall t r now',
                    effective_deliver_at options now = Some t ->
                    In r new ->
                    is_candidate (sm_subscription_id r) now' r
                    = (t <=? now'))).
Proof.
  split.
  - intros g db topic n options db' this errs Hfree Hpos Hsub.
    pose proof (subscribe_created _ _ _ _ _ _ _ _ Hfree Hsub)
      as [Hid [_ [_ [_ [Hmsgs [Hsubs Hrows]]]]]].
    rewrite Hpos in Hrows, Hsubs. simpl in Hrows, Hsubs.
    assert (Hnew : forall r,
      In r (map (fun m => default_sm g (m_id m) None)
              (filter (fun m => Nat.eqb (m_topic_id m) (topicId topic))
                      (messages db))) <->
      exists m, In m (messages db) /\ m_topic_id m = topicId topic
                /\ r = mkSM (id this) (m_id m) waiting 0 None
                            None None None 0).
    { intros r. rewrite in_map_iff, Hid. split.
      - intros [m [<- Hm]]. apply filter_In in Hm. destruct Hm as [Hm Ht].
        apply Nat.eqb_eq in Ht. now exists m.
      - intros [m [Hm [Ht ->]]]. exists m. split; [reflexivity|].
        apply filter_In. split; [assumption | now apply Nat.eqb_eq]. }
    split; [|split].
    + eexists. split; [exact Hrows | exact Hnew].
    + intros s Hs Hsid. rewrite Hsubs in Hs. apply in_app_or in Hs.
      destruct Hs as [Hs | [<- | []]]; [|reflexivity].
      exfalso. unfold subscribe in Hsub. fold (name_taken db topic n) in Hsub.
      rewrite Hfree in Hsub.
      destruct (existsb (fun s => Nat.eqb (s_id s) g) (subscriptions db))
        eqn:E; [discriminate|].
      apply not_true_iff_false in E. apply E. apply existsb_exists.
      exists s. split; [assumption|]. apply Nat.eqb_eq. congruence.
    + intros m now Hm Ht. apply in_map_iff.
      exists (left_join_message db' (default_sm (id this) (m_id m) None)).
      split; [reflexivity|]. apply candidates_In.
      exists (default_sm (id this) (m_id m) None).
      split; [|split; [apply is_candidate_default_sm | reflexivity]].
      rewrite Hrows. apply in_or_app. right. apply Hnew. now exists m.
  - intros g db topicId0 data0 options now db' rows Hins.
    destruct (insertMessages_fan_out _ _ _ _ _ _ _ _ Hins)
      as [new [Hrows [Hnd Hnew]]].
    assert (Hdel : forall m, In m rows ->
              m_deliver_at m = effective_deliver_at options now).
    { apply insertMessages_Ok in Hins. destruct Hins as [-> _].
      intros m Hm. unfold new_message_rows in Hm.
      apply in_map_iff in Hm. now destruct Hm as [p [<- _]]. }
    split; [exact Hdel|].
    exists new. split; [assumption|]. split; [assumption|]. split.
    + intros r. rewrite Hnew. split.
      * intros [s [m [Hs [Ht [Hm ->]]]]]. exists s, m.
        rewrite (Hdel m Hm). auto.
      * intros [s [m [Hs [Ht [Hm ->]]]]]. exists s, m.
        rewrite (Hdel m Hm). auto.
    + intros t r now' Ht Hr.
      apply Hnew in Hr. destruct Hr as [s [m [_ [_ [_ ->]]]]].
      unfold is_candidate. simpl. rewrite Nat.eqb_refl, Ht. reflexivity.
Qed.

Lemma mode_eqb_refl a : mode_eqb a a = true.
Proof. now destruct a. Qed.

Lemma position_eqb_refl a : position_eqb a a = true.
Proof. now destruct a. Qed.

Lemma strategy_eqb_refl a : strategy_eqb a a = true.
Proof. now destruct a. Qed.

Lemma find_app_none {A} (f : A -> bool) l l' :
  (forall x, In x l -> f x = false) -> find f (l ++ l') = find f l'.
Proof.
  induction l as [|a l IH]; intros H; simpl; [reflexivity|].
  rewrite (H a) by now left. apply IH. intros x Hx. apply H. now right.
Qed.

(** When no subscription of another topic carries the name, subscribing
    again with the same options returns the same object and leaves the
    database as it is. *)
Lemma resubscribe_unique_name g g' db topic n options db1 this1 errs1 :
  (forall s, In s (subscriptions db) -> s_name s = n ->
             s_topic_id s = topicId topic) ->
  subscribe g db topic n options = Ok (db1, this1, errs1) ->
  subscribe g' db1 topic n options = Ok (db1, this1, errs1).
Proof.
  intros Huniq H1.
  destruct (name_taken db topic n) eqn:Etaken.
  - (* the first call already found the row *)
    unfold subscribe in H1 |- *. fold (name_taken db topic n) in H1.
    rewrite Etaken in H1.
    destruct (find _ (subscriptions db)) as [existingSub|] eqn:Ef;
      [|discriminate].
    injection H1 as <- <- <-.
    fold (name_taken db topic n). now rewrite Etaken, Ef.
  - assert (Hnone : forall s, In s (subscriptions db) ->
                      String.eqb (s_name s) n = false).
    { intros s Hs. destruct (String.eqb (s_name s) n) eqn:E; [|reflexivity].
      apply String.eqb_eq in E.
      apply not_true_iff_false in Etaken. exfalso. apply Etaken.
      unfold name_taken. apply existsb_exists. exists s.
      split; [assumption|]. apply andb_true_iff. split.
      - apply Nat.eqb_eq. now apply Huniq.
      - now apply String.eqb_eq. }
    pose proof (subscribe_created _ _ _ _ _ _ _ _ Etaken H1)
      as [_ [_ [_ [_ [_ [Hsubs _]]]]]].
    unfold subscribe in H1. fold (name_taken db topic n) in H1.
    rewrite Etaken in H1.
    destruct (existsb (fun s => Nat.eqb (s_id s) g) _); [discriminate|].
    destruct (negb _); [discriminate|].
    assert (Hthis : this1 =
      mkSubscription g n (or_default (o_consumptionMode options) sequential)
        (or_default (o_startPosition options) latest)
        (or_default (o_maxAttempts options) 1)
        (or_default (o_retryStrategy options) linear)
        (or_default (o_retryDelayInMs options) 0) /\ errs1 = []).
    { destruct (or_default (o_startPosition options) latest);
        [destruct (insert_subscription_messages _ _); [|discriminate]|];
        injection H1 as <- <- <-; now split. }
    destruct Hthis as [-> ->]. clear H1.
    unfold subscribe. fold (name_taken db1 topic n).
    assert (Etaken1 : name_taken db1 topic n = true).
    { unfold name_taken. rewrite Hsubs, existsb_app. apply orb_true_iff.
      right. simpl. now rewrite Nat.eqb_refl, String.eqb_refl. }
    rewrite Etaken1, Hsubs, find_app_none by assumption.
    simpl. rewrite String.eqb_refl. unfold mismatched_options. simpl.
    now rewrite mode_eqb_refl, position_eqb_refl, strategy_eqb_refl,
      !Z.eqb_refl.
Qed.

(** The existing-row lookup of [subscribe] selects by name alone, so two
    topics that each have a subscription of that name get the same row
    back, whichever the database returns first. *)
Lemma resubscribe_same_row g g' db topicA topicB n options dbA dbB a b ea eb :
  name_taken db topicA n = true ->
  name_taken db topicB n = true ->
  subscribe g db topicA n options = Ok (dbA, a, ea) ->
  subscribe g' db topicB n options = Ok (dbB, b, eb) ->
  a = b.
Proof.
  unfold subscribe. fold (name_taken db topicA n) (name_taken db topicB n).
  intros -> ->. destruct (find _ _); [|discriminate].
  intros H1 H2. injection H1 as <- <- <-. now injection H2 as <- <- <-.
Qed.

(** C9 (where the code departs from it). Topics "orders" and "payments"
    each have a subscription named "logger" (ids 10 and 11).  Subscribing
    to "logger" on "payments" a second time, with the same options, returns
    id 10, the subscription of "orders", not id 11 which the first call on
    "payments" had returned; the database is left unchanged.  Were the two
    rows stored in the other order, the second call on "orders" would get
    id 11, the subscription of "payments". *)
Theorem C9_resubscribe_returns_other_topics_row :
  exists first second other,
    subscribe 11%nat
      (mkDB (topics two_topics) [] []
            [mkSubscriptionRow 10%nat 1%nat "logger" false sequential latest
                               1 linear 0] [])
      topic_payments "logger" default_options
    = Ok (two_loggers, first, [])
    /\ subscribe 12%nat two_loggers topic_payments "logger" default_options
       = Ok (two_loggers, second, [])
    /\ id first = 11%nat /\ id second = 10%nat
    /\ option_map s_topic_id (find_subscription two_loggers (id second))
       = Some (topicId topic_orders)
    /\ subscribe 12%nat two_loggers_swapped topic_orders "logger"
                 default_options
       = Ok (two_loggers_swapped, other, [])
    /\ id other = 11%nat
    /\ option_map s_topic_id (find_subscription two_loggers_swapped (id other))
       = Some (topicId topic_payments).
Proof.
  do 3 eexists. split; [reflexivity|]. split; [reflexivity|].
  split; [reflexivity|]. split; [reflexivity|]. split; [reflexivity|].
  split; [reflexivity|]. split; reflexivity.
Qed.

(** ** Sortedness of ORDER BY *)

Section OrderBy.
Context {A : Type}.
Variable leb : A -> A -> bool.
Hypothesis leb_total : forall a b, leb a b = true \/ leb b a = true.
Hypothesis leb_trans :
  forall a b c, leb a b = true -> leb b c = true -> leb a c = true.

Let R (a b : A) : Prop := leb a b = true.

Lemma insert_sorted_HdRel x y l :
  R y x -> HdRel R y l -> HdRel R y (insert_sorted leb x l).
Proof.
  intros Hyx Hhd. destruct l as [|z l]; simpl.
  - now constructor.
  - destruct (leb x z); constructor; [assumption|].
    now inversion Hhd.
Qed.

Lemma insert_sorted_Sorted x l :
  Sorted R l -> Sorted R (insert_sorted leb x l).
Proof.
  induction 1 as [|y l Hs IH Hhd]; simpl.
  - repeat constructor.
  - destruct (leb x y) eqn:E.
    + constructor; [now constructor|]. now constructor.
    + constructor; [assumption|].
      apply insert_sorted_HdRel; [|assumption].
      destruct (leb_total x y) as [H|H]; [congruence | exact H].
Qed.

Lemma order_by_Sorted l : Sorted R (order_by leb l).
Proof.
  induction l as [|x l IH]; simpl; [constructor|].
  now apply insert_sorted_Sorted.
Qed.

Lemma order_by_StronglySorted l : StronglySorted R (order_by leb l).
Proof.
  apply Sorted_StronglySorted; [|apply order_by_Sorted].
  intros a b c. apply leb_trans.
Qed.

(** The first row of an ordered result is below every row. *)
Lemma order_by_hd_least l e :
  hd_error (order_by leb l) = Some e -> forall x, In x l -> leb e x = true.
Proof.
  intros Hhd x Hx.
  pose proof (order_by_StronglySorted l) as Hs.
  apply (order_by_In leb) in Hx.
  destruct (order_by leb l) as [|y rest]; [discriminate|].
  simpl in Hhd. injection Hhd as ->.
  destruct Hx as [-> | Hx].
  - destruct (leb_total x x); assumption.
  - apply StronglySorted_inv in Hs. destruct Hs as [_ Hall].
    rewrite Forall_forall in Hall. now apply Hall.
Qed.

End OrderBy.

(** In a sorted list every row before position [k] is related to the row
    at [k]. *)
Lemma sorted_firstn_nth {A} (P : A -> A -> Prop) l :
  StronglySorted P l ->
  forall k x y, In x (firstn k l) -> nth_error l k = Some y -> P x y.
Proof.
  induction 1 as [|a l Hs IH Hall]; intros k x y Hx Hy.
  - destruct k; discriminate.
  - destruct k as [|k]; [destruct Hx|]. simpl in Hx, Hy.
    destruct Hx as [<- | Hx].
    + rewrite Forall_forall in Hall. apply Hall.
      eapply nth_error_In; eassumption.
    + eapply IH; eassumption.
Qed.

Lemma firstn_nth_distinct {A} (l : list A) :
  NoDup l ->
  forall k x y, In x (firstn k l) -> nth_error l k = Some y -> x <> y.
Proof.
  induction 1 as [|a l Hnin Hnd IH]; intros k x y Hx Hy.
  - destruct k; discriminate.
  - destruct k as [|k]; [destruct Hx|]. simpl in Hx, Hy.
    destruct Hx as [<- | Hx].
    + intros ->. apply Hnin. eapply nth_error_In; eassumption.
    + eapply IH; eassumption.
Qed.

(** ** Retention trimmer (C5) *)

Lemma nat_leb_total a b : Nat.leb a b = true \/ Nat.leb b a = true.
Proof. rewrite !Nat.leb_le. lia. Qed.

Lemma nat_leb_trans a b c :
  Nat.leb a b = true -> Nat.leb b c = true -> Nat.leb a c = true.
Proof. rewrite !Nat.leb_le. lia. Qed.

Lemma nat_geb_total a b : Nat.leb b a = true \/ Nat.leb a b = true.
Proof. rewrite !Nat.leb_le. lia. Qed.

Lemma nat_geb_trans a b c :
  Nat.leb b a = true -> Nat.leb c b = true -> Nat.leb c a = true.
Proof. rewrite !Nat.leb_le. lia. Qed.

(** Every non-completed row of a subscription of the topic lies at or
    above the earliest unprocessed message, which therefore exists. *)
Lemma earliest_unprocessed_least db this s r :
  In s (subscriptions db) -> s_topic_id s = topicId this ->
  In r (subscription_messages db) -> sm_subscription_id r = s_id s ->
  sm_status r <> completed ->
  exists e, earliest_unprocessed db this = Some e
            /\ (e <= sm_message_id r)%nat.
Proof.
  intros Hs Ht Hr Hrs Hst. unfold earliest_unprocessed.
  set (ids := map s_id (filter _ (subscriptions db))).
  assert (Hin : In (s_id s) ids).
  { apply in_map, filter_In. split; [assumption | now apply Nat.eqb_eq]. }
  destruct ids as [|i0 ids0] eqn:Eids; [destruct Hin|].
  rewrite <- Eids in *. clear Eids.
  set (l := map sm_message_id (filter _ (subscription_messages db))).
  assert (Hl : In (sm_message_id r) l).
  { apply in_map, filter_In. split; [assumption|].
    apply andb_true_iff. split.
    - apply any_eq_In. now rewrite Hrs.
    - apply negb_true_iff. now apply status_eqb_neq. }
  destruct (hd_error (order_by Nat.leb l)) as [e|] eqn:Ehd.
  - exists e. split; [reflexivity|].
    apply Nat.leb_le.
    eapply (order_by_hd_least Nat.leb nat_leb_total nat_leb_trans);
      eassumption.
  - exfalso. apply (order_by_In Nat.leb) in Hl.
    destruct (order_by Nat.leb l); [destruct Hl | discriminate].
Qed.

Lemma acknowledged_desc_In db this i :
  In i (acknowledged_desc db this) <->
  exists m, In m (messages db) /\ m_id m = i
            /\ m_topic_id m = topicId this
            /\ match earliest_unprocessed db this with
               | Some e => (i < e)%nat
               | None => True
               end.
Proof.
  unfold acknowledged_desc. rewrite order_by_In, in_map_iff. split.
  - intros [m [<- Hm]]. apply filter_In in Hm. destruct Hm as [Hm Hc].
    apply andb_true_iff in Hc. destruct Hc as [Ht He].
    apply Nat.eqb_eq in Ht. exists m. repeat split; try assumption.
    destruct (earliest_unprocessed db this); [now apply Nat.ltb_lt | exact I].
  - intros [m [Hm [<- [Ht He]]]]. exists m. split; [reflexivity|].
    apply filter_In. split; [assumption|]. apply andb_true_iff.
    split; [now apply Nat.eqb_eq|].
    destruct (earliest_unprocessed db this); [now apply Nat.ltb_lt | reflexivity].
Qed.

Lemma acknowledged_desc_NoDup db this :
  pk_messages db -> NoDup (acknowledged_desc db this).
Proof.
  intros Hpk. unfold acknowledged_desc.
  eapply Permutation_NoDup; [apply Permutation_sym, order_by_perm|].
  unfold pk_messages in Hpk. revert Hpk.
  generalize (fun m => Nat.eqb (m_topic_id m) (topicId this)
                       && match earliest_unprocessed db this with
                          | Some e => Nat.ltb (m_id m) e
                          | None => true
                          end).
  intros c. induction (messages db) as [|m l IH]; simpl; intros Hnd;
    [constructor|].
  apply NoDup_cons_iff in Hnd. destruct Hnd as [Hnin Hnd].
  destruct (c m); simpl; [|now apply IH].
  constructor; [|now apply IH].
  intros Hin. apply Hnin. apply in_map_iff in Hin.
  destruct Hin as [m' [E Hm']]. apply filter_In in Hm'.
  rewrite <- E. apply in_map. tauto.
Qed.

Lemma delete_messages_keeps db c m :
  In m (messages db) -> c m = false -> In m (messages (delete_messages db c)).
Proof.
  intros Hm Hc. unfold delete_messages. simpl. apply filter_In.
  split; [assumption | now rewrite Hc].
Qed.

Lemma delete_messages_keeps_row db c m r :
  pk_messages db ->
  In m (messages db) -> c m = false ->
  In r (subscription_messages db) -> sm_message_id r = m_id m ->
  In r (subscription_messages (delete_messages db c)).
Proof.
  intros Hpk Hm Hc Hr Hrm. unfold delete_messages. simpl.
  apply filter_In. split; [assumption|]. apply negb_true_iff.
  apply not_true_iff_false. intros Hany. apply any_eq_In in Hany.
  apply in_map_iff in Hany. destruct Hany as [m' [E Hm']].
  apply filter_In in Hm'. destruct Hm' as [Hm' Hc'].
  assert (m' = m).
  { unfold pk_messages in Hpk. rewrite Hrm in E.
    clear - Hpk Hm Hm' E. induction (messages db) as [|x l IH];
      [destruct Hm|]. simpl in Hpk. apply NoDup_cons_iff in Hpk.
    destruct Hpk as [Hnin Hnd].
    destruct Hm as [-> | Hm], Hm' as [-> | Hm']; auto.
    - exfalso. apply Hnin. rewrite <- E. now apply in_map.
    - exfalso. apply Hnin. rewrite E. now apply in_map. }
  subst m'. congruence.
Qed.

Lemma pk_messages_inj db m m' :
  pk_messages db -> In m (messages db) -> In m' (messages db) ->
  m_id m = m_id m' -> m = m'.
Proof.
  unfold pk_messages. induction (messages db) as [|x l IH];
    intros Hpk Hm Hm' E; [destruct Hm|].
  simpl in Hpk. apply NoDup_cons_iff in Hpk. destruct Hpk as [Hnin Hnd].
  destruct Hm as [-> | Hm], Hm' as [-> | Hm']; auto.
  - exfalso. apply Hnin. rewrite E. now apply in_map.
  - exfalso. apply Hnin. rewrite <- E. now apply in_map.
Qed.

Lemma earliest_unprocessed_no_subscription db this :
  (forall s, In s (subscriptions db) -> s_topic_id s <> topicId this) ->
  earliest_unprocessed db this = None.
Proof.
  intros H. unfold earliest_unprocessed.
  destruct (filter _ (subscriptions db)) as [|s l] eqn:E; [reflexivity|].
  exfalso. assert (Hs : In s (filter (fun s => Nat.eqb (s_topic_id s)
                                       (topicId this)) (subscriptions db)))
    by (rewrite E; now left).
  apply filter_In in Hs. destruct Hs as [Hs Ht]. apply Nat.eqb_eq in Ht.
  now apply (H s).
Qed.

Lemma StronglySorted_weaken {A} (P Q : A -> A -> Prop) l :
  (forall a b, P a b -> Q a b) -> StronglySorted P l -> StronglySorted Q l.
Proof.
  intros HPQ. induction 1 as [|a l Hs IH Hall]; constructor;
    [assumption|].
  eapply Forall_impl; [|exact Hall]. intros b. apply HPQ.
Qed.

Lemma firstn_incl_In {A} k (l : list A) x : In x (firstn k l) -> In x l.
Proof.
  revert l. induction k as [|k IH]; intros [|a l] Hi; simpl in Hi;
    try contradiction.
  destruct Hi as [-> | Hi]; [now left | right; now apply IH].
Qed.

(** C5. [trim()] on a topic with [max_retention = Infinity] changes nothing
    and returns 0.  With a finite [max_retention = k], on a database that
    satisfies its keys: no message that has a subscription-message row
    whose status is not 'completed' is deleted (nor is that row); the
    acknowledged messages, those of the topic with an id below the earliest
    unacknowledged one or all of the topic's messages when nothing is
    unacknowledged, as when the topic has no subscription, are ranked
    newest first and the first [k] of that ranking are kept; messages of
    other topics are kept. *)
Theorem C5_trim_retention :
  forall db this,
    (maxMessagesRetention this = None -> trim db this = (db, 0))
    /\ (forall k,
          maxMessagesRetention this = Some k ->
          pk_messages db -> fk_subscription_messages db ->
          (forall m r,
              In m (messages db) -> In r (subscription_messages db) ->
              sm_message_id r = m_id m -> sm_status r <> completed ->
              In m (messages (fst (trim db this)))
              /\ In r (subscription_messages (fst (trim db this))))
          /\ StronglySorted (fun a b => (b <= a)%nat)
                            (acknowledged_desc db this)
          /\ (forall i, In i (acknowledged_desc db this) <->
                exists m, In m (messages db) /\ m_id m = i
                          /\ m_topic_id m = topicId this
                          /\ match earliest_unprocessed db this with
                             | Some e => (i < e)%nat
                             | None => True
                             end)
          /\ ((forall s, In s (subscriptions db) ->
                         s_topic_id s <> topicId this) ->
              earliest_unprocessed db this = None)
          /\ (forall i, In i (firstn k (acknowledged_desc db this)) ->
                exists m, In m (messages (fst (trim db this)))
                          /\ m_id m = i /\ m_topic_id m = topicId this)
          /\ (forall m, In m (messages db) ->
                        m_topic_id m <> topicId this ->
                        In m (messages (fst (trim db this))))).
Proof.
  intros db this. split.
  - intros Hinf. unfold trim. now rewrite Hinf.
  - intros k Hk Hpk Hfk.
    assert (Hsorted : StronglySorted (fun a b => (b <= a)%nat)
                        (acknowledged_desc db this)).
    { unfold acknowledged_desc.
      pose proof (order_by_StronglySorted (fun a b => Nat.leb b a)
                    nat_geb_total nat_geb_trans) as H.
      eapply StronglySorted_weaken; [|apply H].
      intros a b Hab. now apply Nat.leb_le. }
    unfold trim. rewrite Hk.
    destruct (nth_error (acknowledged_desc db this) k) as [L|] eqn:EL.
    + (* the message ranked k+1 exists: delete up to it *)
      cbn [fst].
      set (c := fun m => Nat.eqb (m_topic_id m) (topicId this)
                         && Nat.leb (m_id m) L).
      assert (HL : In L (acknowledged_desc db this))
        by (eapply nth_error_In; eassumption).
      apply acknowledged_desc_In in HL.
      destruct HL as [mL [_ [_ [_ HLe]]]].
      assert (Hunack : forall m r,
                 In m (messages db) -> In r (subscription_messages db) ->
                 sm_message_id r = m_id m -> sm_status r <> completed ->
                 c m = false).
      { intros m r Hm Hr Hrm Hst. unfold c.
        destruct (Nat.eqb (m_topic_id m) (topicId this)) eqn:Et;
          [|reflexivity].
        apply Nat.eqb_eq in Et. simpl. apply Nat.leb_gt.
        destruct (Hfk r Hr) as [s [m' [Hs [Hsr [Hm' [Hmr Hst']]]]]].
        assert (m' = m) by (eapply pk_messages_inj; eauto; congruence).
        subst m'.
        destruct (earliest_unprocessed_least db this s r)
          as [e [Ee Hle]]; try assumption; try congruence.
        rewrite Ee in HLe. lia. }
      split; [|split; [|split; [|split; [|split]]]].
      * intros m r Hm Hr Hrm Hst. split.
        -- apply delete_messages_keeps; eauto.
        -- eapply delete_messages_keeps_row; eauto.
      * exact Hsorted.
      * apply acknowledged_desc_In.
      * apply earliest_unprocessed_no_subscription.
      * intros i Hi.
        assert (Hlt : (L < i)%nat).
        { pose proof (sorted_firstn_nth _ _ Hsorted k i L Hi EL) as Hle.
          pose proof (firstn_nth_distinct _ (acknowledged_desc_NoDup db this Hpk)
                        k i L Hi EL) as Hne.
          simpl in Hle. lia. }
        assert (Hin : In i (acknowledged_desc db this))
          by (eapply firstn_incl_In; eassumption).
        apply acknowledged_desc_In in Hin.
        destruct Hin as [m [Hm [Hid [Ht _]]]]. exists m.
        split; [|now split]. apply delete_messages_keeps; [assumption|].
        unfold c. rewrite Hid. apply andb_false_iff. right.
        apply Nat.leb_gt. exact Hlt.
      * intros m Hm Hne. apply delete_messages_keeps; [assumption|].
        unfold c. apply andb_false_iff. left. now apply Nat.eqb_neq.
    + (* fewer than k+1 acknowledged messages: nothing is deleted *)
      cbn [fst]. split; [|split; [|split; [|split; [|split]]]].
      * intros m r Hm Hr _ _. now split.
      * exact Hsorted.
      * apply acknowledged_desc_In.
      * apply earliest_unprocessed_no_subscription.
      * intros i Hi.
        assert (Hin : In i (acknowledged_desc db this))
          by (eapply firstn_incl_In; eassumption).
        apply acknowledged_desc_In in Hin.
        destruct Hin as [m [Hm [Hid [Ht _]]]]. now exists m.
      * intros m Hm _. exact Hm.
Qed.

(** ** Scheduler (C7) *)

Lemma insertMessages_one g db topicId d options now db1 inserted :
  insertMessages g db topicId [d] options now = Ok (db1, inserted) ->
  inserted = [mkMessage g topicId d now (effective_deliver_at options now)
                        (priorityOption options)]
  /\ messages db1 = messages db ++ inserted
  /\ scheduled_messages db1 = scheduled_messages db
  /\ subscriptions db1 = subscriptions db.
Proof.
  intros H. apply insertMessages_Ok in H.
  destruct H as [Hrows [_ [Hsched [Hsubs [Hmsgs _]]]]].
  now repeat split.
Qed.

Section SchedulerFacts.
Variable cron_next : string -> timestamp -> timestamp.

Lemma apply_updates_map rows now table :
  fold_left
    (fun tbl row =>
       update_where
         (fun r => Nat.eqb (sc_topic_id r) (sc_topic_id row)
                   && String.eqb (sc_name r) (sc_name row))
         (advance cron_next row now) tbl)
    rows table
  = map (apply_updates cron_next rows now) table.
Proof.
  revert table. induction rows as [|row rest IH]; intros table; simpl.
  - unfold apply_updates. simpl. now rewrite map_id.
  - rewrite IH. unfold update_where. rewrite map_map.
    apply map_ext. intros r. reflexivity.
Qed.

(** What a successful pass over the due rows did. *)
Lemma fire_rows_Ok rows :
  forall g db now g' db' msgs,
    fire_rows cron_next rows g db now = Ok (g', db', msgs) ->
    g' = (g + List.length rows)%nat
    /\ msgs = map (fun p => fired_message (fst p) now (snd p))
                  (combine (seq g (List.length rows)) rows)
    /\ messages db' = messages db ++ msgs
    /\ subscriptions db' = subscriptions db
    /\ scheduled_messages db' =
       map (apply_updates cron_next rows now) (scheduled_messages db).
Proof.
  induction rows as [|row rest IH]; intros g db now g' db' msgs H;
    simpl in H.
  - injection H as <- <- <-. simpl. rewrite app_nil_r, Nat.add_0_r.
    unfold apply_updates. simpl. now rewrite map_id.
  - destruct (insertMessages _ _ _ _ _ _) as [[db1 inserted]|e] eqn:Eins;
      [|discriminate].
    destruct (fire_rows _ _ _ _ _) as [[[g2 db3] more]|e] eqn:Erest;
      [|discriminate].
    injection H as <- <- <-.
    apply insertMessages_one in Eins.
    destruct Eins as [-> [Hm1 [Hs1 Hsub1]]].
    apply IH in Erest.
    destruct Erest as [-> [-> [Hm3 [Hsub3 Hs3]]]].
    cbn [scheduled_messages set_scheduled messages subscriptions] in *.
    split; [simpl; lia|]. split; [reflexivity|].
    split; [rewrite Hm3, Hm1, <- app_assoc; reflexivity|].
    split; [congruence|].
    rewrite Hs3, Hs1. unfold update_where. rewrite map_map.
    apply map_ext. intros r. reflexivity.
Qed.

Lemma sc_key_is_true k r : sc_key_is k r = true <-> sc_key r = k.
Proof.
  unfold sc_key_is, sc_key. destruct k as [t n]. simpl.
  rewrite andb_true_iff, Nat.eqb_eq, String.eqb_eq.
  split; [intros [-> ->]; reflexivity | intros E; now injection E].
Qed.



End SchedulerFacts.

Lemma NoDup_map_eq {A B} (f : A -> B) l a b :
  NoDup (map f l) -> In a l -> In b l -> f a = f b -> a = b.
Proof.
  induction l as [|x l IH]; intros Hnd Ha Hb E; [destruct Ha|].
  simpl in Hnd. apply NoDup_cons_iff in Hnd. destruct Hnd as [Hnin Hnd].
  destruct Ha as [-> | Ha], Hb as [-> | Hb]; auto.
  - exfalso. apply Hnin. rewrite E. now apply in_map.
  - exfalso. apply Hnin. rewrite <- E. now apply in_map.
Qed.

Lemma NoDup_map_filter {A B} (f : A -> B) (c : A -> bool) l :
  NoDup (map f l) -> NoDup (map f (filter c l)).
Proof.
  induction l as [|x l IH]; simpl; intros Hnd; [constructor|].
  apply NoDup_cons_iff in Hnd. destruct Hnd as [Hnin Hnd].
  destruct (c x); simpl; [|now apply IH].
  constructor; [|now apply IH].
  intros Hin. apply Hnin. apply in_map_iff in Hin.
  destruct Hin as [y [E Hy]]. apply filter_In in Hy.
  rewrite <- E. apply in_map. tauto.
Qed.

Lemma filter_key_singleton {A B} (f : A -> B) (c : A -> bool) l r :
  NoDup (map f l) -> In r l ->
  (forall x, c x = true <-> f x = f r) ->
  filter c l = [r].
Proof.
  intros Hnd Hin Hc. induction l as [|x l IH]; [destruct Hin|].
  simpl in Hnd. apply NoDup_cons_iff in Hnd. destruct Hnd as [Hnin Hnd].
  simpl. destruct Hin as [-> | Hin].
  - assert (E : c r = true) by now apply Hc. rewrite E. f_equal.
    destruct (filter c l) as [|y t] eqn:Ef; [reflexivity|].
    exfalso. assert (Hy : In y (filter c l)) by (rewrite Ef; now left).
    apply filter_In in Hy. destruct Hy as [Hy Hcy]. apply Hc in Hcy.
    apply Hnin. rewrite <- Hcy. now apply in_map.
  - destruct (c x) eqn:E; [|now apply IH].
    apply Hc in E. exfalso. apply Hnin. rewrite E. now apply in_map.
Qed.

Lemma filter_comm {A} (c d : A -> bool) l :
  filter c (filter d l) = filter d (filter c l).
Proof.
  induction l as [|x l IH]; simpl; [reflexivity|].
  destruct (c x) eqn:Ec, (d x) eqn:Ed; simpl; rewrite ?Ec, ?Ed, IH;
    reflexivity.
Qed.

Section SchedulerRun.
Variable cron_next : string -> timestamp -> timestamp.



End SchedulerRun.



Lemma filter_none {A} (c : A -> bool) l :
  (forall x, In x l -> c x = false) -> filter c l = [].
Proof.
  induction l as [|x l IH]; intros H; simpl; [reflexivity|].
  rewrite (H x) by now left. apply IH. intros y Hy. apply H. now right.
Qed.




(** ** Reservation order (C2) *)

Ltac bool_to_prop :=
  repeat rewrite ?orb_true_iff, ?andb_true_iff, ?Z.ltb_lt, ?Z.eqb_eq,
    ?Nat.leb_le in *.

Lemma order_leb_total a b : order_leb a b = true \/ order_leb b a = true.
Proof.
  unfold order_leb.
  destruct (joined_priority a) as [p|], (joined_priority b) as [q|]; simpl;
    bool_to_prop; try lia; auto.
Qed.

Lemma order_leb_trans a b c :
  order_leb a b = true -> order_leb b c = true -> order_leb a c = true.
Proof.
  unfold order_leb.
  destruct (joined_priority a) as [p|], (joined_priority b) as [q|],
    (joined_priority c) as [r|]; simpl; bool_to_prop;
    intuition (try discriminate; try lia).
Qed.

(** [order_leb] is the order the query names: smaller priority first, a
    NULL priority after every number, ties broken by the smaller id. *)
Lemma order_leb_spec a b :
  order_leb a b = true <->
  match joined_priority a, joined_priority b with
  | Some p, Some q => p < q \/ (p = q /\ (joined_id a <= joined_id b)%nat)
  | Some _, None => True
  | None, Some _ => False
  | None, None => (joined_id a <= joined_id b)%nat
  end.
Proof.
  unfold order_leb.
  destruct (joined_priority a) as [p|], (joined_priority b) as [q|]; simpl;
    bool_to_prop; intuition (try discriminate; try lia).
Qed.

Lemma candidates_sorted db sid now :
  StronglySorted (fun a b => order_leb a b = true) (candidates db sid now).
Proof.
  unfold candidates.
  apply order_by_StronglySorted; [apply order_leb_total | apply order_leb_trans].
Qed.

Lemma candidates_perm db sid now :
  Permutation (candidates db sid now)
    (map (left_join_message db)
         (filter (is_candidate sid now) (subscription_messages db))).
Proof. apply order_by_perm. Qed.

Lemma is_candidate_true sid now r :
  is_candidate sid now r = true <->
  sm_subscription_id r = sid /\ sm_status r = waiting
  /\ (sm_available_at r = None
      \/ exists t, sm_available_at r = Some t /\ t <= now).
Proof.
  unfold is_candidate. rewrite !andb_true_iff, Nat.eqb_eq, status_eqb_eq.
  destruct (sm_available_at r) as [t|].
  - rewrite Z.leb_le. split.
    + intros [[H1 H2] H3]. repeat split; try assumption. right. now exists t.
    + intros [H1 [H2 [H3 | [t' [E H3]]]]]; [discriminate|].
      injection E as ->. now repeat split.
  - split; [intros [[H1 H2] _]; auto | intros [H1 [H2 _]]; auto].
Qed.

(** The result of [getNextMessages] in terms of the ordered candidates:
    nothing when the sequential gate is closed, else their first
    [reservation_limit] rows. *)
Lemma getNextMessages_batch db this count now db' batch :
  getNextMessages db this count now = Ok (db', batch) ->
  exists k,
    batch = map (reserved_handle this now)
                (firstn k (candidates db (id this) now))
    /\ (k = 0%nat \/ k = reservation_limit this count).
Proof.
  unfold getNextMessages.
  destruct (count <=? 0); [discriminate|].
  assert (Hrb : forall db1 b1,
            reserve_batch db this count now = (db1, b1) ->
            b1 = map (reserved_handle this now)
                   (firstn (reservation_limit this count)
                           (candidates db (id this) now))).
  { intros db1 b1. unfold reserve_batch.
    destruct (firstn _ _) as [|j l]; intros H; now injection H as <- <-. }
  destruct (consumptionMode this) eqn:Emode.
  - destruct (find_subscription db (id this)) as [row|]; [|discriminate].
    destruct (s_processing row).
    + intros H. injection H as <- <-. exists 0%nat. split; [reflexivity|].
      now left.
    + intros H. injection H as H. exists (reservation_limit this count).
      split; [now apply (Hrb db') | now right].
  - intros H. injection H as H. exists (reservation_limit this count).
    split; [now apply (Hrb db') | now right].
Qed.

Section FilterOrderBy.
Context {A : Type}.
Variable leb : A -> A -> bool.
Hypothesis leb_total : forall a b, leb a b = true \/ leb b a = true.
Hypothesis leb_trans :
  forall a b c, leb a b = true -> leb b c = true -> leb a c = true.

Lemma insert_sorted_least x l :
  (forall z, In z l -> leb x z = true) -> insert_sorted leb x l = x :: l.
Proof.
  destruct l as [|y l]; intros H; simpl; [reflexivity|].
  now rewrite (H y) by now left.
Qed.

Lemma filter_insert_sorted (p : A -> bool) x l :
  StronglySorted (fun a b => leb a b = true) l ->
  filter p (insert_sorted leb x l) =
  if p x then insert_sorted leb x (filter p l) else filter p l.
Proof.
  induction 1 as [|y l Hs IH Hall]; simpl.
  - now destruct (p x).
  - destruct (leb x y) eqn:Exy; simpl.
    + destruct (p x) eqn:Epx; [|reflexivity].
      destruct (p y) eqn:Epy; simpl; [now rewrite Exy|].
      rewrite insert_sorted_least; [reflexivity|].
      intros z Hz. apply filter_In in Hz. destruct Hz as [Hz _].
      rewrite Forall_forall in Hall. eapply leb_trans; [exact Exy|].
      now apply Hall.
    + rewrite IH. destruct (p x), (p y); simpl; rewrite ?Exy; reflexivity.
Qed.

(** Filtering an ordered result is ordering the filtered rows. *)
Lemma filter_order_by (p : A -> bool) l :
  filter p (order_by leb l) = order_by leb (filter p l).
Proof.
  induction l as [|x l IH]; simpl; [reflexivity|].
  rewrite filter_insert_sorted
    by (apply order_by_StronglySorted; assumption).
  rewrite IH. now destruct (p x).
Qed.
End FilterOrderBy.

Lemma filter_not_firstn {A} (f : A -> uuid) (S : list A) :
  NoDup (map f S) ->
  forall n,
    filter (fun x => negb (any_eq (f x) (map f (firstn n S)))) S = skipn n S.
Proof.
  induction S as [|a S IH]; intros Hnd n.
  - now destruct n.
  - simpl in Hnd. apply NoDup_cons_iff in Hnd. destruct Hnd as [Hnin Hnd].
    destruct n as [|n].
    + simpl. f_equal. rewrite <- (IH Hnd 0%nat) at 2. reflexivity.
    + cbn [firstn map skipn filter].
      assert (Ea : any_eq (f a) (f a :: map f (firstn n S)) = true)
        by (apply any_eq_In; now left).
      rewrite Ea. simpl. rewrite <- (IH Hnd n).
      apply filter_ext_in. intros x Hx. f_equal.
      destruct (Nat.eqb (f x) (f a)) eqn:E; [|reflexivity].
      apply Nat.eqb_eq in E.
      exfalso. apply Hnin. rewrite <- E. now apply in_map.
Qed.

Lemma firstn_plus {A} (l : list A) n m :
  firstn (n + m) l = firstn n l ++ firstn m (skipn n l).
Proof.
  revert l. induction n as [|n IH]; intros l; simpl; [reflexivity|].
  destruct l as [|a l]; simpl; [now rewrite firstn_nil | now rewrite IH].
Qed.

Lemma update_where_never {A} (c : A -> bool) f l :
  (forall x, In x l -> c x = false) -> update_where c f l = l.
Proof.
  intros H. unfold update_where. rewrite <- (map_id l) at 2.
  apply map_ext_in. intros x Hx. now rewrite (H x Hx).
Qed.

(** The rows a reservation leaves in the table. *)
Lemma reserve_batch_rows db this count now :
  subscription_messages (fst (reserve_batch db this count now)) =
  update_where
    (fun r => Nat.eqb (sm_subscription_id r) (id this)
              && any_eq (sm_message_id r)
                   (map joined_id
                      (firstn (reservation_limit this count)
                              (candidates db (id this) now))))
    (reserve_row now) (subscription_messages db)
  /\ messages (fst (reserve_batch db this count now)) = messages db.
Proof.
  unfold reserve_batch.
  destruct (firstn _ _) as [|j l] eqn:E.
  - simpl. split; [|reflexivity]. symmetry. apply update_where_never.
    intros x _. apply andb_false_r.
  - destruct (consumptionMode this); simpl; split; reflexivity.
Qed.

Lemma reserve_batch_handles db this count now :
  snd (reserve_batch db this count now) =
  map (reserved_handle this now)
      (firstn (reservation_limit this count) (candidates db (id this) now)).
Proof.
  unfold reserve_batch. now destruct (firstn _ _).
Qed.

(** The result of [getNextMessages] with the gate named: a closed gate
    returns nothing and writes nothing, an open one reserves the first
    [reservation_limit] rows. *)
Lemma getNextMessages_gate db this count now db' batch :
  getNextMessages db this count now = Ok (db', batch) ->
  (gate_closed db this = true -> db' = db)
  /\ batch = map (reserved_handle this now)
                 (firstn (if gate_closed db this then 0%nat
                          else reservation_limit this count)
                         (candidates db (id this) now)).
Proof.
  unfold getNextMessages, gate_closed.
  destruct (count <=? 0); [discriminate|].
  destruct (consumptionMode this) eqn:Emode.
  - destruct (find_subscription db (id this)) as [row|]; [|discriminate].
    destruct (s_processing row).
    + intros H. injection H as <- <-. split; reflexivity.
    + intros H. injection H as H. split; [discriminate|].
      rewrite <- (reserve_batch_handles db this count now). now rewrite H.
  - intros H. injection H as H. split; [discriminate|].
    rewrite <- (reserve_batch_handles db this count now). now rewrite H.
Qed.

Lemma candidate_rows_after_reserve db sid ids now t l :
  map (left_join_message db)
      (filter (is_candidate sid t)
         (update_where
            (fun r => Nat.eqb (sm_subscription_id r) sid
                      && any_eq (sm_message_id r) ids)
            (reserve_row now) l))
  = filter (fun j => negb (any_eq (joined_id j) ids))
           (map (left_join_message db) (filter (is_candidate sid t) l)).
Proof.
  induction l as [|r l IH]; [reflexivity|].
  cbn [update_where map filter].
  destruct (Nat.eqb (sm_subscription_id r) sid
            && any_eq (sm_message_id r) ids) eqn:Ec.
  - (* the row was reserved: it is no candidate any more *)
    apply andb_true_iff in Ec. destruct Ec as [Es Eany].
    assert (E1 : is_candidate sid t (reserve_row now r) = false).
    { unfold is_candidate. simpl. now rewrite andb_false_r. }
    rewrite E1. fold (update_where
            (fun r => Nat.eqb (sm_subscription_id r) sid
                      && any_eq (sm_message_id r) ids)
            (reserve_row now) l). rewrite IH.
    destruct (is_candidate sid t r); [|reflexivity].
    cbn [map filter].
    change (joined_id (left_join_message db r)) with (sm_message_id r).
    now rewrite Eany.
  - fold (update_where
            (fun r => Nat.eqb (sm_subscription_id r) sid
                      && any_eq (sm_message_id r) ids)
            (reserve_row now) l).
    destruct (is_candidate sid t r) eqn:Ecand; [|exact IH].
    cbn [map filter].
    change (joined_id (left_join_message db r)) with (sm_message_id r).
    assert (Eany : any_eq (sm_message_id r) ids = false).
    { apply is_candidate_true in Ecand. destruct Ecand as [Es _].
      apply Nat.eqb_eq in Es. now rewrite Es in Ec. }
    rewrite Eany. cbn [negb]. now rewrite IH.
Qed.

(** After a reservation the candidates are the former ones without the
    reserved rows. *)
Lemma candidates_after_reserve db this count now t :
  candidates (fst (reserve_batch db this count now)) (id this) t =
  filter
    (fun j => negb (any_eq (joined_id j)
                      (map joined_id
                         (firstn (reservation_limit this count)
                                 (candidates db (id this) now)))))
    (candidates db (id this) t).
Proof.
  destruct (reserve_batch_rows db this count now) as [Hrows Hmsgs].
  unfold candidates at 1 3.
  rewrite (filter_order_by _ order_leb_total order_leb_trans).
  f_equal. rewrite Hrows.
  rewrite <- (candidate_rows_after_reserve db (id this) _ now t).
  apply map_ext. intros r. unfold left_join_message, find_message.
  now rewrite Hmsgs.
Qed.

Lemma candidates_ids_NoDup db sid now :
  pk_subscription_messages db ->
  NoDup (map joined_id (candidates db sid now)).
Proof.
  intros Hpk.
  eapply Permutation_NoDup.
  { apply Permutation_map, Permutation_sym, candidates_perm. }
  rewrite map_map. unfold joined_id. simpl.
  unfold pk_subscription_messages in Hpk.
  induction (subscription_messages db) as [|r l IH]; simpl; [constructor|].
  simpl in Hpk. apply NoDup_cons_iff in Hpk. destruct Hpk as [Hnin Hnd].
  destruct (is_candidate sid now r) eqn:Ec; [|now apply IH].
  simpl. constructor; [|now apply IH].
  intros Hin. apply Hnin. apply in_map_iff in Hin.
  destruct Hin as [r' [E Hr']]. apply filter_In in Hr'.
  destruct Hr' as [Hr' Hc']. apply in_map_iff. exists r'.
  split; [|assumption]. unfold sm_key.
  apply is_candidate_true in Ec. apply is_candidate_true in Hc'.
  destruct Ec as [-> _], Hc' as [-> _]. now rewrite E.
Qed.

Lemma candidates_no_delays db sid t t' :
  no_delays db sid -> candidates db sid t = candidates db sid t'.
Proof.
  intros Hnd. unfold candidates. do 2 f_equal.
  apply filter_ext_in. intros r Hr. unfold is_candidate.
  destruct (Nat.eqb (sm_subscription_id r) sid) eqn:Es; [|reflexivity].
  destruct (status_eqb (sm_status r) waiting) eqn:Est; [|reflexivity].
  apply Nat.eqb_eq in Es. apply status_eqb_eq in Est.
  now rewrite (Hnd r Hr Es Est).
Qed.

Lemma reserve_batch_keeps_pk db this count now :
  pk_subscription_messages db ->
  pk_subscription_messages (fst (reserve_batch db this count now)).
Proof.
  unfold pk_subscription_messages.
  destruct (reserve_batch_rows db this count now) as [-> _].
  unfold update_where. rewrite map_map. intros H.
  erewrite map_ext; [exact H|]. intros r. simpl.
  now destruct (_ && _).
Qed.

Lemma reserve_batch_keeps_no_delays db this count now :
  no_delays db (id this) ->
  no_delays (fst (reserve_batch db this count now)) (id this).
Proof.
  unfold no_delays.
  destruct (reserve_batch_rows db this count now) as [-> _].
  intros H r Hr Hs Hst. apply update_where_In in Hr.
  destruct Hr as [r0 [Hr0 ->]].
  destruct (_ && _); [discriminate Hst|]. now apply H.
Qed.

(** Successive reservations of a parallel subscription without delays hand
    the rows out in the order of the query. *)
Lemma reserveInOrder_sorted this requests :
  consumptionMode this = parallel ->
  (forall q, In q requests -> 0 < fst q) ->
  forall db,
    pk_subscription_messages db -> no_delays db (id this) ->
    exists db' out,
      reserveInOrder db this requests = Ok (db', out)
      /\ forall t,
           map msg_id out =
           firstn (requested requests)
                  (map joined_id (candidates db (id this) t)).
Proof.
  intros Hmode. induction requests as [|[count now] rest IH];
    intros Hpos db Hpk Hnd.
  - exists db, []. split; reflexivity.
  - assert (Hc : 0 < count) by (apply (Hpos (count, now)); now left).
    assert (Hget : getNextMessages db this count now =
                   Ok (reserve_batch db this count now)).
    { unfold getNextMessages. rewrite Hmode.
      destruct (count <=? 0) eqn:E; [apply Z.leb_le in E; lia | reflexivity]. }
    destruct (IH (fun q Hq => Hpos q (or_intror Hq))
                 (fst (reserve_batch db this count now))
                 (reserve_batch_keeps_pk _ _ _ _ Hpk)
                 (reserve_batch_keeps_no_delays _ _ _ _ Hnd))
      as [db' [more [Hrest Hmore]]].
    exists db', (snd (reserve_batch db this count now) ++ more).
    split.
    + simpl. rewrite Hget.
      destruct (reserve_batch db this count now) as [db1 batch]. simpl in *.
      now rewrite Hrest.
    + intros t. rewrite map_app, (Hmore t), reserve_batch_handles.
      rewrite candidates_after_reserve.
      rewrite (candidates_no_delays db (id this) now t Hnd).
      rewrite filter_not_firstn by now apply candidates_ids_NoDup.
      assert (Hlim : reservation_limit this count = Z.to_nat count)
        by (unfold reservation_limit; now rewrite Hmode).
      rewrite Hlim. simpl. rewrite firstn_plus, map_map.
      rewrite skipn_map, !firstn_map. reflexivity.
Qed.

(** C2. For every subscription and every call [getNextMessages(count)] at
    time [now]: the candidate rows are exactly the rows of the subscription
    with status 'waiting' and [available_at] NULL or [<= now], each once,
    ordered by message priority ascending with NULLs last and then by
    message id ascending; the call returns for a positive [count] (on a
    sequential subscription, when its row is stored), and the returned
    batch is a prefix of that ordered list: the empty one when the
    sequential gate is closed, else its first [LIMIT] rows, [LIMIT] being 1
    in sequential mode and [count] in parallel mode; so it is of length at
    most 1 in sequential mode and at most [count] in parallel mode.
    Hence, for a parallel subscription whose waiting rows carry no
    [available_at] (no delays, no retries), the messages returned by
    successive reservations, taken in call order, are the first rows of
    that sort order. *)
Theorem C2_reservation_order :
  forall db this count now,
    (forall j, In j (candidates db (id this) now) <->
       exists r, In r (subscription_messages db)
                 /\ sm_subscription_id r = id this
                 /\ sm_status r = waiting
                 /\ (sm_available_at r = None
                     \/ exists t, sm_available_at r = Some t /\ t <= now)
                 /\ j = left_join_message db r)
    /\ Permutation (candidates db (id this) now)
         (map (left_join_message db)
              (filter (is_candidate (id this) now)
                      (subscription_messages db)))
    /\ StronglySorted
         (fun a b =>
            match joined_priority a, joined_priority b with
            | Some p, Some q =>
                p < q \/ (p = q /\ (joined_id a <= joined_id b)%nat)
            | Some _, None => True
            | None, Some _ => False
            | None, None => (joined_id a <= joined_id b)%nat
            end)
         (candidates db (id this) now)
    /\ (0 < count ->
        (consumptionMode this = sequential ->
         find_subscription db (id this) <> None) ->
        exists db' batch,
          getNextMessages db this count now = Ok (db', batch))
    /\ (forall db' batch,
          getNextMessages db this count now = Ok (db', batch) ->
          map msg_id batch =
          firstn (if gate_closed db this then 0%nat
                  else match consumptionMode this with
                       | sequential => 1%nat
                       | parallel => Z.to_nat count
                       end)
                 (map joined_id (candidates db (id this) now))
          /\ (consumptionMode this = sequential ->
              (List.length batch <= 1)%nat)
          /\ (consumptionMode this = parallel ->
              Z.of_nat (List.length batch) <= count))
    /\ (consumptionMode this = parallel ->
        forall requests,
          (forall q, In q requests -> 0 < fst q) ->
          pk_subscription_messages db -> no_delays db (id this) ->
          exists db' out,
            reserveInOrder db this requests = Ok (db', out)
            /\ forall t,
                 map msg_id out =
                 firstn (requested requests)
                        (map joined_id (candidates db (id this) t))).
Proof.
  intros db this count now.
  split; [|split; [|split; [|split; [|split]]]].
  - intros j. rewrite candidates_In. split.
    + intros [r [Hr [Hc ->]]]. apply is_candidate_true in Hc.
      exists r. tauto.
    + intros [r [Hr [Hs [Hst [Hav ->]]]]]. exists r.
      split; [assumption|]. split; [|reflexivity].
      apply is_candidate_true. tauto.
  - apply candidates_perm.
  - eapply StronglySorted_weaken; [|apply candidates_sorted].
    intros a b. apply order_leb_spec.
  - intros Hcount Hrow. unfold getNextMessages.
    destruct (count <=? 0) eqn:E; [apply Z.leb_le in E; lia|].
    assert (Hrb : exists db' batch,
              Ok (reserve_batch db this count now) = Ok (db', batch))
      by (destruct (reserve_batch db this count now) as [db1 b1]; eauto).
    destruct (consumptionMode this); [|exact Hrb].
    destruct (find_subscription db (id this)) as [row|];
      [|now destruct Hrow].
    destruct (s_processing row); [eauto | exact Hrb].
  - intros db' batch Hget.
    assert (Hcount : 0 < count).
    { unfold getNextMessages in Hget.
      destruct (count <=? 0) eqn:E; [discriminate | apply Z.leb_gt in E; lia]. }
    destruct (getNextMessages_gate _ _ _ _ _ _ Hget) as [_ Hbatch].
    fold (reservation_limit this count).
    assert (Hlen : (List.length batch
                    <= if gate_closed db this then 0
                       else reservation_limit this count)%nat).
    { rewrite Hbatch, length_map. apply firstn_le_length. }
    split; [|split].
    + rewrite Hbatch, map_map, firstn_map. reflexivity.
    + intros Hmode. unfold reservation_limit in Hlen. rewrite Hmode in Hlen.
      destruct (gate_closed db this); lia.
    + intros Hmode. unfold reservation_limit in Hlen. rewrite Hmode in Hlen.
      destruct (gate_closed db this); lia.
  - intros Hmode requests Hpos Hpk Hnd.
    now apply reserveInOrder_sorted.
Qed.

(** ** The sequential gate (C1) *)

(** The scenario database is what the API builds: subscribe "worker" on
    "orders", then send three messages in one batch. *)
Example three_waiting_built :
  exists db1,
    subscribe 10%nat (mkDB [mkTopic 1%nat "orders"] [] [] [] [])
              topic_orders "worker" default_options
    = Ok (db1, worker, [])
    /\ insertMessages 100%nat db1 1%nat [JText "a"; JText "b"; JText "c"]
                      no_options 0
       = Ok (three_waiting,
             [mkMessage 100%nat 1%nat (JText "a") 0 None None;
              mkMessage 101%nat 1%nat (JText "b") 0 None None;
              mkMessage 102%nat 1%nat (JText "c") 0 None None]).
Proof. eexists. split; reflexivity. Qed.

(** The three protocol facts the gate rests on. *)
Lemma sequential_gate_closed db this count now row :
  consumptionMode this = sequential -> 0 < count ->
  find_subscription db (id this) = Some row -> s_processing row = true ->
  getNextMessages db this count now = Ok (db, []).
Proof.
  intros Hmode Hc Hfind Hp. unfold getNextMessages.
  destruct (count <=? 0) eqn:E; [apply Z.leb_le in E; lia|].
  now rewrite Hmode, Hfind, Hp.
Qed.

Lemma sequential_reserves_one db this count now db' batch :
  consumptionMode this = sequential ->
  getNextMessages db this count now = Ok (db', batch) ->
  batch = [] /\ db' = db
  \/ (exists h, batch = [h])
     /\ forall s, In s (subscriptions db') -> s_id s = id this ->
                  s_processing s = true.
Proof.
  intros Hmode. unfold getNextMessages, reserve_batch, reservation_limit.
  destruct (count <=? 0); [discriminate|]. rewrite Hmode.
  destruct (find_subscription db (id this)) as [row|]; [|discriminate].
  destruct (s_processing row).
  - intros H. injection H as <- <-. now left.
  - destruct (candidates db (id this) now) as [|j l]; simpl.
    + intros H. injection H as <- <-. now left.
    + intros H. injection H as <- <-. right. split; [now eexists|].
      intros s Hs Hid. simpl in Hs. apply update_where_In in Hs.
      destruct Hs as [s0 [_ ->]].
      destruct (Nat.eqb (s_id s0) (id this)) eqn:E; [reflexivity|].
      apply Nat.eqb_neq in E. contradiction.
Qed.

Lemma sequential_conclusion_opens_gate db this :
  consumptionMode (subscription this) = sequential ->
  forall s, In s (subscriptions (fst (complete db this))) ->
            s_id s = id (subscription this) -> s_processing s = false.
Proof.
  intros Hmode s Hs Hid. unfold complete in Hs. rewrite Hmode in Hs.
  simpl in Hs. apply update_where_In in Hs. destruct Hs as [s0 [_ ->]].
  destruct (Nat.eqb (s_id s0) (id (subscription this))) eqn:E;
    [reflexivity|].
  apply Nat.eqb_neq in E. contradiction.
Qed.

(** C1 (where the code departs from it). Sequential subscription "worker",
    messages 100, 101, 102 waiting.  Consumer A reserves 100; its heartbeat
    lapses and the stale detector reopens 100 and the gate; consumer B
    reserves 100 again; A's handler returns and [complete] marks 100
    completed and clears the gate that B holds; consumer C reserves 101;
    B's handler returns and [complete] clears the gate that C holds; the
    next reservation takes 102 while 101 is still 'processing'. *)
Theorem C1_late_completion_reopens_gate :
  exists db1 hA db3 hB db5 hC db7 hD,
    getNextMessages three_waiting worker 1 0 = Ok (db1, [hA])
    /\ msg_id hA = 100%nat
    /\ getNextMessages (stale_db db1 60 100) worker 1 100 = Ok (db3, [hB])
    /\ msg_id hB = 100%nat
    /\ getNextMessages (fst (complete db3 hA)) worker 1 101 = Ok (db5, [hC])
    /\ msg_id hC = 101%nat
    /\ in_processing db5 10%nat = [101%nat]
    /\ getNextMessages (fst (complete db5 hB)) worker 1 102 = Ok (db7, [hD])
    /\ msg_id hD = 102%nat
    /\ in_processing db7 10%nat = [101%nat; 102%nat].
Proof.
  do 8 eexists.
  split; [vm_compute; reflexivity|]. split; [reflexivity|].
  split; [vm_compute; reflexivity|]. split; [reflexivity|].
  split; [vm_compute; reflexivity|]. split; [reflexivity|].
  split; [vm_compute; reflexivity|].
  split; [vm_compute; reflexivity|]. split; [reflexivity|].
  vm_compute. reflexivity.
Qed.

(** ** Retry accounting (C4) *)




Lemma pk_after_insert table new t :
  insert_subscription_messages table new = Ok t ->
  NoDup (map sm_key table) -> NoDup (map sm_key t).
Proof.
  intros H Hnd. apply insert_subscription_messages_Ok in H.
  destruct H as [-> [Hnew Hfresh]]. rewrite map_app.
  apply NoDup_app; try assumption.
  intros k Hk Hk'. apply in_map_iff in Hk'. destruct Hk' as [r [<- Hr]].
  now apply (Hfresh r).
Qed.

Lemma getMessages_In db this statuses h :
  In h (getMessages db this statuses) ->
  exists r,
    In r (subscription_messages db)
    /\ sm_subscription_id r = id this
    /\ (statuses = [] \/ In (sm_status r) statuses)
    /\ h = row_handle this (left_join_message db r).
Proof.
  unfold getMessages. rewrite in_map_iff. intros [j [<- Hj]].
  apply order_by_In in Hj. apply in_map_iff in Hj.
  destruct Hj as [r [<- Hr]]. apply filter_In in Hr.
  destruct Hr as [Hr Hc]. apply andb_true_iff in Hc.
  destruct Hc as [Hs Hst]. apply Nat.eqb_eq in Hs.
  exists r. repeat split; try assumption.
  destruct statuses as [|st l]; [now left|]. right.
  apply existsb_exists in Hst. destruct Hst as [x [Hx E]].
  apply status_eqb_eq in E. now rewrite E.
Qed.

(** The rows a reservation touches are candidates of the query. *)
Lemma reserved_is_candidate db sid now k r :
  pk_subscription_messages db ->
  In r (subscription_messages db) -> sm_subscription_id r = sid ->
  any_eq (sm_message_id r)
         (map joined_id (firstn k (candidates db sid now))) = true ->
  is_candidate sid now r = true.
Proof.
  intros Hpk Hr Hs Hany. apply any_eq_In in Hany.
  apply in_map_iff in Hany. destruct Hany as [j [Hid Hj]].
  apply firstn_incl_In in Hj. apply candidates_In in Hj.
  destruct Hj as [r0 [Hr0 [Hc ->]]].
  assert (r0 = r); [|now subst].
  eapply NoDup_map_eq; [exact Hpk | assumption | assumption |].
  unfold sm_key. apply is_candidate_true in Hc. destruct Hc as [Hs0 _].
  unfold joined_id, left_join_message in Hid. simpl in Hid. congruence.
Qed.






Lemma getNextMessages_db db this count now db' batch :
  getNextMessages db this count now = Ok (db', batch) ->
  db' = db \/ db' = fst (reserve_batch db this count now).
Proof.
  unfold getNextMessages. destruct (count <=? 0); [discriminate|].
  destruct (consumptionMode this).
  - destruct (find_subscription db (id this)) as [row|]; [|discriminate].
    destruct (s_processing row); intros H.
    + injection H as <- _. now left.
    + injection H as H. right. now rewrite H.
  - intros H. injection H as H. right. now rewrite H.
Qed.






Lemma subscribe_taken g db topic n options db' this errs :
  name_taken db topic n = true ->
  subscribe g db topic n options = Ok (db', this, errs) ->
  db' = db.
Proof.
  unfold subscribe. fold (name_taken db topic n). intros ->.
  destruct (find _ _); [|discriminate]. intros H. now injection H.
Qed.

Lemma subscribe_created_keys g db topic n options db' this errs :
  name_taken db topic n = false ->
  subscribe g db topic n options = Ok (db', this, errs) ->
  ~ In g (map s_id (subscriptions db))
  /\ (pk_subscription_messages db -> pk_subscription_messages db').
Proof.
  unfold subscribe. fold (name_taken db topic n). intros ->.
  destruct (existsb (fun s => Nat.eqb (s_id s) g) (subscriptions db)) eqn:Eg;
    [discriminate|].
  destruct (negb _); [discriminate|].
  assert (Hg : ~ In g (map s_id (subscriptions db))).
  { intros Hin. apply in_map_iff in Hin. destruct Hin as [s [E Hs]].
    apply not_true_iff_false in Eg. apply Eg. apply existsb_exists.
    exists s. split; [assumption | now apply Nat.eqb_eq]. }
  destruct (or_default (o_startPosition options) latest).
  - destruct (insert_subscription_messages _ _) as [table|e] eqn:Eins;
      [|discriminate].
    intros H. injection H as <- _ _. split; [assumption|].
    unfold pk_subscription_messages. simpl.
    now apply (pk_after_insert _ _ _ Eins).
  - intros H. injection H as <- _ _. now split.
Qed.







Section RunsAccounting.
Variable cron_next : string -> timestamp -> timestamp.

(** A property that the writer keeps and that does not read the schedule
    table survives a pass of the scheduler. *)
Lemma fire_rows_preserves (P : DB -> Prop) :
  (forall g db topicId data options now db' rows,
      P db -> insertMessages g db topicId data options now = Ok (db', rows) ->
      P db') ->
  (forall db l, P db -> P (set_scheduled db l)) ->
  forall rows g db now g' db' msgs,
    P db -> fire_rows cron_next rows g db now = Ok (g', db', msgs) -> P db'.
Proof.
  intros Hsend Hsched. induction rows as [|row rest IH];
    intros g db now g' db' msgs HP H; simpl in H.
  - now injection H as _ <- _.
  - destruct (insertMessages _ _ _ _ _ _) as [[db1 inserted]|e] eqn:Eins;
      [|discriminate].
    destruct (fire_rows _ _ _ _ _) as [[[g2 db3] more]|e] eqn:Erest;
      [|discriminate].
    injection H as _ <- _.
    eapply IH; [|exact Erest]. apply Hsched. eapply Hsend; eassumption.
Qed.

End RunsAccounting.

Lemma retry_row db this sid mid :
  find_sm (fst (retry db this)) sid mid =
  option_map
    (fun r => if sm_key_is (id (subscription this)) (msg_id this) r
              then set_outcome waiting None None r else r)
    (find_sm db sid mid).
Proof. unfold retry. simpl. now apply find_sm_update_own_row. Qed.


Lemma plain_run_ok (op : Op) :
  match op with OpRetry | OpResetStale => False | _ => True end ->
  plain_run op.
Proof. destruct op; intros H; try contradiction; split; discriminate. Qed.

Ltac run_step R tac :=
  let R' := fresh "R" in
  eassert (R' : reachable every_10ms _ _);
  [ eapply (reach_step every_10ms _ _ _ _ R); [|tac];
    first [exact I | now apply plain_run_ok]
  | clear R; rename R' into R ].



(** The same happens without [retry()] and without a stale reset when
    [fail] is called on an object read before the reservation: the object
    shows [attempts = 0], so the row is reopened although its one attempt
    is used up, and the next reservation makes it the second. *)
Lemma outdated_object_attempts_exceed :
  reachable every_10ms plain_run failed_late_and_reserved
  /\ In read_while_waiting
        (getMessages
           (mkDB [mkTopic 1%nat "orders"]
                 [mkMessage 100%nat 1%nat (JText "a") 0 None None] []
                 [worker_row] [default_sm 10%nat 100%nat None])
           worker [])
  /\ exists r s,
       In r (subscription_messages failed_late_and_reserved)
       /\ In s (subscriptions failed_late_and_reserved)
       /\ s_id s = sm_subscription_id r
       /\ s_max_attempts s < sm_attempts r.
Proof.
  split; [|split].
  - pose proof (reach_empty every_10ms plain_run) as R.
    run_step R
      ltac:(eapply (step_topic every_10ms 1%nat empty_db "orders"
                      (Some 0%nat));
            vm_compute; reflexivity).
    run_step R
      ltac:(eapply (step_subscribe every_10ms 10%nat _ topic_orders
                      "worker" default_options);
            [vm_compute; discriminate | vm_compute; reflexivity]).
    run_step R
      ltac:(eapply (step_send every_10ms 100%nat _ 1%nat [JText "a"]
                      no_options 0);
            vm_compute; reflexivity).
    run_step R
      ltac:(eapply (step_reserve every_10ms _ worker_row 1 0);
            [left; reflexivity | vm_compute; reflexivity]).
    run_step R
      ltac:(eapply (step_fail every_10ms _ read_while_waiting
                      (mkJsError (Some "boom"%string)) 1);
            vm_compute; reflexivity).
    run_step R
      ltac:(eapply (step_reserve every_10ms _ worker_row 1 2);
            [vm_compute; left; reflexivity | vm_compute; reflexivity]).
    exact R.
  - vm_compute. left. reflexivity.
  - do 2 eexists. split; [left; reflexivity|]. split; [left; reflexivity|].
    split; [reflexivity|]. simpl. lia.
Qed.

(** And without [retry()] when the stale detector reopens a message whose
    one attempt is used up: the next reservation makes it the second. *)
Lemma stale_reopening_attempts_exceed :
  reachable every_10ms (fun op => op <> OpRetry) reopened_and_reserved
  /\ exists r s,
       In r (subscription_messages reopened_and_reserved)
       /\ In s (subscriptions reopened_and_reserved)
       /\ s_id s = sm_subscription_id r
       /\ s_max_attempts s < sm_attempts r.
Proof.
  split.
  - pose proof (reach_empty every_10ms (fun op => op <> OpRetry)) as R.
    eapply (reach_step every_10ms _ OpTopic) in R;
      [| discriminate
       | eapply (step_topic every_10ms 1%nat empty_db "orders"
                   (Some 0%nat));
         vm_compute; reflexivity].
    eapply (reach_step every_10ms _ OpSubscribe) in R;
      [| discriminate
       | eapply (step_subscribe every_10ms 10%nat _ topic_orders "worker"
                   default_options);
         [vm_compute; discriminate | vm_compute; reflexivity]].
    eapply (reach_step every_10ms _ OpSend) in R;
      [| discriminate
       | eapply (step_send every_10ms 100%nat _ 1%nat [JText "a"]
                   no_options 0);
         vm_compute; reflexivity].
    eapply (reach_step every_10ms _ OpReserve) in R;
      [| discriminate
       | eapply (step_reserve every_10ms _ worker_row 1 0);
         [left; reflexivity | vm_compute; reflexivity]].
    eapply (reach_step every_10ms _ OpResetStale) in R;
      [| discriminate
       | eapply (step_reset_stale every_10ms _ 60 100)].
    eapply (reach_step every_10ms _ OpReserve) in R;
      [| discriminate
       | eapply (step_reserve every_10ms _ worker_row 1 101);
         [vm_compute; left; reflexivity | vm_compute; reflexivity]].
    exact R.
  - do 2 eexists. split; [left; reflexivity|]. split; [left; reflexivity|].
    split; [reflexivity|]. simpl. lia.
Qed.

(** * The schema constraints hold in every reachable database *)

Lemma fk_by_keys db :
  fk_subscription_messages db <->
  forall k, In k (map sm_key (subscription_messages db)) ->
    exists t, In (fst k, t) (sub_keys db) /\ In (snd k, t) (msg_keys db).
Proof.
  unfold fk_subscription_messages, sub_keys, msg_keys. split.
  - intros H k Hk. apply in_map_iff in Hk. destruct Hk as [r [<- Hr]].
    destruct (H r Hr) as [s [m [Hs [Hsr [Hm [Hmr Ht]]]]]].
    exists (s_topic_id s). simpl. split; apply in_map_iff.
    + exists s. split; [now rewrite Hsr | assumption].
    + exists m. split; [now rewrite Hmr, Ht | assumption].
  - intros H r Hr.
    destruct (H (sm_key r) (in_map sm_key _ _ Hr)) as [t [Hs Hm]].
    apply in_map_iff in Hs. destruct Hs as [s [Es Hs]].
    apply in_map_iff in Hm. destruct Hm as [m [Em Hm]].
    simpl in Es, Em. injection Es as Es1 Es2. injection Em as Em1 Em2.
    exists s, m. repeat split; try assumption. congruence.
Qed.

Lemma map_fst_keys {A} (f g : A -> uuid) l :
  map fst (map (fun x => (f x, g x)) l) = map f l.
Proof. rewrite map_map. reflexivity. Qed.

(** The constraints read the tables only through their keys. *)
Lemma schema_by_keys db db' :
  schema db ->
  msg_keys db' = msg_keys db ->
  sub_keys db' = sub_keys db ->
  map sm_key (subscription_messages db') =
    map sm_key (subscription_messages db) ->
  map sc_key (scheduled_messages db') = map sc_key (scheduled_messages db) ->
  schema db'.
Proof.
  intros [[S1 [S2 [S3 S4]]] S5] Hm Hs Hr Hc.
  unfold schema, schema_core, pk_messages, pk_subscription_messages in *.
  rewrite Hr, Hc. repeat split; try assumption.
  - rewrite <- (map_fst_keys m_id m_topic_id).
    fold (msg_keys db'). rewrite Hm. unfold msg_keys.
    now rewrite map_fst_keys.
  - apply fk_by_keys. rewrite Hr, Hs, Hm. now apply fk_by_keys.
  - rewrite <- (map_fst_keys s_id s_topic_id).
    fold (sub_keys db'). rewrite Hs. unfold sub_keys.
    now rewrite map_fst_keys.
Qed.

Lemma update_where_keys {A B} (k : A -> B) (c : A -> bool) f l :
  (forall r, k (f r) = k r) -> map k (update_where c f l) = map k l.
Proof.
  intros H. unfold update_where. rewrite map_map. apply map_ext.
  intros r. destruct (c r); [apply H | reflexivity].
Qed.

Lemma sub_keys_update_processing db sid b :
  sub_keys (update_processing db sid b) = sub_keys db.
Proof.
  unfold sub_keys, update_processing. simpl.
  now apply update_where_keys.
Qed.

Lemma schema_own_row db h f :
  (forall r, sm_key (f r) = sm_key r) ->
  schema db -> schema (update_own_row db h f).
Proof.
  intros Hk S. apply (schema_by_keys db); try assumption; try reflexivity.
  unfold update_own_row. simpl. now apply update_where_keys.
Qed.

Lemma schema_update_processing db sid b :
  schema db -> schema (update_processing db sid b).
Proof.
  intros S. apply (schema_by_keys db); try assumption; try reflexivity.
  apply sub_keys_update_processing.
Qed.

Lemma schema_reserve db this count now db' batch :
  schema db ->
  getNextMessages db this count now = Ok (db', batch) -> schema db'.
Proof.
  intros S Hget. apply getNextMessages_db in Hget.
  destruct Hget as [-> | ->]; [assumption|].
  destruct (reserve_batch_rows db this count now) as [Hrows Hmsgs].
  apply (schema_by_keys db); try assumption.
  - unfold msg_keys. now rewrite Hmsgs.
  - unfold reserve_batch. destruct (firstn _ _); [reflexivity|].
    destruct (consumptionMode this); simpl; [|reflexivity].
    apply (sub_keys_update_processing db (id this) true).
  - rewrite Hrows. now apply update_where_keys.
  - unfold reserve_batch. destruct (firstn _ _); [reflexivity|].
    now destruct (consumptionMode this).
Qed.

Lemma schema_complete db h : schema db -> schema (fst (complete db h)).
Proof.
  intros S. unfold complete, completeMessage.
  destruct (consumptionMode (subscription h)); simpl.
  - apply schema_update_processing. now apply schema_own_row.
  - now apply schema_own_row.
Qed.

Lemma schema_fail db h error now db' h' :
  fail db h error now = Ok (db', h') -> schema db -> schema db'.
Proof.
  intros Hfail S. destruct (fail_Ok _ _ _ _ _ _ Hfail) as [av [_ [-> _]]].
  destruct (consumptionMode (subscription h)); simpl.
  - apply schema_update_processing. now apply schema_own_row.
  - now apply schema_own_row.
Qed.

Lemma schema_stale db timeout now :
  schema db -> schema (stale_db db timeout now).
Proof.
  intros S. apply (schema_by_keys db); try assumption.
  - unfold stale_db, resetStaleMessages. now destruct (filter _ _).
  - unfold sub_keys. rewrite stale_db_subscriptions.
    now apply update_where_keys.
  - rewrite stale_db_rows. now apply update_where_keys.
  - unfold stale_db, resetStaleMessages. now destruct (filter _ _).
Qed.

Lemma schema_core_scheduled db l :
  schema_core db -> schema_core (set_scheduled db l).
Proof. now intros S. Qed.

Lemma schema_core_send g db topicId data options now db' rows :
  schema_core db ->
  insertMessages g db topicId data options now = Ok (db', rows) ->
  schema_core db'.
Proof.
  intros [S1 [S2 [S3 S4]]] H.
  pose proof (insertMessages_Ok _ _ _ _ _ _ _ _ H)
    as [Hrows [_ [_ [Hsubs [Hmsgs [Hfresh Hins]]]]]].
  assert (Hids : map m_id rows = v7_ids g (List.length data))
    by (rewrite Hrows; apply new_message_rows_ids).
  assert (Htopic : forall m, In m rows -> m_topic_id m = topicId).
  { intros m Hm. rewrite Hrows in Hm. unfold new_message_rows in Hm.
    apply in_map_iff in Hm. now destruct Hm as [p [<- _]]. }
  unfold schema_core, pk_messages, pk_subscription_messages in *.
  split; [|split; [|split]].
  - rewrite Hmsgs, map_app. apply NoDup_app; [assumption | |].
    + rewrite Hids. apply seq_NoDup.
    + intros i Hold Hnew. apply in_map_iff in Hold.
      destruct Hold as [m [<- Hm]]. apply (Hfresh m Hm). now rewrite <- Hids.
  - now apply (pk_after_insert _ _ _ Hins).
  - apply insert_subscription_messages_Ok in Hins.
    destruct Hins as [Htable _]. intros r Hr. rewrite Htable in Hr.
    apply in_app_or in Hr. destruct Hr as [Hr | Hr].
    + destruct (S3 r Hr) as [s [m [Hs [Hsr [Hm [Hmr Ht]]]]]].
      exists s, m. rewrite Hsubs, Hmsgs. repeat split; try assumption.
      apply in_or_app. now left.
    + apply fan_out_rows_In in Hr.
      destruct Hr as [s [m [Hs [Hst [Hm [Hmt [_ ->]]]]]]].
      exists s, m. rewrite Hsubs, Hmsgs. simpl in Hs, Hm.
      repeat split; try assumption. congruence.
  - now rewrite Hsubs.
Qed.

Lemma subscribe_other_tables g db topic n options db' this errs :
  subscribe g db topic n options = Ok (db', this, errs) ->
  scheduled_messages db' = scheduled_messages db
  /\ messages db' = messages db.
Proof.
  unfold subscribe. destruct (existsb _ (subscriptions db)).
  - destruct (find _ _); [|discriminate]. intros H.
    injection H as <- _ _. now split.
  - destruct (existsb _ _); [discriminate|].
    destruct (negb _); [discriminate|].
    destruct (or_default (o_startPosition options) latest).
    + destruct (insert_subscription_messages _ _); [|discriminate].
      intros H. injection H as <- _ _. now split.
    + intros H. injection H as <- _ _. now split.
Qed.

Lemma schema_subscribe g db topic n options db' this errs :
  schema db ->
  subscribe g db topic n options = Ok (db', this, errs) ->
  schema db'.
Proof.
  intros S H.
  destruct (name_taken db topic n) eqn:Etaken.
  - now rewrite (subscribe_taken _ _ _ _ _ _ _ _ Etaken H).
  - destruct S as [[S1 [S2 [S3 S4]]] S5].
    destruct (subscribe_created_keys _ _ _ _ _ _ _ _ Etaken H) as [Hg Hpk].
    destruct (subscribe_created _ _ _ _ _ _ _ _ Etaken H)
      as [_ [_ [_ [_ [Hmsgs [Hsubs Hrows]]]]]].
    destruct (subscribe_other_tables _ _ _ _ _ _ _ _ H) as [Hsched _].
    unfold schema, schema_core, pk_messages in *.
    rewrite Hsched, Hmsgs. repeat split; try assumption.
    + now apply Hpk.
    + intros r Hr. rewrite Hrows in Hr. apply in_app_or in Hr.
      destruct Hr as [Hr | Hr].
      * destruct (S3 r Hr) as [s [m [Hs [Hsr [Hm [Hmr Ht]]]]]].
        exists s, m. rewrite Hsubs, Hmsgs. repeat split; try assumption.
        apply in_or_app. now left.
      * destruct (or_default (o_startPosition options) latest);
          [|destruct Hr].
        apply in_map_iff in Hr. destruct Hr as [m [<- Hm]].
        apply filter_In in Hm. destruct Hm as [Hm Ht].
        apply Nat.eqb_eq in Ht. eexists. exists m.
        rewrite Hsubs, Hmsgs. split; [apply in_or_app; right; now left|].
        simpl. now repeat split.
    + rewrite Hsubs, map_app. simpl. apply NoDup_app; [assumption | |].
      * repeat constructor. intros [].
      * intros i Hi [<- | []]. contradiction.
Qed.

Lemma schema_delete_messages db c :
  schema db -> schema (delete_messages db c).
Proof.
  intros [[S1 [S2 [S3 S4]]] S5].
  unfold schema, schema_core, pk_messages, pk_subscription_messages in *.
  simpl. repeat split; try assumption.
  - now apply NoDup_map_filter.
  - now apply NoDup_map_filter.
  - intros r Hr. simpl in Hr. apply filter_In in Hr.
    destruct Hr as [Hr Hkeep]. apply negb_true_iff in Hkeep.
    destruct (S3 r Hr) as [s [m [Hs [Hsr [Hm [Hmr Ht]]]]]].
    exists s, m. simpl. repeat split; try assumption.
    apply filter_In. split; [assumption|]. apply negb_true_iff.
    destruct (c m) eqn:Ec; [|reflexivity]. exfalso.
    apply not_true_iff_false in Hkeep. apply Hkeep. apply any_eq_In.
    rewrite <- Hmr. apply in_map. now apply filter_In.
Qed.

Lemma schema_remove_subscription db this :
  schema db -> schema (removeSubscription db this).
Proof.
  intros [[S1 [S2 [S3 S4]]] S5].
  unfold schema, schema_core, pk_messages, pk_subscription_messages in *.
  simpl. repeat split; try assumption.
  - now apply NoDup_map_filter.
  - intros r Hr. simpl in Hr. apply filter_In in Hr.
    destruct Hr as [Hr Hkeep].
    destruct (S3 r Hr) as [s [m [Hs [Hsr [Hm [Hmr Ht]]]]]].
    exists s, m. simpl. repeat split; try assumption.
    apply filter_In. split; [assumption|]. now rewrite Hsr.
  - now apply NoDup_map_filter.
Qed.

Lemma schema_filter_scheduled db c :
  schema db ->
  schema (set_scheduled db (filter c (scheduled_messages db))).
Proof.
  intros [S S5]. split; [exact S|]. simpl. now apply NoDup_map_filter.
Qed.

Section RunsSchema.
Variable cron_next : string -> timestamp -> timestamp.

Lemma schema_schedule db this n config d options now :
  schema db -> schema (schedule cron_next db this n config d options now).
Proof.
  intros [S S5]. unfold schedule.
  destruct (existsb _ (scheduled_messages db)) eqn:E; split;
    try exact S; simpl.
  - rewrite update_where_keys; [assumption | reflexivity].
  - rewrite map_app. simpl. apply NoDup_app; [assumption | |].
    + repeat constructor. intros [].
    + intros k Hk [<- | []]. apply in_map_iff in Hk.
      destruct Hk as [r [Ek Hr]].
      apply not_true_iff_false in E. apply E. apply existsb_exists.
      exists r. split; [assumption|]. unfold sc_key in Ek.
      injection Ek as -> ->. simpl.
      now rewrite Nat.eqb_refl, String.eqb_refl.
Qed.

Lemma apply_updates_key rows now r :
  sc_key (apply_updates cron_next rows now r) = sc_key r.
Proof.
  unfold apply_updates. revert r.
  induction rows as [|row rest IH]; intros r; simpl; [reflexivity|].
  rewrite IH. now destruct (sc_key_is (sc_key row) r).
Qed.

Lemma schema_fire g db now g' db' msgs :
  schema db ->
  processScheduledMessages cron_next g db now = Ok (g', db', msgs) ->
  schema db'.
Proof.
  intros [S S5] H. unfold processScheduledMessages in H. split.
  - eapply (fire_rows_preserves cron_next schema_core);
      [| | exact S | exact H].
    + intros. eapply schema_core_send; eassumption.
    + intros. now apply schema_core_scheduled.
  - apply fire_rows_Ok in H. destruct H as [_ [_ [_ [_ ->]]]].
    rewrite map_map. erewrite map_ext; [exact S5|].
    intros r. apply apply_updates_key.
Qed.

(** Every database a run of the API reaches satisfies the schema's keys. *)
Lemma reachable_schema allowed db :
  reachable cron_next allowed db -> schema db.
Proof.
  induction 1 as [|op db db' Hreach IH _ Hstep].
  - repeat split; try constructor. intros r [].
  - destruct Hstep.
    + unfold topic_init in H. destruct (find _ _).
      * now injection H as <- _.
      * destruct (existsb _ _); [discriminate|]. injection H as <- _.
        exact IH.
    + destruct IH as [S S5]. split.
      * eapply schema_core_send; eassumption.
      * apply insertMessages_Ok in H.
        destruct H as [_ [_ [-> _]]]. exact S5.
    + eapply schema_subscribe; eassumption.
    + eapply schema_reserve; eassumption.
    + now apply schema_complete.
    + eapply schema_fail; eassumption.
    + now apply schema_own_row.
    + now apply schema_own_row.
    + now apply schema_own_row.
    + now apply schema_stale.
    + unfold trim. destruct (maxMessagesRetention topic); [|assumption].
      destruct (nth_error _ _); [|assumption].
      now apply schema_delete_messages.
    + now apply schema_schedule.
    + eapply schema_fire; eassumption.
    + now apply schema_delete_messages.
    + now apply schema_remove_subscription.
    + now apply schema_filter_scheduled.
    + unfold clear.
      apply (schema_filter_scheduled (delete_messages db _)).
      now apply schema_delete_messages.
Qed.
End RunsSchema.

(** * The operations return *)

Lemma fan_out_keys_NoDup db topicId ids deliver :
  NoDup (map s_id (subscriptions db)) -> NoDup (map m_id (messages db)) ->
  NoDup (map sm_key (fan_out_rows db topicId ids deliver)).
Proof.
  intros Hs Hm. unfold fan_out_rows.
  set (Ms := filter _ (messages db)).
  assert (HMs : NoDup (map m_id Ms)) by now apply NoDup_map_filter.
  assert (HSs : NoDup (map s_id (filter (fun s => Nat.eqb (s_topic_id s)
                                           topicId) (subscriptions db))))
    by now apply NoDup_map_filter.
  clearbody Ms. revert HSs.
  generalize (filter (fun s => Nat.eqb (s_topic_id s) topicId)
                     (subscriptions db)).
  intros Ss. induction Ss as [|s Ss IH]; intros HSs; simpl; [constructor|].
  simpl in HSs. apply NoDup_cons_iff in HSs. destruct HSs as [Hnin HSs].
  rewrite map_app. apply NoDup_app.
  - rewrite map_map. unfold sm_key. simpl.
    clear - HMs. induction Ms as [|m Ms IH]; simpl; [constructor|].
    simpl in HMs. apply NoDup_cons_iff in HMs. destruct HMs as [Hn HMs].
    constructor; [|now apply IH].
    intros Hin. apply in_map_iff in Hin. destruct Hin as [m' [E Hm']].
    injection E as E. apply Hn. rewrite <- E. now apply in_map.
  - now apply IH.
  - intros k Hk Hk'. apply in_map_iff in Hk. destruct Hk as [r [<- Hr]].
    apply in_map_iff in Hr. destruct Hr as [m [<- _]].
    apply in_map_iff in Hk'. destruct Hk' as [r' [E Hr']].
    apply in_flat_map in Hr'. destruct Hr' as [s' [Hs' Hr']].
    apply in_map_iff in Hr'. destruct Hr' as [m' [<- _]].
    unfold sm_key in E. simpl in E. injection E as E _.
    apply Hnin. rewrite <- E. now apply in_map.
Qed.

(** On a database that satisfies its keys, with the topic stored and a
    generator above the stored ids, the writer returns. *)
Lemma insertMessages_total g db topicId data options now :
  schema_core db -> fresh g db ->
  existsb (fun t => Nat.eqb (t_id t) topicId) (topics db) = true ->
  exists db' rows, insertMessages g db topicId data options now = Ok (db', rows).
Proof.
  intros [S1 [S2 [S3 S4]]] Hfresh Htopic. unfold insertMessages.
  fold (new_message_rows g topicId data options now).
  pose proof (new_message_rows_ids g topicId data options now) as Hids.
  destruct (new_message_rows g topicId data options now) as [|m0 ms] eqn:Erows;
    [now do 2 eexists|].
  rewrite <- Erows in *. clear Erows m0 ms.
  rewrite Htopic. simpl.
  assert (Hnew : forall m, In m (messages db) ->
                   ~ In (m_id m) (v7_ids g (List.length data))).
  { intros m Hm Hin. unfold v7_ids in Hin. apply in_seq in Hin.
    specialize (Hfresh m Hm). lia. }
  rewrite (proj2 (fresh_ids_spec _ _) Hnew).
  set (rows := new_message_rows g topicId data options now) in *.
  set (db1 := set_messages db (messages db ++ rows)).
  rewrite (insert_subscription_messages_total
             (fan_out_rows db1 topicId (v7_ids g (List.length data))
                           (effective_deliver_at options now))).
  - now do 2 eexists.
  - apply fan_out_keys_NoDup; [exact S4|]. simpl. rewrite map_app.
    apply NoDup_app; [exact S1 | rewrite Hids; apply seq_NoDup |].
    intros i Hi Hi'. apply in_map_iff in Hi. destruct Hi as [m [<- Hm]].
    apply (Hnew m Hm). now rewrite <- Hids.
  - intros r Hr Hin. apply fan_out_rows_In in Hr.
    destruct Hr as [s [m [_ [_ [_ [_ [Hid ->]]]]]]].
    apply in_map_iff in Hin. destruct Hin as [r0 [E Hr0]].
    unfold sm_key in E. simpl in E. injection E as _ E.
    destruct (S3 r0 Hr0) as [_ [m1 [_ [_ [Hm1 [Hmr _]]]]]].
    apply (Hnew m1 Hm1). now rewrite Hmr, E.
Qed.

(** A reservation returns whenever the count is positive and, in
    sequential mode, the subscription row is still there. *)
Lemma getNextMessages_total db this count now :
  0 < count ->
  (consumptionMode this = sequential ->
   exists row, find_subscription db (id this) = Some row) ->
  exists db' batch, getNextMessages db this count now = Ok (db', batch).
Proof.
  intros Hc Hrow. unfold getNextMessages.
  destruct (count <=? 0) eqn:E; [apply Z.leb_le in E; lia|].
  destruct (consumptionMode this).
  - destruct (Hrow eq_refl) as [row ->].
    destruct (s_processing row); [now do 2 eexists|].
    destruct (reserve_batch db this count now). now do 2 eexists.
  - destruct (reserve_batch db this count now). now do 2 eexists.
Qed.

Section SchedulerReturns.
Variable cron_next : string -> timestamp -> timestamp.

Lemma fire_rows_total rows :
  forall g db now,
    schema_core db -> fresh g db ->
    (forall r, In r rows ->
       existsb (fun t => Nat.eqb (t_id t) (sc_topic_id r)) (topics db) = true) ->
    exists g' db' msgs, fire_rows cron_next rows g db now = Ok (g', db', msgs).
Proof.
  induction rows as [|row rest IH]; intros g db now Hsc Hfresh Htopics; simpl.
  - now do 3 eexists.
  - destruct (insertMessages_total g db (sc_topic_id row) [sc_data row]
                (mkMessageOptions (sc_deliver_in_ms row) (sc_deliver_at row)
                                  (sc_priority row)) now Hsc Hfresh)
      as [db1 [inserted Hins]]; [apply Htopics; now left|].
    rewrite Hins.
    pose proof (schema_core_send _ _ _ _ _ _ _ _ Hsc Hins) as Hsc1.
    pose proof (insertMessages_Ok _ _ _ _ _ _ _ _ Hins)
      as [_ [Htop _]].
    apply insertMessages_one in Hins. destruct Hins as [-> [Hm1 _]].
    edestruct (IH (Datatypes.S g)
                 (set_scheduled db1
                    (update_where
                       (fun r => Nat.eqb (sc_topic_id r) (sc_topic_id row)
                                 && String.eqb (sc_name r) (sc_name row))
                       (advance cron_next row now)
                       (scheduled_messages db1))) now)
      as [g' [db' [msgs Hrest]]].
    + now apply schema_core_scheduled.
    + intros m Hm. simpl in Hm. rewrite Hm1 in Hm. apply in_app_or in Hm.
      destruct Hm as [Hm | [<- | []]]; [specialize (Hfresh m Hm); lia|].
      simpl. lia.
    + intros r Hr. simpl. rewrite Htop. apply Htopics. now right.
    + rewrite Hrest. now do 3 eexists.
Qed.

(** The scheduler returns on a database that satisfies its keys. *)
Lemma processScheduledMessages_total g db now :
  schema_core db -> fresh g db -> fk_scheduled db ->
  exists g' db' msgs,
    processScheduledMessages cron_next g db now = Ok (g', db', msgs).
Proof.
  intros S Hfresh Hfk. unfold processScheduledMessages.
  apply fire_rows_total; try assumption.
  intros r Hr. apply Hfk. unfold due_rows in Hr.
  now apply filter_In in Hr.
Qed.
End SchedulerReturns.

(** * Further properties of the API *)

(** ** Keys along a run *)

(** X1. Every database reached through the API keeps the keys of the
    schema: message ids are unique, so are the (subscription, message)
    pairs, the subscription ids and the (topic, name) pairs of schedules;
    and every subscription-message row joins a stored subscription and a
    stored message that belong to one topic. *)
Theorem X1_runs_keep_keys :
  forall cron_next allowed db,
    reachable cron_next allowed db ->
    NoDup (map m_id (messages db))
    /\ NoDup (map sm_key (subscription_messages db))
    /\ NoDup (map s_id (subscriptions db))
    /\ NoDup (map sc_key (scheduled_messages db))
    /\ forall r, In r (subscription_messages db) ->
         exists s m,
           In s (subscriptions db) /\ s_id s = sm_subscription_id r
           /\ In m (messages db) /\ m_id m = sm_message_id r
           /\ s_topic_id s = m_topic_id m.
Proof.
  intros cron_next allowed db Hreach.
  destruct (reachable_schema cron_next allowed db Hreach)
    as [[S1 [S2 [S3 S4]]] S5].
  repeat split; assumption.
Qed.

(** ** Topics *)

Lemma find_app_some {A} (f : A -> bool) l l' x :
  find f l = Some x -> find f (l ++ l') = Some x.
Proof.
  induction l as [|a l IH]; simpl; [discriminate|].
  destruct (f a); [auto | exact IH].
Qed.

(** X2. Creating a topic is get-or-create by name: a successful [init]
    leaves a row with the returned id and the name, touches no other table,
    changes nothing at all when the name was already there, and makes every
    later [init] for that name return the same id without changing the
    database. *)
Theorem X2_topic_get_or_create :
  forall g db n retention db' topic,
    topic_init g db n retention = Ok (db', topic) ->
    In (mkTopic (topicId topic) n) (topics db')
    /\ topicName topic = n
    /\ maxMessagesRetention topic = retention
    /\ messages db' = messages db
    /\ subscriptions db' = subscriptions db
    /\ subscription_messages db' = subscription_messages db
    /\ scheduled_messages db' = scheduled_messages db
    /\ ((exists t, In t (topics db) /\ t_name t = n) -> db' = db)
    /\ forall g' retention',
         topic_init g' db' n retention'
         = Ok (db', mkTopicObject (topicId topic) n retention').
Proof.
  intros g db n retention db' topic H. unfold topic_init in H.
  destruct (find (fun t => String.eqb (t_name t) n) (topics db))
    as [row|] eqn:Ef.
  - injection H as <- <-. simpl.
    pose proof (find_some _ _ Ef) as [Hin Hname].
    apply String.eqb_eq in Hname.
    repeat split; try reflexivity.
    + destruct row as [i nm]. simpl in *. now subst.
    + intros g' retention'. unfold topic_init. now rewrite Ef.
  - destruct (existsb _ _); [discriminate|].
    injection H as <- <-. simpl. repeat split; try reflexivity.
    + apply in_or_app. right. now left.
    + intros [t [Ht Hn]]. exfalso.
      pose proof (find_none _ _ Ef t Ht) as Hf. simpl in Hf.
      rewrite Hn, String.eqb_refl in Hf. discriminate.
    + intros g' retention'. unfold topic_init. simpl.
      rewrite find_app_none.
      * simpl. now rewrite String.eqb_refl.
      * intros x Hx. exact (find_none _ _ Ef x Hx).
Qed.

(** ** Subscribing again *)

Lemma mismatched_options_nil c p a st d e :
  mismatched_options c p a st d e = [] <->
  c = s_consumption_mode e /\ p = s_start_position e
  /\ a = s_max_attempts e /\ st = s_retry_strategy e
  /\ d = s_retry_delay e.
Proof.
  unfold mismatched_options. split.
  - destruct (mode_eqb c (s_consumption_mode e)) eqn:E1; [|discriminate].
    destruct (position_eqb p (s_start_position e)) eqn:E2; [|discriminate].
    destruct (a =? s_max_attempts e) eqn:E3; [|discriminate].
    destruct (strategy_eqb st (s_retry_strategy e)) eqn:E4; [|discriminate].
    destruct (d =? s_retry_delay e) eqn:E5; [|discriminate].
    intros _. apply Z.eqb_eq in E3, E5.
    repeat split; try assumption.
    + destruct c, (s_consumption_mode e); try discriminate; reflexivity.
    + destruct p, (s_start_position e); try discriminate; reflexivity.
    + destruct st, (s_retry_strategy e); try discriminate; reflexivity.
  - intros [-> [-> [-> [-> ->]]]].
    now rewrite mode_eqb_refl, position_eqb_refl, strategy_eqb_refl,
      !Z.eqb_refl.
Qed.

(** X3. Subscribing under a name the topic already has never writes: the
    database is returned as it was, the object carries the id and the
    stored configuration of a stored subscription of that name (the one of
    this topic when no other topic uses the name), whatever options were
    passed, and the ['error'] event is emitted exactly when one of the five
    options, defaults filled in, differs from the stored value (the event
    has a listener, so that emitting it does not throw). *)
Theorem X3_subscribe_existing_keeps_stored_config :
  forall g db topic n options,
    name_taken db topic n = true ->
    exists e errs,
      subscribe g db topic n options = Ok (db, object_of_row e, errs)
      /\ In e (subscriptions db) /\ s_name e = n
      /\ ((forall s, In s (subscriptions db) -> s_name s = n ->
                     s_topic_id s = topicId topic) ->
          s_topic_id e = topicId topic)
      /\ (errs = [] <->
          or_default (o_consumptionMode options) sequential
            = s_consumption_mode e
          /\ or_default (o_startPosition options) latest
             = s_start_position e
          /\ or_default (o_maxAttempts options) 1 = s_max_attempts e
          /\ or_default (o_retryStrategy options) linear
             = s_retry_strategy e
          /\ or_default (o_retryDelayInMs options) 0 = s_retry_delay e).
Proof.
  intros g db topic n options Htaken.
  unfold subscribe. fold (name_taken db topic n). rewrite Htaken.
  destruct (find (fun s => String.eqb (s_name s) n) (subscriptions db))
    as [e|] eqn:Ef.
  - pose proof (find_some _ _ Ef) as [Hin Hname].
    apply String.eqb_eq in Hname.
    exists e. eexists. split; [|split; [exact Hin|split; [exact Hname|split]]].
    + unfold object_of_row. rewrite Hname. reflexivity.
    + intros Huniq. now apply Huniq.
    + apply mismatched_options_nil.
  - exfalso. unfold name_taken in Htaken. apply existsb_exists in Htaken.
    destruct Htaken as [s [Hs Hc]]. apply andb_true_iff in Hc.
    destruct Hc as [_ Hn]. pose proof (find_none _ _ Ef s Hs) as Hf.
    simpl in Hf. congruence.
Qed.

(** ** Reading a subscription's messages *)




Lemma getMessages_iff db this statuses h :
  In h (getMessages db this statuses) <->
  exists r,
    In r (subscription_messages db)
    /\ sm_subscription_id r = id this
    /\ (statuses = [] \/ In (sm_status r) statuses)
    /\ h = row_handle this (left_join_message db r).
Proof.
  split; [apply getMessages_In|].
  intros [r [Hr [Hs [Hst ->]]]]. unfold getMessages.
  apply in_map. apply order_by_In. apply in_map. apply filter_In.
  split; [assumption|].
  apply andb_true_iff; split; [now apply Nat.eqb_eq|].
  destruct statuses as [|s l]; [reflexivity|].
  destruct Hst as [Hst|Hst]; [discriminate|].
  apply existsb_exists. exists (sm_status r).
  split; [assumption | apply status_eqb_refl].
Qed.



(** ** A reservation read back *)

Lemma left_join_message_ext db db' r :
  messages db' = messages db ->
  left_join_message db' r = left_join_message db r.
Proof.
  intros H. unfold left_join_message, find_message. now rewrite H.
Qed.

Lemma row_handle_reserve_row db db' this now r :
  messages db' = messages db ->
  row_handle this (left_join_message db' (reserve_row now r))
  = reserved_handle this now (left_join_message db r).
Proof.
  intros H. unfold row_handle, reserved_handle, left_join_message,
    find_message, joined_priority, joined_id. simpl. rewrite H. reflexivity.
Qed.

Lemma reserve_batch_read_back db this count now db' batch :
  pk_subscription_messages db ->
  reserve_batch db this count now = (db', batch) ->
  messages db' = messages db
  /\ (forall h, In h batch ->
        In h (getMessages db' this [processing])
        /\ exists r, In r (subscription_messages db)
                     /\ is_candidate (id this) now r = true
                     /\ sm_message_id r = msg_id h
                     /\ attempts h = sm_attempts r + 1)
  /\ (forall h, In h (getMessages db' this [processing]) ->
        In h batch \/ In h (getMessages db this [processing]))
  /\ (forall h, In h (getMessages db this [processing]) ->
        In h (getMessages db' this [processing])).
Proof.
  intros Hpk E.
  pose proof (reserve_batch_rows db this count now) as [Hrows Hmsgs].
  pose proof (reserve_batch_handles db this count now) as Hh.
  rewrite E in Hrows, Hmsgs, Hh. simpl in Hrows, Hmsgs, Hh.
  set (B := firstn (reservation_limit this count)
                   (candidates db (id this) now)) in *.
  split; [exact Hmsgs|]. split; [|split].
  - intros h Hin. rewrite Hh in Hin. apply in_map_iff in Hin.
    destruct Hin as [j [<- Hj]].
    pose proof (firstn_incl_In _ _ _ Hj) as Hc.
    apply candidates_In in Hc. destruct Hc as [r [Hr [Hcand ->]]].
    pose proof Hcand as Hcand'. apply is_candidate_true in Hcand'.
    destruct Hcand' as [Hsub _].
    split.
    + apply getMessages_iff. exists (reserve_row now r).
      split; [|split; [exact Hsub|split]].
      * rewrite Hrows. apply update_where_In. exists r.
        split; [exact Hr|].
        replace (Nat.eqb (sm_subscription_id r) (id this)
                 && any_eq (sm_message_id r) (map joined_id B))
          with true; [reflexivity|].
        symmetry. apply andb_true_iff. split; [now apply Nat.eqb_eq|].
        apply any_eq_In. apply in_map_iff.
        exists (left_join_message db r). split; [reflexivity | exact Hj].
      * right. now left.
      * symmetry. now apply row_handle_reserve_row.
    + exists r. repeat split; assumption.
  - intros h Hin. apply getMessages_iff in Hin.
    destruct Hin as [r' [Hr' [Hsub [Hst ->]]]].
    destruct Hst as [Hst|Hst]; [discriminate|].
    destruct Hst as [Hst|[]].
    rewrite Hrows in Hr'. apply update_where_In in Hr'.
    destruct Hr' as [r [Hr Heq]].
    destruct (Nat.eqb (sm_subscription_id r) (id this)
              && any_eq (sm_message_id r) (map joined_id B)) eqn:Ec.
    + left. subst r'. rewrite (row_handle_reserve_row db db') by exact Hmsgs.
      rewrite Hh. apply in_map.
      apply andb_true_iff in Ec. destruct Ec as [Es Ea].
      apply Nat.eqb_eq in Es. apply any_eq_In in Ea.
      apply in_map_iff in Ea. destruct Ea as [j [Hid Hj]].
      pose proof (firstn_incl_In _ _ _ Hj) as Hc.
      apply candidates_In in Hc. destruct Hc as [r0 [Hr0 [Hcand Hj0]]].
      apply is_candidate_true in Hcand. destruct Hcand as [Hsub0 _].
      assert (r0 = r) as <-.
      { apply (NoDup_map_eq sm_key (subscription_messages db));
          try assumption.
        unfold sm_key. rewrite Hsub0, Es. f_equal.
        rewrite <- Hid, Hj0. reflexivity. }
      now rewrite <- Hj0.
    + right. subst r'. apply getMessages_iff. exists r.
      split; [exact Hr|split; [exact Hsub|split]].
      * right. now left.
      * f_equal. now apply left_join_message_ext.
  - (* a row in flight is no candidate, so the reservation leaves it *)
    intros h Hin. apply getMessages_iff in Hin.
    destruct Hin as [r [Hr [Hsub [Hst ->]]]].
    destruct Hst as [Hst|Hst]; [discriminate|].
    destruct Hst as [Hst|[]].
    apply getMessages_iff. exists r.
    split; [|split; [exact Hsub|split]].
    + rewrite Hrows. apply update_where_In. exists r.
      split; [exact Hr|].
      destruct (Nat.eqb (sm_subscription_id r) (id this)
                && any_eq (sm_message_id r) (map joined_id B)) eqn:Ec;
        [|reflexivity].
      exfalso. apply andb_true_iff in Ec. destruct Ec as [_ Ea].
      pose proof (reserved_is_candidate _ _ _ _ _ Hpk Hr Hsub Ea) as Hc.
      apply is_candidate_true in Hc. destruct Hc as [_ [Hw _]].
      rewrite Hw in Hst. discriminate.
    + right. now left.
    + f_equal. symmetry. now apply left_join_message_ext.
Qed.

(** X5. What [getNextMessages] returns is what it stored: every returned
    handle is read back unchanged by [getMessages('processing')] on the
    resulting database; it belongs to a row that was a candidate, with one
    attempt more than that row had, the heartbeat at the clock reading and
    no progress; the rows in 'processing' afterwards are exactly those of
    the batch and those that were in 'processing' before; the messages
    table is not written. *)
Theorem X5_reservation_read_back :
  forall db this count now db' batch,
    pk_subscription_messages db ->
    getNextMessages db this count now = Ok (db', batch) ->
    messages db' = messages db
    /\ (forall h, In h batch ->
          In h (getMessages db' this [processing])
          /\ status h = processing /\ lastHeartbeatAt h = Some now
          /\ progress h = None
          /\ exists r, In r (subscription_messages db)
                       /\ is_candidate (id this) now r = true
                       /\ sm_message_id r = msg_id h
                       /\ attempts h = sm_attempts r + 1)
    /\ (forall h, In h (getMessages db' this [processing]) <->
          In h batch \/ In h (getMessages db this [processing])).
Proof.
  intros db this count now db' batch Hpk H.
  assert (Hshape : forall h, In h batch ->
            status h = processing /\ lastHeartbeatAt h = Some now
            /\ progress h = None).
  { destruct (getNextMessages_batch _ _ _ _ _ _ H) as [k [-> _]].
    intros h Hh. apply in_map_iff in Hh. destruct Hh as [j [<- _]].
    repeat split. }
  assert (Hcases : (db' = db /\ batch = [])
                   \/ reserve_batch db this count now = (db', batch)).
  { unfold getNextMessages in H.
    destruct (count <=? 0); [discriminate|].
    destruct (consumptionMode this).
    - destruct (find_subscription db (id this)) as [row|]; [|discriminate].
      destruct (s_processing row).
      + injection H as <- <-. now left.
      + injection H as H. now right.
    - injection H as H. now right. }
  destruct Hcases as [[-> ->] | E].
  - split; [reflexivity|]. split; [intros h []|]. intros h. split.
    + intros Hh. now right.
    + intros [[] | Hh]. exact Hh.
  - destruct (reserve_batch_read_back _ _ _ _ _ _ Hpk E)
      as [Hm [H1 [H2 H3]]].
    split; [exact Hm|]. split.
    + intros h Hh. destruct (H1 h Hh) as [Hin Hex].
      destruct (Hshape h Hh) as [Hs [Hb Hp]]. auto.
    + intros h. split; [apply H2|].
      intros [Hh | Hh]; [now apply (H1 h) | now apply H3].
Qed.


(** ** Subscriptions do not interfere *)

Lemma filter_update_where_off {A} (p c : A -> bool) (f : A -> A) l :
  (forall r, c r = true -> p r = false /\ p (f r) = false) ->
  filter p (update_where c f l) = filter p l.
Proof.
  intros H. unfold update_where.
  induction l as [|r l IH]; simpl; [reflexivity|].
  destruct (c r) eqn:Ec.
  - destruct (H r Ec) as [-> ->]. exact IH.
  - destruct (p r); now rewrite IH.
Qed.

Lemma filter_sub_first (p : SubscriptionMessageRow -> bool) sid l :
  (forall r, p r = true -> sm_subscription_id r = sid) ->
  filter p l = filter p (filter (fun r => Nat.eqb (sm_subscription_id r) sid) l).
Proof.
  intros H. induction l as [|r l IH]; simpl; [reflexivity|].
  destruct (p r) eqn:Ep.
  - rewrite (H r Ep), Nat.eqb_refl. simpl. rewrite Ep. now f_equal.
  - destruct (Nat.eqb (sm_subscription_id r) sid); simpl; rewrite ?Ep;
      exact IH.
Qed.

Lemma same_view_of db db' other :
  filter (fun r => Nat.eqb (sm_subscription_id r) (id other))
         (subscription_messages db')
  = filter (fun r => Nat.eqb (sm_subscription_id r) (id other))
           (subscription_messages db) ->
  (forall r, In r (subscription_messages db) ->
             sm_subscription_id r = id other ->
             left_join_message db' r = left_join_message db r) ->
  find_subscription db' (id other) = find_subscription db (id other) ->
  same_view db db' other.
Proof.
  intros Hrows Hjoin Hsub.
  assert (Hmap : map (left_join_message db')
                   (filter (fun r => Nat.eqb (sm_subscription_id r) (id other))
                           (subscription_messages db))
                 = map (left_join_message db)
                     (filter (fun r => Nat.eqb (sm_subscription_id r)
                                               (id other))
                             (subscription_messages db))).
  { apply map_ext_in. intros r Hr. apply filter_In in Hr.
    destruct Hr as [Hr He]. apply Nat.eqb_eq in He. now apply Hjoin. }
  assert (Hfilter : forall p : SubscriptionMessageRow -> bool,
            (forall r, p r = true -> sm_subscription_id r = id other) ->
            map (left_join_message db') (filter p (subscription_messages db'))
            = map (left_join_message db)
                  (filter p (subscription_messages db))).
  { intros p Hp.
    rewrite (filter_sub_first p (id other) (subscription_messages db')),
            (filter_sub_first p (id other) (subscription_messages db))
      by exact Hp.
    rewrite Hrows. apply map_ext_in. intros r Hr.
    apply filter_In in Hr. destruct Hr as [Hr _].
    apply filter_In in Hr. destruct Hr as [Hr He].
    apply Nat.eqb_eq in He. now apply Hjoin. }
  split; [|split; [|exact Hsub]].
  - intros statuses. unfold getMessages. f_equal. f_equal.
    apply Hfilter. intros r Hr.
    apply andb_true_iff in Hr. destruct Hr as [Hr _].
    now apply Nat.eqb_eq.
  - intros now. unfold candidates. f_equal.
    apply Hfilter. intros r Hr. now apply is_candidate_true in Hr.
Qed.

Lemma same_view_intro db db' other :
  messages db' = messages db ->
  filter (fun r => Nat.eqb (sm_subscription_id r) (id other))
         (subscription_messages db')
  = filter (fun r => Nat.eqb (sm_subscription_id r) (id other))
           (subscription_messages db) ->
  subscriptions db' = subscriptions db
  \/ (exists sid b, sid <> id other
        /\ subscriptions db'
           = update_where (fun s => Nat.eqb (s_id s) sid) (set_processing b)
                          (subscriptions db)) ->
  same_view db db' other.
Proof.
  intros Hm Hrows Hsubs. apply same_view_of; [exact Hrows| |].
  - intros r _ _. now apply left_join_message_ext.
  - unfold find_subscription.
    destruct Hsubs as [-> | [sid [b [Hneq ->]]]]; [reflexivity|].
    rewrite find_update_where by (intros r; reflexivity).
    destruct (find (fun s => Nat.eqb (s_id s) (id other)) (subscriptions db))
      as [s|] eqn:Ef; [|reflexivity].
    simpl. apply find_some in Ef. destruct Ef as [_ Hs].
    apply Nat.eqb_eq in Hs.
    destruct (Nat.eqb (s_id s) sid) eqn:E; [|reflexivity].
    apply Nat.eqb_eq in E. congruence.
Qed.

Lemma own_row_off db h f other :
  id (subscription h) <> id other ->
  (forall r, sm_subscription_id (f r) = sm_subscription_id r) ->
  filter (fun r => Nat.eqb (sm_subscription_id r) (id other))
         (subscription_messages (update_own_row db h f))
  = filter (fun r => Nat.eqb (sm_subscription_id r) (id other))
           (subscription_messages db).
Proof.
  intros Hneq Hf. unfold update_own_row. simpl.
  apply filter_update_where_off. intros r Hc.
  apply sm_key_is_true in Hc. destruct Hc as [Hs _].
  rewrite Hf, Hs. split; apply Nat.eqb_neq; exact Hneq.
Qed.

Lemma same_view_own_row db h f other :
  id (subscription h) <> id other ->
  (forall r, sm_subscription_id (f r) = sm_subscription_id r) ->
  same_view db (update_own_row db h f) other.
Proof.
  intros Hneq Hf.
  apply same_view_intro; [reflexivity | now apply own_row_off | now left].
Qed.

Lemma same_view_own_row_gate db h f b other :
  id (subscription h) <> id other ->
  (forall r, sm_subscription_id (f r) = sm_subscription_id r) ->
  same_view db
    (update_processing (update_own_row db h f) (id (subscription h)) b)
    other.
Proof.
  intros Hneq Hf.
  apply same_view_intro; [reflexivity | now apply own_row_off |].
  right. exists (id (subscription h)), b. split; [exact Hneq|reflexivity].
Qed.

(** X6. The subscriptions of a topic advance independently.  An operation
    on one subscription, a reservation or, on one of its messages, a
    completion, a failure, a manual retry, a heartbeat or a progress
    update, leaves every other subscription as it was: the same handles
    through [getMessages], the same candidates of the reservation query at
    every time, the same stored subscription row. *)
Theorem X6_subscriptions_do_not_interfere :
  forall db other,
    (forall this count now db' batch,
        id this <> id other ->
        getNextMessages db this count now = Ok (db', batch) ->
        same_view db db' other)
    /\ (forall h,
          id (subscription h) <> id other ->
          same_view db (fst (complete db h)) other
          /\ (forall error now,
                same_view db (db_after db (fail db h error now)) other)
          /\ same_view db (fst (retry db h)) other
          /\ (forall now, same_view db (fst (heartbeat db h now)) other)
          /\ (forall value,
                same_view db (fst (updateProgress db h value)) other)).
Proof.
  intros db other. split.
  - intros this count now db' batch Hneq H.
    assert (Hsame : same_view db db other).
    { apply same_view_intro; [reflexivity | reflexivity | now left]. }
    unfold getNextMessages in H.
    destruct (count <=? 0); [discriminate|].
    assert (Hres : same_view db (fst (reserve_batch db this count now)) other).
    { pose proof (reserve_batch_rows db this count now) as [Hrows Hmsgs].
      apply same_view_intro; [exact Hmsgs| |].
      - rewrite Hrows. apply filter_update_where_off. intros r Hc.
        apply andb_true_iff in Hc. destruct Hc as [Hs _].
        apply Nat.eqb_eq in Hs. simpl. rewrite Hs.
        split; apply Nat.eqb_neq; exact Hneq.
      - unfold reserve_batch.
        destruct (firstn (reservation_limit this count)
                         (candidates db (id this) now)); [now left|].
        destruct (consumptionMode this); simpl; [|now left].
        right. exists (id this), true. split; [exact Hneq | reflexivity]. }
    destruct (consumptionMode this).
    + destruct (find_subscription db (id this)) as [row|]; [|discriminate].
      destruct (s_processing row).
      * injection H as <- _. exact Hsame.
      * injection H as H. rewrite H in Hres. exact Hres.
    + injection H as H. rewrite H in Hres. exact Hres.
  - intros h Hneq. split; [|split; [|split; [|split]]].
    + unfold complete, completeMessage.
      destruct (consumptionMode (subscription h)); simpl;
        [now apply same_view_own_row_gate | now apply same_view_own_row].
    + intros error now.
      destruct (fail db h error now) as [[db' h']|e] eqn:Hfail;
        cbn [db_after].
      * destruct (fail_Ok _ _ _ _ _ _ Hfail) as [av [_ [-> _]]].
        destruct (consumptionMode (subscription h));
          [now apply same_view_own_row_gate | now apply same_view_own_row].
      * apply same_view_intro; [reflexivity | reflexivity | now left].
    + unfold retry. simpl. now apply same_view_own_row.
    + intros now. unfold heartbeat. simpl. now apply same_view_own_row.
    + intros value. unfold updateProgress. simpl.
      now apply same_view_own_row.
Qed.

(** ** Heartbeats and the stale detector *)

(** X7. A heartbeat protects a message from the stale detector: after
    [heartbeat()] at [t], a sweep at any time before [t + timeout] leaves
    the row as the heartbeat left it, whatever its previous heartbeat was,
    and emits no ['stale'] event for it; the heartbeat itself changes
    nothing but [last_heartbeat_at]. *)
Theorem X7_heartbeat_defers_stale_reset :
  forall db h t timeout now r,
    find_sm db (id (subscription h)) (msg_id h) = Some r ->
    now - timeout < t ->
    find_sm (fst (heartbeat db h t)) (id (subscription h)) (msg_id h)
    = Some (mkSM (sm_subscription_id r) (sm_message_id r) (sm_status r)
                 (sm_attempts r) (sm_available_at r) (sm_error_stack r)
                 (Some t) (sm_progress r) (sm_stale_count r))
    /\ find_sm (stale_db (fst (heartbeat db h t)) timeout now)
               (id (subscription h)) (msg_id h)
       = find_sm (fst (heartbeat db h t)) (id (subscription h)) (msg_id h)
    /\ ~ In (mkStale (msg_id h) (id (subscription h)))
            (stale_events (fst (heartbeat db h t)) timeout now)
    /\ lastHeartbeatAt (snd (heartbeat db h t)) = Some t.
Proof.
  intros db h t timeout now r Hfind Hlt.
  pose proof (find_sm_key _ _ _ _ Hfind) as [Hs Hm].
  assert (Hkey : sm_key_is (id (subscription h)) (msg_id h) r = true)
    by (apply sm_key_is_true; auto).
  assert (H1 : find_sm (fst (heartbeat db h t)) (id (subscription h))
                       (msg_id h)
               = Some (mkSM (sm_subscription_id r) (sm_message_id r)
                         (sm_status r) (sm_attempts r) (sm_available_at r)
                         (sm_error_stack r) (Some t) (sm_progress r)
                         (sm_stale_count r))).
  { unfold heartbeat. simpl.
    rewrite find_sm_update_own_row by reflexivity.
    rewrite Hfind. simpl. now rewrite Hkey. }
  split; [exact H1|]. split; [|split; [|reflexivity]].
  - rewrite find_sm_stale_db, H1. simpl.
    unfold is_stale, null_leb. simpl.
    replace (t <=? now - timeout) with false
      by (symmetry; apply Z.leb_gt; lia).
    now rewrite andb_false_r.
  - intros Hin. rewrite stale_events_eq in Hin. apply in_map_iff in Hin.
    destruct Hin as [x [Hev Hx]]. apply filter_In in Hx.
    destruct Hx as [Hx Hstale]. injection Hev as Hxm Hxs.
    unfold heartbeat, update_own_row in Hx. simpl in Hx.
    apply update_where_In in Hx. destruct Hx as [x0 [_ Hx0]].
    destruct (sm_key_is (id (subscription h)) (msg_id h) x0) eqn:E.
    + subst x. apply is_stale_true in Hstale.
      destruct Hstale as [_ [hb [Hhb Hle]]]. simpl in Hhb.
      injection Hhb as <-. lia.
    + subst x0. assert (sm_key_is (id (subscription h)) (msg_id h) x = true)
        by (apply sm_key_is_true; auto).
      congruence.
Qed.

(** ** Manual retry *)

(** X8. [retry()] puts a message back in the queue whatever happened to it
    before: its row is a candidate of the reservation query at every time,
    the gate of the subscription is not touched, and on a parallel
    subscription a reservation large enough for all candidates returns the
    message again, with one attempt more than it had, no error stack and no
    delay. *)
Theorem X8_retry_requeues :
  forall db h r,
    find_sm db (id (subscription h)) (msg_id h) = Some r ->
    subscriptions (fst (retry db h)) = subscriptions db
    /\ (forall now,
          exists j, In j (candidates (fst (retry db h))
                                     (id (subscription h)) now)
                    /\ joined_id j = msg_id h)
    /\ (consumptionMode (subscription h) = parallel ->
        forall count now,
          Z.of_nat (List.length (candidates (fst (retry db h))
                                            (id (subscription h)) now))
          <= count ->
          exists db' batch h',
            getNextMessages (fst (retry db h)) (subscription h) count now
            = Ok (db', batch)
            /\ In h' batch /\ msg_id h' = msg_id h
            /\ attempts h' = sm_attempts r + 1
            /\ errorStack h' = None /\ availableAt h' = None).
Proof.
  intros db h r Hfind.
  pose proof (find_sm_key _ _ _ _ Hfind) as [Hs Hm].
  assert (Hkey : sm_key_is (id (subscription h)) (msg_id h) r = true)
    by (apply sm_key_is_true; auto).
  set (r' := set_outcome waiting None None r).
  assert (Hfind' : find_sm (fst (retry db h)) (id (subscription h))
                           (msg_id h) = Some r').
  { rewrite retry_row, Hfind. simpl. now rewrite Hkey. }
  assert (Hcand : forall now,
            In (left_join_message (fst (retry db h)) r')
               (candidates (fst (retry db h)) (id (subscription h)) now)).
  { intros now. apply candidates_In. exists r'.
    split; [now apply find_sm_In in Hfind'|]. split; [|reflexivity].
    apply is_candidate_true. unfold r'. simpl. auto. }
  split; [reflexivity|]. split.
  - intros now. exists (left_join_message (fst (retry db h)) r').
    split; [apply Hcand|]. unfold joined_id. simpl. exact Hm.
  - intros Hpar count now Hlen.
    assert (Hpos : 0 < count).
    { specialize (Hcand now).
      destruct (candidates (fst (retry db h)) (id (subscription h)) now);
        [destruct Hcand | simpl in Hlen; lia]. }
    unfold getNextMessages. replace (count <=? 0) with false
      by (symmetry; apply Z.leb_gt; lia).
    rewrite Hpar.
    destruct (reserve_batch (fst (retry db h)) (subscription h) count now)
      as [db' batch] eqn:E.
    exists db', batch,
      (reserved_handle (subscription h) now
         (left_join_message (fst (retry db h)) r')).
    split; [reflexivity|]. split; [|repeat split; exact Hm || reflexivity].
    pose proof (reserve_batch_handles (fst (retry db h)) (subscription h)
                  count now) as Hh.
    rewrite E in Hh. change (snd (db', batch)) with batch in Hh.
    rewrite Hh. apply in_map.
    rewrite firstn_all2; [apply Hcand|].
    unfold reservation_limit. rewrite Hpar. lia.
Qed.

(** ** Removing a message *)

Lemma removeMessage_tables db m :
  pk_messages db -> In m (messages db) ->
  messages (removeMessage db m)
  = filter (fun x => negb (Nat.eqb (m_id x) (m_id m))) (messages db)
  /\ subscription_messages (removeMessage db m)
     = filter (fun r => negb (Nat.eqb (sm_message_id r) (m_id m)))
              (subscription_messages db).
Proof.
  intros Hpk Hin. unfold removeMessage, delete_messages. simpl.
  assert (Hc : forall x, In x (messages db) ->
             Nat.eqb (m_topic_id x) (m_topic_id m) && Nat.eqb (m_id x) (m_id m)
             = Nat.eqb (m_id x) (m_id m)).
  { intros x Hx. destruct (Nat.eqb (m_id x) (m_id m)) eqn:E;
      [|apply andb_false_r].
    apply Nat.eqb_eq in E.
    rewrite (NoDup_map_eq m_id (messages db) x m Hpk Hx Hin E).
    now rewrite Nat.eqb_refl. }
  split.
  - apply filter_ext_in. intros x Hx. now rewrite Hc.
  - rewrite (filter_ext_in _ (fun x => Nat.eqb (m_id x) (m_id m))
               (messages db)) by exact Hc.
    rewrite (filter_key_singleton m_id _ (messages db) m Hpk Hin)
      by (intros x; apply Nat.eqb_eq).
    apply filter_ext. intros r. simpl. now rewrite orb_false_r.
Qed.

(** X9. [Message.remove()] on a stored message deletes it for every
    subscription: the message and all its subscription rows are gone, every
    other message and row stays, in order; no later reservation of any
    subscription returns it; and a consumer that still holds it can
    complete or fail it without changing any row. *)
Theorem X9_remove_message_cascades :
  forall db m,
    pk_messages db -> In m (messages db) ->
    messages (removeMessage db m)
    = filter (fun x => negb (Nat.eqb (m_id x) (m_id m))) (messages db)
    /\ subscription_messages (removeMessage db m)
       = filter (fun r => negb (Nat.eqb (sm_message_id r) (m_id m)))
                (subscription_messages db)
    /\ subscriptions (removeMessage db m) = subscriptions db
    /\ scheduled_messages (removeMessage db m) = scheduled_messages db
    /\ (forall this count now db' batch,
          getNextMessages (removeMessage db m) this count now
          = Ok (db', batch) ->
          ~ In (m_id m) (map msg_id batch))
    /\ (forall h error now,
          msg_id h = m_id m ->
          subscription_messages (fst (complete (removeMessage db m) h))
          = subscription_messages (removeMessage db m)
          /\ subscription_messages
               (db_after (removeMessage db m)
                         (fail (removeMessage db m) h error now))
             = subscription_messages (removeMessage db m)).
Proof.
  intros db m Hpk Hin.
  destruct (removeMessage_tables db m Hpk Hin) as [Hm Hr].
  assert (Hgone : forall r, In r (subscription_messages (removeMessage db m)) ->
                            sm_message_id r <> m_id m).
  { intros r H. rewrite Hr in H. apply filter_In in H.
    destruct H as [_ H]. apply negb_true_iff in H.
    now apply Nat.eqb_neq in H. }
  split; [exact Hm|]. split; [exact Hr|].
  split; [reflexivity|]. split; [reflexivity|]. split.
  - intros this count now db' batch H Hb.
    destruct (getNextMessages_batch _ _ _ _ _ _ H) as [k [-> _]].
    rewrite map_map in Hb. apply in_map_iff in Hb.
    destruct Hb as [j [Hid Hj]]. apply firstn_incl_In in Hj.
    apply candidates_In in Hj. destruct Hj as [r [Hrin [_ ->]]].
    exact (Hgone r Hrin Hid).
  - intros h error now Hh.
    assert (Hown : forall f,
              subscription_messages (update_own_row (removeMessage db m) h f)
              = subscription_messages (removeMessage db m)).
    { intros f. unfold update_own_row.
      change (subscription_messages
                (set_subscription_messages (removeMessage db m) ?l)) with l.
      apply update_where_never. intros r Hrin.
      destruct (sm_key_is (id (subscription h)) (msg_id h) r) eqn:E;
        [|reflexivity].
      apply sm_key_is_true in E. destruct E as [_ E].
      rewrite Hh in E. now destruct (Hgone r Hrin). }
    split.
    + unfold complete, completeMessage.
      destruct (consumptionMode (subscription h)); apply Hown.
    + destruct (fail (removeMessage db m) h error now) as [[db' h']|e]
        eqn:Hfail; cbn [db_after]; [|reflexivity].
      destruct (fail_Ok _ _ _ _ _ _ Hfail) as [av [_ [-> _]]].
      destruct (consumptionMode (subscription h)); apply Hown.
Qed.

(** ** Removing a subscription *)

Lemma find_filter_keep {A} (k p : A -> bool) l :
  (forall x, In x l -> k x = true -> p x = true) ->
  find k (filter p l) = find k l.
Proof.
  intros H. induction l as [|x l IH]; simpl; [reflexivity|].
  assert (IH' : find k (filter p l) = find k l)
    by (apply IH; intros y Hy; apply H; now right).
  destruct (k x) eqn:Ek.
  - rewrite (H x (or_introl eq_refl) Ek). simpl. now rewrite Ek.
  - destruct (p x); simpl; rewrite ?Ek; exact IH'.
Qed.

Lemma filter_all {A} (p : A -> bool) l :
  (forall x, In x l -> p x = true) -> filter p l = l.
Proof.
  intros H. induction l as [|x l IH]; simpl; [reflexivity|].
  rewrite (H x) by now left. f_equal. apply IH. intros y Hy. apply H.
  now right.
Qed.

Lemma NoDup_map_pair {A B C} (f : A -> B) (c : C) l :
  NoDup (map f l) -> NoDup (map (fun x => (c, f x)) l).
Proof.
  induction l as [|x l IH]; simpl; intros H; [constructor|].
  apply NoDup_cons_iff in H. destruct H as [Hnin Hnd].
  constructor; [|now apply IH].
  intros Hin. apply Hnin. apply in_map_iff in Hin.
  destruct Hin as [y [Hy Hyl]]. injection Hy as Hy.
  apply in_map_iff. now exists y.
Qed.

Lemma existsb_false {A} (f : A -> bool) l :
  existsb f l = false <-> forall x, In x l -> f x = false.
Proof.
  split.
  - intros H x Hx. destruct (f x) eqn:E; [|reflexivity].
    rewrite <- H. symmetry. apply existsb_exists. eauto.
  - intros H. destruct (existsb f l) eqn:E; [|reflexivity].
    apply existsb_exists in E. destruct E as [x [Hx Hf]].
    rewrite (H x Hx) in Hf. discriminate.
Qed.

Lemma reserve_batch_no_candidates db this count now :
  candidates db (id this) now = [] ->
  reserve_batch db this count now = (db, []).
Proof.
  intros H. unfold reserve_batch. rewrite H.
  now rewrite firstn_nil.
Qed.

(** X10. [Subscription.remove()] deletes the subscription with all its
    rows and nothing else: the messages stay and every other subscription
    sees what it saw.  The removed object is dead: a reservation through it
    throws on a sequential subscription and returns nothing on a parallel
    one.  Subscribing again under the same name then creates a new
    subscription with the options passed now, emits no ['error'], and with
    the start position 'latest' it starts empty. *)
Theorem X10_remove_subscription_then_subscribe :
  forall g db topic this options,
    schema_core db ->
    (forall s, In s (subscriptions db) -> s_topic_id s = topicId topic ->
               s_name s = name this -> s_id s = id this) ->
    ~ In g (map s_id (subscriptions db)) ->
    existsb (fun t => Nat.eqb (t_id t) (topicId topic)) (topics db) = true ->
    (forall r, In r (subscription_messages (removeSubscription db this)) <->
               In r (subscription_messages db)
               /\ sm_subscription_id r <> id this)
    /\ messages (removeSubscription db this) = messages db
    /\ (forall other, id other <> id this ->
                      same_view db (removeSubscription db this) other)
    /\ (forall count now, 0 < count ->
          getNextMessages (removeSubscription db this) this count now
          = match consumptionMode this with
            | sequential => Err TypeError
            | parallel => Ok (removeSubscription db this, [])
            end)
    /\ exists db2,
         subscribe g (removeSubscription db this) topic (name this) options
         = Ok (db2,
               mkSubscription g (name this)
                 (or_default (o_consumptionMode options) sequential)
                 (or_default (o_startPosition options) latest)
                 (or_default (o_maxAttempts options) 1)
                 (or_default (o_retryStrategy options) linear)
                 (or_default (o_retryDelayInMs options) 0),
               [])
         /\ (or_default (o_startPosition options) latest = latest ->
             forall sub statuses,
               id sub = g -> getMessages db2 sub statuses = []).
Proof.
  intros g db topic this options [Hpkm [Hpk [Hfk Hsid]]] Hname Hg Htopic.
  set (db1 := removeSubscription db this).
  assert (Hrows : forall r, In r (subscription_messages db1) <->
                            In r (subscription_messages db)
                            /\ sm_subscription_id r <> id this).
  { intros r. unfold db1, removeSubscription. simpl. rewrite filter_In.
    rewrite negb_true_iff, Nat.eqb_neq. reflexivity. }
  assert (Hnone : forall r, In r (subscription_messages db1) ->
                            sm_subscription_id r <> g).
  { intros r Hr Heq. apply Hrows in Hr. destruct Hr as [Hr _].
    destruct (Hfk r Hr) as [s [_ [Hs [Hid _]]]].
    apply Hg. apply in_map_iff. exists s. split; [congruence | exact Hs]. }
  split; [exact Hrows|]. split; [reflexivity|]. split; [|split].
  - intros other Hneq. apply same_view_of.
    + unfold db1, removeSubscription. simpl. rewrite filter_comm.
      apply filter_all. intros r Hr. apply filter_In in Hr.
      destruct Hr as [_ Hr]. apply Nat.eqb_eq in Hr. rewrite Hr.
      apply negb_true_iff. now apply Nat.eqb_neq.
    + intros r _ _. reflexivity.
    + unfold find_subscription, db1, removeSubscription. simpl.
      apply find_filter_keep. intros s _ Hs. apply Nat.eqb_eq in Hs.
      rewrite Hs. apply negb_true_iff. now apply Nat.eqb_neq.
  - intros count now Hpos. unfold getNextMessages.
    replace (count <=? 0) with false by (symmetry; apply Z.leb_gt; lia).
    destruct (consumptionMode this).
    + assert (Hf : find_subscription db1 (id this) = None).
      { unfold find_subscription, db1, removeSubscription. simpl.
        destruct (find _ _) as [s|] eqn:E; [|reflexivity].
        apply find_some in E. destruct E as [Hs E].
        apply filter_In in Hs. destruct Hs as [_ Hs].
        rewrite E in Hs. discriminate. }
      now rewrite Hf.
    + rewrite reserve_batch_no_candidates; [reflexivity|].
      unfold candidates. rewrite filter_none; [reflexivity|].
      intros r Hr. apply Hrows in Hr. destruct Hr as [_ Hr].
      unfold is_candidate. apply Nat.eqb_neq in Hr. now rewrite Hr.
  - assert (Htaken : existsb (fun s => Nat.eqb (s_topic_id s) (topicId topic)
                                       && String.eqb (s_name s) (name this))
                             (subscriptions db1) = false).
    { apply existsb_false. intros s Hs. unfold db1, removeSubscription in Hs.
      simpl in Hs. apply filter_In in Hs. destruct Hs as [Hs Hid].
      apply negb_true_iff in Hid. apply Nat.eqb_neq in Hid.
      destruct (Nat.eqb (s_topic_id s) (topicId topic)) eqn:Et;
        [|reflexivity].
      destruct (String.eqb (s_name s) (name this)) eqn:En; [|reflexivity].
      apply Nat.eqb_eq in Et. apply String.eqb_eq in En.
      destruct (Hid (Hname s Hs Et En)). }
    assert (Hfresh : existsb (fun s => Nat.eqb (s_id s) g)
                             (subscriptions db1) = false).
    { apply existsb_false. intros s Hs. apply Nat.eqb_neq. intros Heq.
      apply Hg. apply in_map_iff. exists s. split; [exact Heq|].
      unfold db1, removeSubscription in Hs. simpl in Hs.
      now apply filter_In in Hs. }
    unfold subscribe. rewrite Htaken, Hfresh.
    change (topics db1) with (topics db). rewrite Htopic. simpl negb.
    cbv iota.
    destruct (or_default (o_startPosition options) latest) eqn:Epos.
    + rewrite insert_subscription_messages_total.
      * eexists. split; [reflexivity|]. intros Habs. discriminate Habs.
      * rewrite map_map.
        change (fun x : MessageRow => sm_key (default_sm g (m_id x) None))
          with (fun x : MessageRow => (g, m_id x)).
        apply NoDup_map_pair. now apply NoDup_map_filter.
      * intros r Hr Hin. apply in_map_iff in Hr.
        destruct Hr as [m [<- _]]. simpl in Hin. apply in_map_iff in Hin.
        destruct Hin as [r' [Hk Hr']]. injection Hk as Hk _.
        exact (Hnone r' Hr' Hk).
    + eexists. split; [reflexivity|]. intros _ sub statuses Hsub.
      destruct (getMessages _ sub statuses) as [|h l] eqn:E; [reflexivity|].
      assert (Hh : In h (getMessages
                (set_subscriptions db1
                   (subscriptions db1 ++
                    [mkSubscriptionRow g (topicId topic) (name this) false
                       (or_default (o_consumptionMode options) sequential)
                       latest (or_default (o_maxAttempts options) 1)
                       (or_default (o_retryStrategy options) linear)
                       (or_default (o_retryDelayInMs options) 0)]))
                sub statuses)) by (rewrite E; now left).
      apply getMessages_In in Hh. destruct Hh as [r [Hr [Hs _]]].
      simpl in Hr. rewrite Hsub in Hs. destruct (Hnone r Hr Hs).
Qed.

(** ** Clearing a topic *)

(** X11. [Topic.clear()] empties one topic and touches no other: the
    messages and the schedules of the topic are deleted and those of other
    topics stay; the subscriptions themselves stay; every subscription of
    the cleared topic has no message left, and every subscription of
    another topic sees exactly what it saw. *)
Theorem X11_clear_empties_one_topic :
  forall db t,
    schema_core db ->
    (forall m, In m (messages (clear db t)) <->
               In m (messages db) /\ m_topic_id m <> topicId t)
    /\ (forall r, In r (scheduled_messages (clear db t)) <->
                  In r (scheduled_messages db) /\ sc_topic_id r <> topicId t)
    /\ subscriptions (clear db t) = subscriptions db
    /\ topics (clear db t) = topics db
    /\ topic_getMessages (clear db t) t = []
    /\ getScheduledMessages (clear db t) t = []
    /\ (forall s this statuses,
          In s (subscriptions db) -> s_topic_id s = topicId t ->
          id this = s_id s ->
          getMessages (clear db t) this statuses = [])
    /\ (forall s other,
          In s (subscriptions db) -> s_topic_id s <> topicId t ->
          id other = s_id s ->
          same_view db (clear db t) other).
Proof.
  intros db t [Hpkm [Hpk [Hfk Hsid]]].
  assert (Hmsgs : messages (clear db t)
                  = filter (fun m => negb (Nat.eqb (m_topic_id m) (topicId t)))
                           (messages db)) by reflexivity.
  assert (Hrows : subscription_messages (clear db t)
                  = filter (fun r => negb (any_eq (sm_message_id r)
                              (map m_id
                                 (filter (fun m => Nat.eqb (m_topic_id m)
                                                           (topicId t))
                                         (messages db)))))
                           (subscription_messages db)) by reflexivity.
  assert (Htopic : forall r s,
            In r (subscription_messages db) -> In s (subscriptions db) ->
            sm_subscription_id r = s_id s ->
            exists m, In m (messages db) /\ m_id m = sm_message_id r
                      /\ m_topic_id m = s_topic_id s).
  { intros r s Hr Hs Hid.
    destruct (Hfk r Hr) as [s' [m [Hs' [Hid' [Hm [Hmid Ht]]]]]].
    assert (s' = s)
      by (apply (NoDup_map_eq s_id (subscriptions db)); congruence).
    subst s'. exists m. auto. }
  split; [|split; [|split; [reflexivity|split; [reflexivity|
    split; [|split; [|split]]]]]].
  - intros m. rewrite Hmsgs, filter_In, negb_true_iff, Nat.eqb_neq.
    reflexivity.
  - intros r. unfold clear. simpl. rewrite filter_In, negb_true_iff,
      Nat.eqb_neq. reflexivity.
  - unfold topic_getMessages. rewrite Hmsgs, filter_none; [reflexivity|].
    intros m Hm. apply filter_In in Hm. destruct Hm as [_ Hm].
    now apply negb_true_iff in Hm.
  - unfold getScheduledMessages, clear. simpl. apply filter_none.
    intros r Hr. apply filter_In in Hr. destruct Hr as [_ Hr].
    now apply negb_true_iff in Hr.
  - intros s this statuses Hs Ht Hid.
    destruct (getMessages (clear db t) this statuses) as [|h l] eqn:E;
      [reflexivity|].
    assert (Hh : In h (getMessages (clear db t) this statuses))
      by (rewrite E; now left).
    apply getMessages_In in Hh. destruct Hh as [r [Hr [Hsub _]]].
    rewrite Hrows in Hr. apply filter_In in Hr. destruct Hr as [Hr Hkeep].
    apply negb_true_iff in Hkeep.
    destruct (Htopic r s Hr Hs) as [m [Hm [Hmid Hmt]]]; [congruence|].
    assert (Hany : any_eq (sm_message_id r)
                     (map m_id (filter (fun m => Nat.eqb (m_topic_id m)
                                                         (topicId t))
                                       (messages db))) = true).
    { apply any_eq_In. rewrite <- Hmid. apply in_map. apply filter_In.
      split; [exact Hm|]. apply Nat.eqb_eq. congruence. }
    congruence.
  - intros s other Hs Ht Hid.
    assert (Hkept : forall r, In r (subscription_messages db) ->
                      sm_subscription_id r = id other ->
                      exists m, In m (messages db)
                                /\ m_id m = sm_message_id r
                                /\ m_topic_id m <> topicId t).
    { intros r Hr Hsub.
      destruct (Htopic r s Hr Hs) as [m [Hm [Hmid Hmt]]]; [congruence|].
      exists m. repeat split; congruence. }
    apply same_view_of.
    + rewrite Hrows, filter_comm. apply filter_all. intros r Hr.
      apply filter_In in Hr. destruct Hr as [Hr Hsub].
      apply Nat.eqb_eq in Hsub.
      destruct (Hkept r Hr Hsub) as [m [Hm [Hmid Hmt]]].
      apply negb_true_iff.
      destruct (any_eq (sm_message_id r) _) eqn:Ea; [|reflexivity].
      apply any_eq_In in Ea. apply in_map_iff in Ea.
      destruct Ea as [m' [Hid' Hm']]. apply filter_In in Hm'.
      destruct Hm' as [Hm' Ht']. apply Nat.eqb_eq in Ht'.
      assert (m' = m)
        by (apply (NoDup_map_eq m_id (messages db));
            [exact Hpkm | assumption | assumption | congruence]).
      subst m'. contradiction.
    + intros r Hr Hsub. unfold left_join_message. f_equal.
      unfold find_message. rewrite Hmsgs. apply find_filter_keep.
      intros x Hx Hk. apply Nat.eqb_eq in Hk.
      destruct (Hkept r Hr Hsub) as [m [Hm [Hmid Hmt]]].
      assert (x = m)
        by (apply (NoDup_map_eq m_id (messages db));
            [exact Hpkm | assumption | assumption | congruence]).
      subst x. apply negb_true_iff. now apply Nat.eqb_neq.
    + reflexivity.
Qed.

(** ** Schedules *)

Section ScheduleProperties.
Variable cron_next : string -> timestamp -> timestamp.

Lemma find_other_key (k k' : uuid * string) f l :
  k <> k' ->
  (forall r, sc_key (f r) = sc_key r) ->
  find (sc_key_is k) (update_where (sc_key_is k') f l)
  = find (sc_key_is k) l.
Proof.
  intros Hneq Hf. induction l as [|r l IH]; simpl; [reflexivity|].
  destruct (sc_key_is k' r) eqn:E'.
  - assert (Ek : sc_key_is k (f r) = false).
    { destruct (sc_key_is k (f r)) eqn:E; [|reflexivity].
      apply sc_key_is_true in E, E'. rewrite Hf in E. congruence. }
    assert (Ek0 : sc_key_is k r = false).
    { destruct (sc_key_is k r) eqn:E; [|reflexivity].
      apply sc_key_is_true in E, E'. congruence. }
    rewrite Ek, Ek0. exact IH.
  - destruct (sc_key_is k r); [reflexivity | exact IH].
Qed.

Lemma schedule_row db topic n config data options now :
  find (sc_key_is (topicId topic, n))
       (scheduled_messages
          (schedule cron_next db topic n config data options now))
  = Some (mkScheduled (topicId topic) n data (cron config)
            (cron_next (cron config) now)
            (deliverInMs options) (deliverAt options)
            (priorityOption options) (repeats config)
            (match find (sc_key_is (topicId topic, n))
                        (scheduled_messages db) with
             | Some r => sc_repeats_made r
             | None => 0
             end)).
Proof.
  unfold schedule.
  change (existsb (fun r => Nat.eqb (sc_topic_id r) (topicId topic)
                            && String.eqb (sc_name r) n)
                  (scheduled_messages db))
    with (existsb (sc_key_is (topicId topic, n)) (scheduled_messages db)).
  change (update_where (fun r => Nat.eqb (sc_topic_id r) (topicId topic)
                                 && String.eqb (sc_name r) n))
    with (update_where (sc_key_is (topicId topic, n))).
  destruct (existsb (sc_key_is (topicId topic, n)) (scheduled_messages db))
    eqn:Eex.
  - simpl. rewrite find_update_where by (intros x; reflexivity).
    destruct (find (sc_key_is (topicId topic, n)) (scheduled_messages db))
      as [r|] eqn:Ef.
    + simpl. pose proof (find_some _ _ Ef) as [_ Hk].
      rewrite Hk. apply sc_key_is_true in Hk. unfold sc_key in Hk.
      injection Hk as Ht Hn. now rewrite Ht, Hn.
    + apply existsb_exists in Eex. destruct Eex as [x [Hx Hk]].
      pose proof (find_none _ _ Ef x Hx). congruence.
  - assert (Hnone : forall x, In x (scheduled_messages db) ->
                              sc_key_is (topicId topic, n) x = false)
      by (apply existsb_false; exact Eex).
    cbn [scheduled_messages set_scheduled].
    rewrite find_app_none by exact Hnone.
    cbn [find].
    match goal with
    | |- (if sc_key_is ?k ?r then _ else _) = _ =>
        replace (sc_key_is k r) with true
          by (symmetry; apply sc_key_is_true; reflexivity)
    end.
    destruct (find (sc_key_is (topicId topic, n)) (scheduled_messages db))
      as [r|] eqn:Ef; [|reflexivity].
    apply find_some in Ef. destruct Ef as [Hx Hk].
    rewrite (Hnone r Hx) in Hk. discriminate.
Qed.

(** X12. [Topic.schedule] is an upsert on (topic, name).  Afterwards the
    schedule of that name carries the payload, cron expression, delivery
    options, priority and repeat limit just given and the next occurrence
    after now, but [repeats_made] is the stored count when the name was
    already scheduled (0 when it is new); every other schedule is untouched,
    the key stays unique, and no message is written.  So a schedule that has
    used up its repeats stays exhausted when re-scheduled with the same
    limit. *)
Theorem X12_schedule_upserts :
  forall db topic n config data options now,
    let old := find (sc_key_is (topicId topic, n)) (scheduled_messages db) in
    let db' := schedule cron_next db topic n config data options now in
    let row := mkScheduled (topicId topic) n data (cron config)
                 (cron_next (cron config) now)
                 (deliverInMs options) (deliverAt options)
                 (priorityOption options) (repeats config)
                 (match old with
                  | Some r => sc_repeats_made r
                  | None => 0
                  end) in
    find (sc_key_is (topicId topic, n)) (scheduled_messages db') = Some row
    /\ (forall k, k <> (topicId topic, n) ->
          find (sc_key_is k) (scheduled_messages db')
          = find (sc_key_is k) (scheduled_messages db))
    /\ (NoDup (map sc_key (scheduled_messages db)) ->
        NoDup (map sc_key (scheduled_messages db')))
    /\ messages db' = messages db
    /\ subscription_messages db' = subscription_messages db
    /\ (forall r k later,
          old = Some r -> repeats config = Some k ->
          k <= sc_repeats_made r ->
          is_due later row = false).
Proof.
  intros db topic n config data options now old db' row.
  split; [apply schedule_row|].
  assert (Hlast : forall r k later,
            old = Some r -> repeats config = Some k ->
            k <= sc_repeats_made r -> is_due later row = false).
  { intros r0 k later Hr0 Hrep Hle. unfold is_due, row. simpl.
    rewrite Hrep, Hr0.
    replace (sc_repeats_made r0 <? k) with false
      by (symmetry; apply Z.ltb_ge; lia).
    apply andb_false_r. }
  unfold db', schedule.
  change (existsb (fun r => Nat.eqb (sc_topic_id r) (topicId topic)
                            && String.eqb (sc_name r) n)
                  (scheduled_messages db))
    with (existsb (sc_key_is (topicId topic, n)) (scheduled_messages db)).
  change (update_where (fun r => Nat.eqb (sc_topic_id r) (topicId topic)
                                 && String.eqb (sc_name r) n))
    with (update_where (sc_key_is (topicId topic, n))).
  destruct (existsb (sc_key_is (topicId topic, n)) (scheduled_messages db))
    eqn:Eex.
  - split; [|split; [|split; [reflexivity|split; [reflexivity|exact Hlast]]]].
    + intros k Hk. simpl. apply find_other_key; [exact Hk | reflexivity].
    + intros Hnd. simpl.
      rewrite update_where_keys; [assumption | reflexivity].
  - assert (Hnone : forall x, In x (scheduled_messages db) ->
                              sc_key_is (topicId topic, n) x = false)
      by (apply existsb_false; exact Eex).
    split; [|split; [|split; [reflexivity|split; [reflexivity|exact Hlast]]]].
    + intros k Hk. simpl.
      destruct (find (sc_key_is k) (scheduled_messages db)) as [x|] eqn:Ef.
      * now apply find_app_some.
      * rewrite find_app_none by (apply find_none; exact Ef). simpl.
        destruct (sc_key_is k _) eqn:E; [|reflexivity].
        apply sc_key_is_true in E. unfold sc_key in E. simpl in E.
        congruence.
    + intros Hnd. simpl. rewrite map_app. simpl.
      apply NoDup_app; [assumption | |].
      * repeat constructor. intros [].
      * intros k Hk [<- | []]. apply in_map_iff in Hk.
        destruct Hk as [x [Ek Hx]].
        assert (sc_key_is (topicId topic, n) x = true)
          by (apply sc_key_is_true; exact Ek).
        rewrite (Hnone x Hx) in H. discriminate.
Qed.

(** X13. [ScheduledMessage.remove()] deletes the schedule of that topic
    and name and no other: it is not found and never due afterwards, the
    other schedules are due exactly when they were, and scheduling the name
    again starts a new schedule whose repeats count from 0. *)
Theorem X13_removed_schedule_is_forgotten :
  forall db this,
    find (sc_key_is (sc_key this))
         (scheduled_messages (removeScheduled db this)) = None
    /\ (forall k, k <> sc_key this ->
          find (sc_key_is k) (scheduled_messages (removeScheduled db this))
          = find (sc_key_is k) (scheduled_messages db))
    /\ (forall now,
          due_rows (removeScheduled db this) now
          = filter (fun r => negb (sc_key_is (sc_key this) r))
                   (due_rows db now))
    /\ (forall now, fires (sc_key this) (removeScheduled db this) now = 0%nat)
    /\ messages (removeScheduled db this) = messages db
    /\ (forall topic config data options now,
          topicId topic = sc_topic_id this ->
          exists row,
            find (sc_key_is (sc_key this))
                 (scheduled_messages
                    (schedule cron_next (removeScheduled db this) topic
                       (sc_name this) config data options now))
            = Some row
            /\ sc_repeats_made row = 0
            /\ sc_repeats row = repeats config).
Proof.
  intros db this.
  assert (Hrows : scheduled_messages (removeScheduled db this)
                  = filter (fun r => negb (sc_key_is (sc_key this) r))
                           (scheduled_messages db)) by reflexivity.
  assert (Hnone : find (sc_key_is (sc_key this))
                       (scheduled_messages (removeScheduled db this)) = None).
  { destruct (find _ _) as [r|] eqn:Ef; [|reflexivity].
    apply find_some in Ef. destruct Ef as [Hr Hk].
    rewrite Hrows in Hr. apply filter_In in Hr. destruct Hr as [_ Hr].
    rewrite Hk in Hr. discriminate. }
  split; [exact Hnone|]. split; [|split; [|split; [|split]]].
  - intros k Hk. rewrite Hrows. apply find_filter_keep.
    intros x _ Hx. apply negb_true_iff.
    destruct (sc_key_is (sc_key this) x) eqn:E; [|reflexivity].
    apply sc_key_is_true in E, Hx. congruence.
  - intros now. unfold due_rows. rewrite Hrows. apply filter_comm.
  - intros now. unfold fires, due_rows. rewrite Hrows.
    rewrite filter_none; [reflexivity|].
    intros x Hx. apply filter_In in Hx. destruct Hx as [Hx _].
    apply filter_In in Hx. destruct Hx as [_ Hx].
    now apply negb_true_iff in Hx.
  - reflexivity.
  - intros topic config data options now Ht.
    pose proof (schedule_row (removeScheduled db this) topic
                  (sc_name this) config data options now) as Hrow.
    unfold sc_key in Hnone |- *. rewrite <- Ht in Hnone |- *.
    rewrite Hnone in Hrow. eexists. split; [exact Hrow|].
    split; reflexivity.
Qed.

End ScheduleProperties.

(** ** Sending in bulk *)

Lemma map_snd_combine {A B} (l : list A) :
  forall l' : list B,
    List.length l = List.length l' -> map snd (combine l l') = l'.
Proof.
  induction l as [|a l IH]; intros [|b l'] H; simpl in *;
    try discriminate; [reflexivity|].
  f_equal. apply IH. now injection H.
Qed.

Lemma insert_sorted_app {A} (leb : A -> A -> bool) x l r :
  (forall y, In y r -> leb x y = true) ->
  insert_sorted leb x (l ++ r) = insert_sorted leb x l ++ r.
Proof.
  intros H. induction l as [|a l IH]; simpl.
  - destruct r as [|y r]; [reflexivity|]. simpl.
    now rewrite (H y) by now left.
  - destruct (leb x a); [reflexivity|]. simpl. now rewrite IH.
Qed.

Lemma order_by_app_sorted {A} (leb : A -> A -> bool) l r :
  (forall x y, In x l -> In y r -> leb x y = true) ->
  order_by leb r = r ->
  order_by leb (l ++ r) = order_by leb l ++ r.
Proof.
  intros H Hr. induction l as [|a l IH]; simpl; [exact Hr|].
  rewrite IH by (intros x y Hx Hy; apply H; [now right | exact Hy]).
  apply insert_sorted_app. intros y Hy. apply H; [now left | exact Hy].
Qed.

Lemma order_by_sorted_id {A} (leb : A -> A -> bool) l :
  Sorted (fun a b => leb a b = true) l -> order_by leb l = l.
Proof.
  induction 1 as [|x l Hs IH Hhd]; simpl; [reflexivity|].
  rewrite IH. destruct Hhd as [|y l' Hxy]; simpl; [reflexivity|].
  now rewrite Hxy.
Qed.

Lemma Sorted_of_seq {A} (f : A -> nat) l :
  forall g, map f l = seq g (List.length l) ->
            Sorted (fun a b => Nat.leb (f a) (f b) = true) l.
Proof.
  induction l as [|a l IH]; intros g H; [constructor|].
  simpl in H. injection H as Ha Hl. constructor; [now apply (IH (S g))|].
  destruct l as [|b l]; constructor. simpl in Hl. injection Hl as Hb _.
  apply Nat.leb_le. lia.
Qed.

Lemma sendBulk_listing g db topic data options now db1 rows :
  fresh g db ->
  sendBulk g db topic data options now = Ok (db1, rows) ->
  map m_data rows = data
  /\ map m_id rows = v7_ids g (List.length data)
  /\ (forall m, In m rows ->
        m_topic_id m = topicId topic /\ m_created_at m = now
        /\ m_deliver_at m = effective_deliver_at options now
        /\ m_priority m = priorityOption options)
  /\ topic_getMessages db1 topic = topic_getMessages db topic ++ rows
  /\ (forall other, topicId other <> topicId topic ->
        topic_getMessages db1 other = topic_getMessages db other).
Proof.
  intros Hfresh H. unfold sendBulk in H.
  destruct (insertMessages_Ok _ _ _ _ _ _ _ _ H)
    as [Hrows [_ [_ [_ [Hmsgs _]]]]].
  assert (Hids : map m_id rows = v7_ids g (List.length data))
    by (rewrite Hrows; apply new_message_rows_ids).
  assert (Hlen : List.length rows = List.length data).
  { rewrite <- (length_map m_id), Hids. unfold v7_ids. apply length_seq. }
  assert (Hcols : forall m, In m rows ->
            m_topic_id m = topicId topic /\ m_created_at m = now
            /\ m_deliver_at m = effective_deliver_at options now
            /\ m_priority m = priorityOption options).
  { intros m Hm. rewrite Hrows in Hm. unfold new_message_rows in Hm.
    apply in_map_iff in Hm. destruct Hm as [p [<- _]]. simpl. auto. }
  split; [|split; [exact Hids|split; [exact Hcols|split]]].
  - rewrite Hrows. unfold new_message_rows. rewrite map_map. simpl.
    change (fun x : uuid * JSONValue => snd x) with (@snd uuid JSONValue).
    apply map_snd_combine. unfold v7_ids. apply length_seq.
  - unfold topic_getMessages. rewrite Hmsgs, filter_app.
    rewrite (filter_all _ rows)
      by (intros m Hm; apply Nat.eqb_eq; now apply Hcols).
    apply order_by_app_sorted.
    + intros x y Hx Hy. apply filter_In in Hx. destruct Hx as [Hx _].
      apply Nat.leb_le. specialize (Hfresh x Hx).
      assert (In (m_id y) (v7_ids g (List.length data)))
        by (rewrite <- Hids; now apply in_map).
      unfold v7_ids in H0. apply in_seq in H0. lia.
    + apply order_by_sorted_id.
      apply (Sorted_of_seq m_id rows g). now rewrite Hlen.
  - intros other Hneq. unfold topic_getMessages. rewrite Hmsgs, filter_app.
    rewrite (filter_none _ rows); [now rewrite app_nil_r|].
    intros m Hm. apply Nat.eqb_neq. destruct (Hcols m Hm) as [-> _].
    congruence.
Qed.

(** X14. [sendBulk] stores one message per payload, in the order of the
    payloads: the returned messages carry the payloads in order, with
    ascending ids, the topic, the creation time and the delivery options of
    the call, and [Topic.getMessages] lists them, in that order, after all
    the messages the topic had; the listing of every other topic is
    unchanged.  [send] is the case of one payload and returns its
    message. *)
Theorem X14_send_then_list :
  forall g db topic data options now db1 rows,
    fresh g db ->
    sendBulk g db topic data options now = Ok (db1, rows) ->
    map m_data rows = data
    /\ map m_id rows = v7_ids g (List.length data)
    /\ (forall m, In m rows ->
          m_topic_id m = topicId topic /\ m_created_at m = now
          /\ m_deliver_at m = effective_deliver_at options now
          /\ m_priority m = priorityOption options)
    /\ topic_getMessages db1 topic = topic_getMessages db topic ++ rows
    /\ (forall other, topicId other <> topicId topic ->
          topic_getMessages db1 other = topic_getMessages db other)
    /\ (forall d db2 sent,
          send g db topic d options now = Ok (db2, sent) ->
          exists m, sent = Some m /\ m_data m = d /\ m_id m = g
                    /\ topic_getMessages db2 topic
                       = topic_getMessages db topic ++ [m]).
Proof.
  intros g db topic data options now db1 rows Hfresh H.
  destruct (sendBulk_listing _ _ _ _ _ _ _ _ Hfresh H)
    as [H1 [H2 [H3 [H4 H5]]]].
  repeat (split; [assumption|]).
  intros d db2 sent Hsend. unfold send in Hsend.
  destruct (insertMessages g db (topicId topic) [d] options now)
    as [[db' ms]|e] eqn:E; [|discriminate].
  injection Hsend as <- <-.
  destruct (sendBulk_listing g db topic [d] options now db' ms Hfresh E)
    as [Hd [Hi [_ [Hl _]]]].
  destruct ms as [|m [|m' ms]]; try discriminate.
  exists m. simpl in Hd, Hi. injection Hd as Hd. injection Hi as Hi.
  repeat split; assumption.
Qed.

(** ** From a bulk send to a reservation *)

Lemma find_unique {A} (f : A -> nat) l x :
  NoDup (map f l) -> In x l ->
  find (fun y => Nat.eqb (f y) (f x)) l = Some x.
Proof.
  intros Hnd Hin. induction l as [|a l IH]; [destruct Hin|].
  simpl in Hnd. apply NoDup_cons_iff in Hnd. destruct Hnd as [Hnin Hnd].
  simpl. destruct Hin as [-> | Hin].
  - now rewrite Nat.eqb_refl.
  - destruct (Nat.eqb (f a) (f x)) eqn:E; [|now apply IH].
    apply Nat.eqb_eq in E. exfalso. apply Hnin. rewrite E.
    now apply in_map.
Qed.

Lemma fan_out_of_one_subscription sid later d (M : list MessageRow) :
  match d with Some t => t <= later | None => True end ->
  forall S : list SubscriptionRow,
    NoDup (map s_id S) ->
    (exists s, In s S /\ s_id s = sid) ->
    filter (is_candidate sid later)
      (flat_map (fun s => map (fun m => default_sm (s_id s) (m_id m) d) M) S)
    = map (fun m => default_sm sid (m_id m) d) M.
Proof.
  intros Hd.
  assert (Hother : forall S : list SubscriptionRow,
            (forall s, In s S -> s_id s <> sid) ->
            filter (is_candidate sid later)
              (flat_map (fun s => map (fun m => default_sm (s_id s) (m_id m) d)
                                      M) S) = []).
  { intros S HS. apply filter_none. intros r Hr. apply in_flat_map in Hr.
    destruct Hr as [s [Hs Hr]]. apply in_map_iff in Hr.
    destruct Hr as [m [<- _]]. unfold is_candidate. simpl.
    replace (Nat.eqb (s_id s) sid) with false; [reflexivity|].
    symmetry. apply Nat.eqb_neq. now apply HS. }
  induction S as [|s0 S IH]; intros Hnd [s [Hs Hid]]; [destruct Hs|].
  simpl in Hnd. apply NoDup_cons_iff in Hnd. destruct Hnd as [Hnin Hnd].
  simpl. rewrite filter_app.
  destruct (Nat.eq_dec (s_id s0) sid) as [E|E].
  - rewrite Hother.
    + rewrite app_nil_r, E. apply filter_all. intros r Hr.
      apply in_map_iff in Hr. destruct Hr as [m [<- _]].
      apply is_candidate_true. simpl. split; [reflexivity|].
      split; [reflexivity|]. destruct d as [t|]; [right; eauto | now left].
    + intros s' Hs' Heq. apply Hnin. rewrite E, <- Heq. now apply in_map.
  - rewrite filter_none.
    + simpl. apply IH; [exact Hnd|]. exists s. split; [|exact Hid].
      destruct Hs as [-> | Hs]; [contradiction | exact Hs].
    + intros r Hr. apply in_map_iff in Hr. destruct Hr as [m [<- _]].
      unfold is_candidate. simpl. apply Nat.eqb_neq in E. now rewrite E.
Qed.

Lemma priority_self p :
  priority_ltb p p = false /\ priority_eqb p p = true.
Proof.
  destruct p as [a|]; simpl; [|auto].
  split; [apply Z.ltb_irrefl | apply Z.eqb_refl].
Qed.

Lemma fresh_rows_sorted sid d p (rows : list MessageRow) :
  forall g,
    map m_id rows = seq g (List.length rows) ->
    (forall m, In m rows -> m_priority m = p) ->
    Sorted (fun a b => order_leb a b = true)
      (map (fun m => (default_sm sid (m_id m) d, Some m)) rows).
Proof.
  induction rows as [|a rows IH]; intros g Hids Hp; [constructor|].
  simpl in Hids. injection Hids as Ha Hrest. simpl. constructor.
  - apply (IH (S g)); [exact Hrest|]. intros m Hm. apply Hp. now right.
  - destruct rows as [|b rows]; constructor.
    simpl in Hrest. injection Hrest as Hb _.
    unfold order_leb, joined_priority, joined_id. simpl.
    rewrite (Hp a) by now left. rewrite (Hp b) by (right; now left).
    destruct (priority_self p) as [-> ->]. simpl.
    apply Nat.leb_le. lia.
Qed.

Lemma candidates_after_bulk g db topic payloads options now db1 rows s sid
    later :
  schema_core db -> fresh g db ->
  sendBulk g db topic payloads options now = Ok (db1, rows) ->
  In s (subscriptions db) -> s_topic_id s = topicId topic -> s_id s = sid ->
  candidates db sid later = [] ->
  match effective_deliver_at options now with
  | Some t => t <= later
  | None => True
  end ->
  candidates db1 sid later
  = map (fun m => (default_sm sid (m_id m) (effective_deliver_at options now),
                   Some m)) rows.
Proof.
  intros [Hpkm [Hpk [Hfk Hsid]]] Hfresh H Hs Htopic Hid Hempty Hdue.
  destruct (sendBulk_listing _ _ _ _ _ _ _ _ Hfresh H)
    as [_ [Hids [Hcols _]]].
  unfold sendBulk in H.
  destruct (insertMessages_Ok _ _ _ _ _ _ _ _ H)
    as [_ [_ [_ [Hsubs [Hmsgs [Hnew Hins]]]]]].
  apply insert_subscription_messages_Ok in Hins. destruct Hins as [Hsm _].
  assert (Hlen : List.length rows = List.length payloads).
  { rewrite <- (length_map m_id), Hids. unfold v7_ids. apply length_seq. }
  assert (Hnd : NoDup (map m_id rows))
    by (rewrite Hids; unfold v7_ids; apply seq_NoDup).
  assert (Hold : filter (is_candidate sid later) (subscription_messages db)
                 = []).
  { apply length_zero_iff_nil.
    rewrite <- (length_map (left_join_message db)),
            <- (order_by_length order_leb).
    fold (candidates db sid later). now rewrite Hempty. }
  assert (HM : filter (fun m => Nat.eqb (m_topic_id m) (topicId topic)
                                && any_eq (m_id m)
                                     (v7_ids g (List.length payloads)))
                      (messages db ++ rows) = rows).
  { rewrite filter_app, filter_none, filter_all; [reflexivity| |].
    - intros m Hm. apply andb_true_iff. split.
      + apply Nat.eqb_eq. now apply Hcols.
      + apply any_eq_In. rewrite <- Hids. now apply in_map.
    - intros m Hm. apply andb_false_iff. right.
      destruct (any_eq (m_id m) _) eqn:E; [|reflexivity].
      apply any_eq_In in E. destruct (Hnew m Hm E). }
  unfold candidates. rewrite Hsm, filter_app, Hold. simpl.
  unfold fan_out_rows. simpl. rewrite HM.
  rewrite (fan_out_of_one_subscription sid later _ rows Hdue).
  - rewrite map_map.
    rewrite (map_ext_in _
               (fun m => (default_sm sid (m_id m)
                            (effective_deliver_at options now), Some m))).
    + apply order_by_sorted_id.
      apply (fresh_rows_sorted sid _ (priorityOption options) rows g).
      * now rewrite Hlen.
      * intros m Hm. now apply Hcols.
    + intros m Hm. unfold left_join_message, find_message. simpl.
      rewrite Hmsgs. f_equal.
      rewrite find_app_none.
      * apply (find_unique m_id rows m); [exact Hnd | exact Hm].
      * intros x Hx. apply Nat.eqb_neq. intros Heq.
        apply (Hnew x Hx). rewrite Heq, <- Hids. now apply in_map.
  - now apply NoDup_map_filter.
  - exists s. split; [|exact Hid]. apply filter_In. split; [exact Hs|].
    now apply Nat.eqb_eq.
Qed.

(** X15. Messages sent together are delivered in the order sent.  When a
    subscription of the topic has nothing deliverable and its gate is
    open, then after a [sendBulk] whose delay (if any) has passed, the next
    [getNextMessages(count)] returns the first payloads of the batch, in
    order: the first one on a sequential subscription, the first [count] on
    a parallel one, each on its first attempt. *)
Theorem X15_bulk_is_delivered_in_order :
  forall g db topic payloads options now db1 rows s this count later,
    schema_core db -> fresh g db ->
    sendBulk g db topic payloads options now = Ok (db1, rows) ->
    In s (subscriptions db) -> s_topic_id s = topicId topic ->
    id this = s_id s -> s_processing s = false ->
    candidates db (id this) later = [] ->
    match effective_deliver_at options now with
    | Some t => t <= later
    | None => True
    end ->
    0 < count ->
    exists db2 batch,
      getNextMessages db1 this count later = Ok (db2, batch)
      /\ map data batch = firstn (reservation_limit this count) payloads
      /\ map msg_id batch
         = firstn (reservation_limit this count)
                  (v7_ids g (List.length payloads))
      /\ forall h, In h batch -> attempts h = 1 /\ status h = processing.
Proof.
  intros g db topic payloads options now db1 rows s this count later
         Hschema Hfresh H Hs Htopic Hid Hgate Hempty Hdue Hpos.
  pose proof (candidates_after_bulk g db topic payloads options now db1 rows
                s (id this) later Hschema Hfresh H Hs Htopic
                (eq_sym Hid) Hempty Hdue) as Hcand.
  destruct (sendBulk_listing _ _ _ _ _ _ _ _ Hfresh H)
    as [Hdata [Hids _]].
  destruct Hschema as [_ [_ [_ Hsid]]].
  assert (Hrun : getNextMessages db1 this count later
                 = Ok (reserve_batch db1 this count later)).
  { unfold getNextMessages.
    replace (count <=? 0) with false by (symmetry; apply Z.leb_gt; lia).
    destruct (consumptionMode this); [|reflexivity].
    unfold sendBulk in H.
    destruct (insertMessages_Ok _ _ _ _ _ _ _ _ H)
      as [_ [_ [_ [Hsubs _]]]].
    unfold find_subscription. rewrite Hsubs, Hid.
    rewrite (find_unique s_id (subscriptions db) s Hsid Hs).
    now rewrite Hgate. }
  destruct (reserve_batch db1 this count later) as [db2 batch] eqn:E.
  exists db2, batch. split; [exact Hrun|].
  pose proof (reserve_batch_handles db1 this count later) as Hh.
  rewrite E in Hh. change (snd (db2, batch)) with batch in Hh.
  rewrite Hcand in Hh. rewrite Hh.
  split; [|split].
  - rewrite <- Hdata, firstn_map, firstn_map, !map_map. reflexivity.
  - rewrite <- Hids, firstn_map, firstn_map, !map_map. reflexivity.
  - intros h Hin. apply in_map_iff in Hin. destruct Hin as [j [<- Hj]].
    apply firstn_incl_In in Hj. apply in_map_iff in Hj.
    destruct Hj as [m [<- _]]. split; reflexivity.
Qed.

(** ** A consumer drains its subscription *)

Lemma filter_update_where_off_in {A} (p c : A -> bool) (f : A -> A) l :
  (forall r, In r l -> c r = true -> p r = false /\ p (f r) = false) ->
  filter p (update_where c f l) = filter p l.
Proof.
  intros H. unfold update_where.
  induction l as [|r l IH]; simpl; [reflexivity|].
  assert (IH' : filter p (map (fun r => if c r then f r else r) l)
                = filter p l)
    by (apply IH; intros x Hx; apply H; now right).
  destruct (c r) eqn:Ec.
  - destruct (H r (or_introl eq_refl) Ec) as [-> ->]. exact IH'.
  - destruct (p r); now rewrite IH'.
Qed.

Lemma update_where_twice {A} (c : A -> bool) (f g : A -> A) l :
  (forall r, c (f r) = c r) ->
  update_where c g (update_where c f l)
  = update_where c (fun r => g (f r)) l.
Proof.
  intros H. unfold update_where. rewrite map_map. apply map_ext.
  intros r. destruct (c r) eqn:E; [now rewrite H, E | now rewrite E].
Qed.

Lemma update_where_id {A} (c : A -> bool) l :
  update_where c (fun r => r) l = l.
Proof.
  unfold update_where. rewrite <- (map_id l) at 2. apply map_ext.
  intros r. now destruct (c r).
Qed.

Lemma run_updates_spec values :
  forall db message db' message' events,
    run_updates db message values = (db', message', events) ->
    events = map (EvProgress (msg_id message)) values
    /\ msg_id message' = msg_id message
    /\ subscription message' = subscription message
    /\ attempts message' = attempts message
    /\ messages db' = messages db
    /\ subscriptions db' = subscriptions db
    /\ exists F,
         (forall r, sm_subscription_id (F r) = sm_subscription_id r
                    /\ sm_message_id (F r) = sm_message_id r
                    /\ sm_status (F r) = sm_status r)
         /\ subscription_messages db'
            = update_where
                (sm_key_is (id (subscription message)) (msg_id message)) F
                (subscription_messages db).
Proof.
  induction values as [|v rest IH]; intros db message db' message' events H.
  - simpl in H. injection H as <- <- <-.
    repeat (split; [reflexivity|]).
    exists (fun r => r). split; [intros r; auto|].
    symmetry. apply update_where_id.
  - simpl in H.
    destruct (run_updates (update_own_row db message _) _ rest)
      as [[db2 message2] events2] eqn:E.
    injection H as <- <- <-.
    apply IH in E.
    destruct E as [Hev [Hid [Hsub [Hatt [Hm [Hs [F [HF Hrows]]]]]]]].
    simpl in Hev, Hid, Hsub, Hatt, Hm, Hs, Hrows.
    split; [simpl; now rewrite Hev|].
    repeat (split; [assumption|]).
    exists (fun r => F (mkSM (sm_subscription_id r) (sm_message_id r)
                             (sm_status r) (sm_attempts r)
                             (sm_available_at r) (sm_error_stack r)
                             (sm_last_heartbeat_at r) (json_param v)
                             (sm_stale_count r))).
    split.
    + intros r. destruct (HF (mkSM (sm_subscription_id r) (sm_message_id r)
                                   (sm_status r) (sm_attempts r)
                                   (sm_available_at r) (sm_error_stack r)
                                   (sm_last_heartbeat_at r) (json_param v)
                                   (sm_stale_count r))) as [H1 [H2 H3]].
      simpl in H1, H2, H3. repeat split; assumption.
    + rewrite Hrows. apply update_where_twice. intros r. reflexivity.
Qed.

Lemma processMessage_spec handler db message now db' events :
  processMessage handler db message now = Ok (db', events) ->
  thrown (handler message) = None
  \/ maxAttempts (subscription message) <= attempts message ->
  events = message_events handler message
  /\ messages db' = messages db
  /\ subscriptions db'
     = match consumptionMode (subscription message) with
       | sequential =>
           update_where
             (fun s => Nat.eqb (s_id s) (id (subscription message)))
             (set_processing false) (subscriptions db)
       | parallel => subscriptions db
       end
  /\ exists G,
       (forall r, sm_subscription_id (G r) = sm_subscription_id r
                  /\ sm_message_id (G r) = sm_message_id r
                  /\ sm_status (G r) <> waiting)
       /\ subscription_messages db'
          = update_where
              (sm_key_is (id (subscription message)) (msg_id message)) G
              (subscription_messages db).
Proof.
  intros H Hfinal. unfold processMessage in H.
  destruct (run_updates db message (updates (handler message)))
    as [[db1 message1] progressed] eqn:E.
  apply run_updates_spec in E.
  destruct E as [Hev [Hid [Hsub [Hatt [Hm [Hs [F [HF Hrows]]]]]]]].
  unfold message_events.
  destruct (thrown (handler message)) as [error|] eqn:Ethrown.
  - destruct Hfinal as [Hn | Hlast]; [discriminate|].
    assert (Hst : (attempts message1 >=? maxAttempts (subscription message1))
                  = true) by (rewrite Hsub, Hatt; apply Z.geb_le; lia).
    destruct (fail db1 message1 error now) as [[db2 message2]|e] eqn:Hfail;
      [|discriminate].
    destruct (fail_Ok _ _ _ _ _ _ Hfail) as [av [_ [Hdb2 Hm2]]].
    rewrite Hst in Hdb2, Hm2. subst db2 message2. clear Hfail.
    assert (HG : exists G,
              (forall r, sm_subscription_id (G r) = sm_subscription_id r
                         /\ sm_message_id (G r) = sm_message_id r
                         /\ sm_status (G r) <> waiting)
              /\ subscription_messages
                   (update_own_row db1 message1
                      (set_outcome failed av (stack error)))
                 = update_where
                     (sm_key_is (id (subscription message)) (msg_id message))
                     G (subscription_messages db)).
    { exists (fun r => set_outcome failed av (stack error) (F r)).
      split.
      - intros r. destruct (HF r) as [H1 [H2 _]]. simpl.
        repeat split; try assumption. discriminate.
      - unfold update_own_row. simpl. rewrite Hsub, Hid, Hrows.
        apply update_where_twice. intros r. destruct (HF r) as [H1 [H2 _]].
        unfold sm_key_is. now rewrite H1, H2. }
    destruct (consumptionMode (subscription message1)) eqn:Emode;
      rewrite Hsub in Emode; rewrite Emode; injection H as <- <-;
      (split; [simpl; rewrite Hev, ?Hid; reflexivity|]);
      (split; [exact Hm|]);
      (split; [simpl; rewrite ?Hsub, ?Hs; reflexivity|]); exact HG.
  - unfold complete, completeMessage in H.
    assert (HG : exists G,
              (forall r, sm_subscription_id (G r) = sm_subscription_id r
                         /\ sm_message_id (G r) = sm_message_id r
                         /\ sm_status (G r) <> waiting)
              /\ subscription_messages
                   (update_own_row db1 message1 (set_status completed))
                 = update_where
                     (sm_key_is (id (subscription message)) (msg_id message))
                     G (subscription_messages db)).
    { exists (fun r => set_status completed (F r)). split.
      - intros r. destruct (HF r) as [H1 [H2 _]]. simpl.
        repeat split; try assumption. discriminate.
      - unfold update_own_row. simpl. rewrite Hsub, Hid, Hrows.
        apply update_where_twice. intros r. destruct (HF r) as [H1 [H2 _]].
        unfold sm_key_is. now rewrite H1, H2. }
    destruct (consumptionMode (subscription message1)) eqn:Emode;
      rewrite Hsub in Emode; rewrite Emode; injection H as <- <-;
      (split; [simpl; rewrite Hev, ?Hid; reflexivity|]);
      (split; [exact Hm|]);
      (split; [simpl; rewrite ?Hsub, ?Hs; reflexivity|]); exact HG.
Qed.

(** With a handler whose failure is final for the message, the consumer's
    call of [fail] computes no retry time, so processing returns. *)
Lemma processMessage_returns handler db message now :
  thrown (handler message) = None
  \/ maxAttempts (subscription message) <= attempts message ->
  exists db' events,
    processMessage handler db message now = Ok (db', events).
Proof.
  intros Hfinal. unfold processMessage.
  destruct (run_updates db message (updates (handler message)))
    as [[db1 message1] progressed] eqn:E.
  apply run_updates_spec in E.
  destruct E as [_ [_ [Hsub [Hatt _]]]].
  destruct (thrown (handler message)) as [error|].
  - destruct Hfinal as [Hn | Hlast]; [discriminate|].
    assert (Hav : date_param (retry_available_at message1 now) = Ok None).
    { rewrite retry_available_at_last; [reflexivity|].
      rewrite Hsub, Hatt. exact Hlast. }
    destruct (fail_returns db1 message1 error now None Hav) as [db2 ->].
    eauto.
  - destruct (complete db1 message1) as [db2 message2]. eauto.
Qed.

Lemma open_gate_reserves db this now :
  at_rest db this ->
  getNextMessages db this 1 now = Ok (reserve_batch db this 1 now).
Proof.
  intros [_ [_ Hgate]]. unfold getNextMessages. simpl.
  destruct (consumptionMode this); [|reflexivity].
  destruct (Hgate eq_refl) as [s [-> ->]]. reflexivity.
Qed.

Lemma reservation_limit_one this : reservation_limit this 1 = 1%nat.
Proof.
  unfold reservation_limit. now destruct (consumptionMode this).
Qed.

Lemma drain_round handler this db j rest polledAt endedAt t0 :
  at_rest db this -> failure_is_final handler db this ->
  candidates db (id this) t0 = j :: rest ->
  exists db1 db2,
    getNextMessages db this 1 polledAt
    = Ok (db1, [reserved_handle this polledAt j])
    /\ processMessage handler db1 (reserved_handle this polledAt j) endedAt
       = Ok (db2, message_events handler (reserved_handle this polledAt j))
    /\ at_rest db2 this /\ failure_is_final handler db2 this
    /\ candidates db2 (id this) t0 = rest
    /\ messages db2 = messages db.
Proof.
  intros Hrest Hfinal Hcand.
  pose proof Hrest as [Hpk [Hnd Hgate]].
  assert (Hcand' : candidates db (id this) polledAt = j :: rest)
    by (rewrite (candidates_no_delays db (id this) polledAt t0 Hnd);
        exact Hcand).
  (* the reservation *)
  destruct (reserve_batch db this 1 polledAt) as [db1 batch] eqn:E.
  pose proof (reserve_batch_handles db this 1 polledAt) as Hh.
  pose proof (reserve_batch_rows db this 1 polledAt) as [Hrows1 Hmsgs1].
  pose proof (reserve_batch_keeps_pk db this 1 polledAt Hpk) as Hpk1.
  pose proof (reserve_batch_keeps_no_delays db this 1 polledAt Hnd) as Hnd1.
  pose proof (candidates_after_reserve db this 1 polledAt t0) as Hc1.
  rewrite reservation_limit_one, Hcand' in Hh, Hrows1, Hc1.
  rewrite Hcand in Hc1.
  rewrite E in Hh, Hrows1, Hmsgs1, Hpk1, Hnd1, Hc1.
  cbn [fst snd firstn map] in Hh, Hrows1, Hmsgs1, Hpk1, Hnd1, Hc1.
  assert (Hc1' : candidates db1 (id this) t0 = rest).
  { rewrite Hc1.
    pose proof (filter_not_firstn joined_id (candidates db (id this) t0)
                  (candidates_ids_NoDup db (id this) t0 Hpk) 1%nat) as Hskip.
    rewrite Hcand in Hskip.
    change (firstn 1 (j :: rest)) with [j] in Hskip.
    change (skipn 1 (j :: rest)) with rest in Hskip.
    exact Hskip. }
  assert (Hsubs1 : subscriptions db1
                   = match consumptionMode this with
                     | sequential =>
                         update_where (fun s => Nat.eqb (s_id s) (id this))
                                      (set_processing true) (subscriptions db)
                     | parallel => subscriptions db
                     end).
  { unfold reserve_batch in E.
    rewrite reservation_limit_one, Hcand' in E. cbn [firstn] in E.
    injection E as <- _. now destruct (consumptionMode this). }
  assert (Hj : exists r0, In r0 (subscription_messages db)
                          /\ is_candidate (id this) t0 r0 = true
                          /\ j = left_join_message db r0).
  { apply candidates_In. rewrite Hcand. now left. }
  destruct Hj as [r0 [Hr0 [Hcand0 Hj]]].
  pose proof Hcand0 as Hc0. apply is_candidate_true in Hc0.
  destruct Hc0 as [Hsub0 [Hst0 _]].
  (* the handler and the conclusion *)
  assert (Hlast : thrown (handler (reserved_handle this polledAt j)) = None
                  \/ maxAttempts (subscription
                                    (reserved_handle this polledAt j))
                     <= attempts (reserved_handle this polledAt j)).
  { destruct Hfinal as [Hnever | Hlast]; [left; apply Hnever|].
    right. simpl. rewrite Hj. simpl. now apply Hlast. }
  destruct (processMessage_returns handler db1
              (reserved_handle this polledAt j) endedAt Hlast)
    as [db2 [events Ep]].
  destruct (processMessage_spec _ _ _ _ _ _ Ep Hlast)
    as [Hev [Hmsgs2 [Hsubs2 [G [HG Hrows2]]]]].
  cbn [subscription msg_id reserved_handle] in Hsubs2, Hrows2.
  assert (Hkey1 : forall r, In r (subscription_messages db1) ->
                    sm_key_is (id this) (joined_id j) r = true ->
                    sm_status r = processing).
  { intros r Hr Hk. rewrite Hrows1 in Hr. apply update_where_In in Hr.
    destruct Hr as [r' [Hr' ->]].
    destruct (Nat.eqb (sm_subscription_id r') (id this)
              && any_eq (sm_message_id r') [joined_id j]) eqn:Ec;
      [reflexivity|].
    apply sm_key_is_true in Hk. destruct Hk as [Hks Hkm].
    rewrite Hks, Nat.eqb_refl in Ec. simpl in Ec.
    rewrite Hkm, Nat.eqb_refl in Ec. discriminate. }
  assert (Hwaiting2 : forall r, In r (subscription_messages db2) ->
                        sm_status r = waiting ->
                        In r (subscription_messages db)).
  { intros r Hr Hw. rewrite Hrows2 in Hr. apply update_where_In in Hr.
    destruct Hr as [r1 [Hr1 ->]].
    destruct (sm_key_is (id this) (joined_id j) r1).
    - destruct (HG r1) as [_ [_ Hne]]. contradiction.
    - rewrite Hrows1 in Hr1. apply update_where_In in Hr1.
      destruct Hr1 as [r' [Hr' ->]].
      destruct (Nat.eqb (sm_subscription_id r') (id this)
                && any_eq (sm_message_id r') [joined_id j]);
        [discriminate Hw | exact Hr']. }
  exists db1, db2. split; [|split; [|split; [|split; [|split]]]].
  - rewrite (open_gate_reserves db this polledAt Hrest), E, Hh. reflexivity.
  - now rewrite Ep, Hev.
  - split; [|split].
    + unfold pk_subscription_messages. rewrite Hrows2.
      rewrite update_where_keys; [exact Hpk1|].
      intros r. destruct (HG r) as [H1 [H2 _]]. unfold sm_key.
      now rewrite H1, H2.
    + intros r Hr Hs Hw. apply (Hnd r); [|exact Hs|exact Hw].
      now apply Hwaiting2.
    + intros Hseq. rewrite Hseq in Hsubs1, Hsubs2.
      destruct (Hgate Hseq) as [s [Hfind _]].
      unfold find_subscription in *. rewrite Hsubs2, Hsubs1.
      rewrite !find_update_where by (intros x; reflexivity).
      rewrite Hfind. simpl.
      pose proof (find_some _ _ Hfind) as [_ Hid]. rewrite Hid. simpl.
      rewrite Hid. eexists. split; reflexivity.
  - destruct Hfinal as [Hnever | Hl]; [now left | right].
    intros r Hr Hs Hw. apply Hl; [|exact Hs|exact Hw].
    now apply Hwaiting2.
  - rewrite <- Hc1'. unfold candidates. f_equal. rewrite Hrows2.
    rewrite filter_update_where_off_in.
    + apply map_ext. intros r. apply left_join_message_ext. exact Hmsgs2.
    + intros r Hr Hk. split.
      * unfold is_candidate. rewrite (Hkey1 r Hr Hk). simpl.
        now rewrite andb_false_r.
      * unfold is_candidate. destruct (HG r) as [_ [_ Hne]].
        destruct (sm_status (G r)); try contradiction; simpl;
          now rewrite andb_false_r.
  - now rewrite Hmsgs2.
Qed.

Lemma consumeNextMessages_drains handler this queue :
  forall db clock t0,
    at_rest db this -> failure_is_final handler db this ->
    candidates db (id this) t0 = queue ->
    (List.length queue < List.length clock)%nat ->
    exists db',
      consumeNextMessages handler this clock db
      = Ok (db', drain_events handler this queue clock, true)
      /\ at_rest db' this
      /\ candidates db' (id this) t0 = []
      /\ messages db' = messages db.
Proof.
  induction queue as [|j queue IH]; intros db clock t0 Hrest Hfinal Hq Hlen.
  - destruct clock as [|[polledAt endedAt] clock]; [simpl in Hlen; lia|].
    pose proof Hrest as [_ [Hnd _]].
    simpl. rewrite (open_gate_reserves db this polledAt Hrest).
    rewrite reserve_batch_no_candidates
      by (rewrite (candidates_no_delays db (id this) polledAt t0 Hnd);
          exact Hq).
    exists db. auto.
  - destruct clock as [|[polledAt endedAt] clock]; [simpl in Hlen; lia|].
    destruct (drain_round handler this db j queue polledAt endedAt t0
                Hrest Hfinal Hq)
      as [db1 [db2 [Hres [Hproc [Hrest2 [Hfinal2 [Hq2 Hm2]]]]]]].
    destruct (IH db2 clock t0 Hrest2 Hfinal2 Hq2) as [db' [Hrun [Hr' [Hq' Hm']]]];
      [simpl in Hlen; lia|].
    exists db'. simpl. rewrite Hres, Hproc, Hrun.
    split; [reflexivity|]. split; [exact Hr'|]. split; [exact Hq'|].
    now rewrite Hm'.
Qed.

Lemma processed_message_events handler message rest :
  processed (message_events handler message ++ rest)
  = msg_id message :: processed rest.
Proof.
  unfold message_events. simpl. f_equal.
  induction (updates (handler message)) as [|v l IH]; simpl.
  - now destruct (thrown (handler message)).
  - exact IH.
Qed.

Lemma processed_drain_events handler this queue :
  forall clock,
    (List.length queue < List.length clock)%nat ->
    processed (drain_events handler this queue clock) = map joined_id queue.
Proof.
  induction queue as [|j queue IH]; intros clock Hlen.
  - destruct clock as [|[p e] clock]; reflexivity.
  - destruct clock as [|[p e] clock]; [simpl in Hlen; lia|].
    cbn [drain_events map]. rewrite processed_message_events. f_equal.
    apply IH. simpl in Hlen. lia.
Qed.

(** X16. A consumer of concurrency 1 that is alone on a subscription at
    rest works through the backlog in reservation order and then goes
    idle.  With a handler whose failures are final (it never throws, or
    every waiting message is on its last attempt), [consume] hands the
    deliverable messages to the handler one after the other in the order
    of the reservation query (priority ascending with NULL last, then id),
    emits for each of them 'process', its progress updates and then
    'completed' or 'failed', and ends with 'idle'; afterwards nothing is
    deliverable, the gate is open again and no message has been written or
    deleted.  The handler returns before the first heartbeat is due.  On a
    sequential subscription the concurrency is always 1. *)
Theorem X16_consumer_drains_in_order :
  forall handler this db clock t0,
    at_rest db this -> failure_is_final handler db this ->
    (List.length (candidates db (id this) t0) < List.length clock)%nat ->
    exists db' events,
      consume handler this clock db = Ok (db', events, true)
      /\ events
         = EvConsume
           :: drain_events handler this (candidates db (id this) t0) clock
      /\ processed events = map joined_id (candidates db (id this) t0)
      /\ at_rest db' this
      /\ (forall t, candidates db' (id this) t = [])
      /\ messages db' = messages db
      /\ (forall value c,
            consumptionMode this = sequential ->
            set_concurrency this value = Some c -> c = 1).
Proof.
  intros handler this db clock t0 Hrest Hfinal Hlen.
  destruct (consumeNextMessages_drains handler this _ db clock t0
              Hrest Hfinal eq_refl Hlen) as [db' [Hrun [Hr' [Hq' Hm']]]].
  exists db', (EvConsume
               :: drain_events handler this (candidates db (id this) t0)
                               clock).
  unfold consume. rewrite Hrun.
  split; [reflexivity|]. split; [reflexivity|]. split; [|split; [|split]].
  - simpl. now apply processed_drain_events.
  - exact Hr'.
  - intros t. destruct Hr' as [_ [Hnd _]].
    now rewrite (candidates_no_delays db' (id this) t t0 Hnd).
  - split; [exact Hm'|].
    intros value c Hseq Hc. unfold set_concurrency in Hc. rewrite Hseq in Hc.
    destruct (value <? 1); [discriminate|]. now injection Hc.
Qed.

(** ** What a trim leaves *)

Lemma filter_map_swap {A B} (f : A -> B) (p : B -> bool) l :
  filter p (map f l) = map f (filter (fun x => p (f x)) l).
Proof.
  induction l as [|a l IH]; simpl; [reflexivity|].
  destruct (p (f a)); simpl; now rewrite IH.
Qed.

Lemma filter_filter {A} (p q : A -> bool) l :
  filter p (filter q l) = filter (fun x => q x && p x) l.
Proof.
  induction l as [|a l IH]; simpl; [reflexivity|].
  destruct (q a); simpl; [destruct (p a)|]; now rewrite IH.
Qed.

Lemma desc_split (S : list nat) :
  StronglySorted (fun a b => (b <= a)%nat) S -> NoDup S ->
  forall k x, nth_error S k = Some x ->
    filter (fun i => Nat.ltb x i) S = firstn k S
    /\ filter (fun i => Nat.leb i x) S = skipn k S.
Proof.
  induction 1 as [|a S Hs IH Hall]; intros Hnd k x Hx.
  - destruct k; discriminate.
  - apply NoDup_cons_iff in Hnd. destruct Hnd as [Hnin Hnd].
    rewrite Forall_forall in Hall.
    destruct k as [|k]; simpl in Hx.
    + injection Hx as <-. simpl. rewrite Nat.ltb_irrefl, Nat.leb_refl.
      split.
      * apply filter_none. intros i Hi. apply Nat.ltb_ge. now apply Hall.
      * f_equal. apply filter_all. intros i Hi. apply Nat.leb_le.
        now apply Hall.
    + assert (Hxa : (x < a)%nat).
      { pose proof (nth_error_In _ _ Hx) as Hin.
        specialize (Hall x Hin).
        assert (x <> a) by (intros ->; contradiction). lia. }
      destruct (IH Hnd k x Hx) as [H1 H2]. simpl.
      replace (Nat.ltb x a) with true by (symmetry; apply Nat.ltb_lt; lia).
      replace (Nat.leb a x) with false by (symmetry; apply Nat.leb_gt; lia).
      now rewrite H1, H2.
Qed.

Lemma earliest_unprocessed_after_delete db this x :
  (forall e, earliest_unprocessed db this = Some e -> (x < e)%nat) ->
  earliest_unprocessed
    (delete_messages db
       (fun m => Nat.eqb (m_topic_id m) (topicId this)
                 && Nat.leb (m_id m) x)) this
  = earliest_unprocessed db this.
Proof.
  intros Hx. unfold earliest_unprocessed at 1.
  change (subscriptions (delete_messages db _)) with (subscriptions db).
  unfold earliest_unprocessed at 1.
  destruct (map s_id (filter (fun s => Nat.eqb (s_topic_id s) (topicId this))
                             (subscriptions db))) as [|i ids] eqn:Eids;
    [reflexivity|].
  do 3 f_equal. unfold delete_messages. cbn [subscription_messages].
  rewrite filter_filter. apply filter_ext_in. intros r Hr.
  match goal with
  | |- _ && ?b = ?b => destruct b eqn:EQ; [|apply andb_false_r]
  end.
  rewrite andb_true_r. apply negb_true_iff.
  destruct (any_eq (sm_message_id r) _) eqn:Egone; [|reflexivity].
  exfalso.
  apply andb_true_iff in EQ. destruct EQ as [Hsub Hst].
  apply negb_true_iff in Hst. apply status_eqb_neq in Hst.
  apply any_eq_In in Hsub. rewrite <- Eids in Hsub.
  apply in_map_iff in Hsub. destruct Hsub as [s [Hid Hs]].
  apply filter_In in Hs. destruct Hs as [Hs Ht]. apply Nat.eqb_eq in Ht.
  destruct (earliest_unprocessed_least db this s r Hs Ht Hr (eq_sym Hid) Hst)
    as [e [He Hle]].
  specialize (Hx e He).
  apply any_eq_In in Egone. apply in_map_iff in Egone.
  destruct Egone as [m [Hmid Hm]]. apply filter_In in Hm.
  destruct Hm as [_ Hc]. apply andb_true_iff in Hc. destruct Hc as [_ Hc].
  apply Nat.leb_le in Hc. lia.
Qed.

(** The messages [trim] ranks, in terms of the rows: the messages of the
    topic whose id lies below the message id of every row that is not
    'completed' in a subscription of the topic. *)
Lemma acknowledged_desc_rows db this i :
  In i (acknowledged_desc db this) <->
  (exists m, In m (messages db) /\ m_id m = i
             /\ m_topic_id m = topicId this)
  /\ (forall s r,
        In s (subscriptions db) -> s_topic_id s = topicId this ->
        In r (subscription_messages db) -> sm_subscription_id r = s_id s ->
        sm_status r <> completed -> (i < sm_message_id r)%nat).
Proof.
  rewrite acknowledged_desc_In. split.
  - intros [m [Hm [Hid [Ht He]]]]. split; [now exists m|].
    intros s r Hs Hst Hr Hrs Hne.
    destruct (earliest_unprocessed_least db this s r Hs Hst Hr Hrs Hne)
      as [e [Hsome Hle]].
    rewrite Hsome in He. lia.
  - intros [[m [Hm [Hid Ht]]] Hbelow]. exists m.
    split; [exact Hm|]. split; [exact Hid|]. split; [exact Ht|].
    destruct (earliest_unprocessed db this) as [e|] eqn:Ee; [|exact I].
    unfold earliest_unprocessed in Ee.
    destruct (map s_id (filter (fun s => Nat.eqb (s_topic_id s) (topicId this))
                               (subscriptions db))) as [|i0 ids] eqn:Eids;
      [discriminate|].
    rewrite <- Eids in Ee.
    match type of Ee with
    | hd_error ?l = Some e => assert (Hin : In e l)
    end.
    { match type of Ee with
      | hd_error ?l = Some e => destruct l as [|x l']
      end; [discriminate|]. injection Ee as ->. now left. }
    apply order_by_In in Hin. apply in_map_iff in Hin.
    destruct Hin as [r [<- Hr]]. apply filter_In in Hr.
    destruct Hr as [Hr Hc]. apply andb_true_iff in Hc.
    destruct Hc as [Hsub Hst]. apply negb_true_iff in Hst.
    apply status_eqb_neq in Hst. apply any_eq_In in Hsub.
    apply in_map_iff in Hsub. destruct Hsub as [s [Hsid Hs]].
    apply filter_In in Hs. destruct Hs as [Hs Htopic].
    apply Nat.eqb_eq in Htopic.
    now apply (Hbelow s r).
Qed.

(** X17. What [trim] keeps of the messages that it may remove.  These are
    the messages of the topic below its earliest unprocessed message, that
    is, those whose id lies below the message id of every row that is not
    'completed' in a subscription of the topic (all messages of the topic
    when there is no such row).  With a finite retention [k], [trim] leaves
    exactly the [k] newest of them (all of them when there are no more than
    [k]): afterwards they are the first [k] of those before, newest first;
    the returned count is the number of them beyond [k]; the earliest
    unprocessed message is the same; and trimming again removes nothing.
    A completed message above an unprocessed one is not among them and
    stays. *)
Theorem X17_trim_leaves_the_newest :
  forall db this k,
    maxMessagesRetention this = Some k -> pk_messages db ->
    (forall i,
        In i (acknowledged_desc db this) <->
        (exists m, In m (messages db) /\ m_id m = i
                   /\ m_topic_id m = topicId this)
        /\ (forall s r,
              In s (subscriptions db) -> s_topic_id s = topicId this ->
              In r (subscription_messages db) ->
              sm_subscription_id r = s_id s ->
              sm_status r <> completed -> (i < sm_message_id r)%nat))
    /\ acknowledged_desc (fst (trim db this)) this
       = firstn k (acknowledged_desc db this)
    /\ snd (trim db this)
       = Z.of_nat (List.length (acknowledged_desc db this) - k)
    /\ earliest_unprocessed (fst (trim db this)) this
       = earliest_unprocessed db this
    /\ trim (fst (trim db this)) this = (fst (trim db this), 0)
    /\ (forall m, In m (messages db) ->
                  ~ In (m_id m) (acknowledged_desc db this) ->
                  In m (messages (fst (trim db this)))).
Proof.
  intros db this k Hk Hpk.
  split; [intros i; apply acknowledged_desc_rows|].
  assert (Hstay : forall m, In m (messages db) ->
                    ~ In (m_id m) (acknowledged_desc db this) ->
                    In m (messages (fst (trim db this)))).
  { intros m Hm Hout. unfold trim. rewrite Hk.
    destruct (nth_error (acknowledged_desc db this) k) as [x|] eqn:Enth;
      [|exact Hm].
    cbn [fst]. unfold delete_messages. cbn [messages].
    apply filter_In. split; [exact Hm|]. apply negb_true_iff.
    destruct (Nat.eqb (m_topic_id m) (topicId this)) eqn:Et;
      [|reflexivity].
    destruct (Nat.leb (m_id m) x) eqn:Ele; [|reflexivity].
    exfalso. apply Hout. apply Nat.eqb_eq in Et. apply Nat.leb_le in Ele.
    pose proof (nth_error_In _ _ Enth) as Hx.
    apply acknowledged_desc_In in Hx.
    destruct Hx as [_ [_ [_ [_ Hlt]]]].
    apply acknowledged_desc_In. exists m.
    split; [exact Hm|]. split; [reflexivity|]. split; [exact Et|].
    destruct (earliest_unprocessed db this); [lia | exact I]. }
  cut (acknowledged_desc (fst (trim db this)) this
       = firstn k (acknowledged_desc db this)
       /\ snd (trim db this)
          = Z.of_nat (List.length (acknowledged_desc db this) - k)
       /\ earliest_unprocessed (fst (trim db this)) this
          = earliest_unprocessed db this
       /\ trim (fst (trim db this)) this = (fst (trim db this), 0));
    [tauto|]. clear Hstay.
  assert (Hsorted : StronglySorted (fun a b => (b <= a)%nat)
                      (acknowledged_desc db this)).
  { unfold acknowledged_desc.
    pose proof (order_by_StronglySorted (fun a b => Nat.leb b a)
                  nat_geb_total nat_geb_trans) as H.
    eapply StronglySorted_weaken; [|apply H].
    intros a b Hab. now apply Nat.leb_le. }
  pose proof (acknowledged_desc_NoDup db this Hpk) as Hnd.
  unfold trim. rewrite Hk.
  destruct (nth_error (acknowledged_desc db this) k) as [x|] eqn:Enth.
  - (* more than [k] acknowledged messages *)
    cbn [fst snd].
    set (c := fun m => Nat.eqb (m_topic_id m) (topicId this)
                       && Nat.leb (m_id m) x).
    assert (Hxe : forall e, earliest_unprocessed db this = Some e ->
                            (x < e)%nat).
    { intros e He. pose proof (nth_error_In _ _ Enth) as Hin.
      apply acknowledged_desc_In in Hin.
      destruct Hin as [m [_ [_ [_ Hlt]]]]. now rewrite He in Hlt. }
    pose proof (earliest_unprocessed_after_delete db this x Hxe) as Hearly.
    fold c in Hearly.
    destruct (desc_split _ Hsorted Hnd k x Enth) as [Hfirst Hskip].
    assert (Hack : acknowledged_desc (delete_messages db c) this
                   = firstn k (acknowledged_desc db this)).
    { etransitivity; [|exact Hfirst].
      unfold acknowledged_desc at 1. rewrite Hearly.
      unfold acknowledged_desc.
      rewrite (filter_order_by (fun a b => Nat.leb b a)
                 nat_geb_total nat_geb_trans).
      f_equal. rewrite filter_map_swap. f_equal.
      unfold delete_messages. simpl.
      rewrite !filter_filter. apply filter_ext. intros m. unfold c.
      destruct (Nat.eqb (m_topic_id m) (topicId this)); simpl;
        [|reflexivity].
      rewrite Nat.ltb_antisym. apply andb_comm. }
    split; [exact Hack|]. split; [|split; [exact Hearly|]].
    + f_equal. rewrite <- length_skipn.
      etransitivity; [|apply (f_equal (@List.length nat) Hskip)].
      unfold acknowledged_desc.
      rewrite (filter_order_by (fun a b => Nat.leb b a)
                 nat_geb_total nat_geb_trans).
      rewrite order_by_length, filter_map_swap, length_map, filter_filter.
      f_equal. apply filter_ext. intros m. unfold c.
      destruct (Nat.eqb (m_topic_id m) (topicId this)); simpl;
        [|reflexivity].
      destruct (Nat.leb (m_id m) x) eqn:Ele;
        [|symmetry; apply andb_false_r].
      rewrite andb_true_r. apply Nat.leb_le in Ele.
      destruct (earliest_unprocessed db this) as [e|] eqn:He;
        [|reflexivity].
      symmetry. apply Nat.ltb_lt. specialize (Hxe e eq_refl). lia.
    + rewrite Hack.
      replace (nth_error (firstn k (acknowledged_desc db this)) k)
        with (@None nat); [reflexivity|].
      symmetry. apply nth_error_None. apply firstn_le_length.
  - (* no more than [k]: nothing to remove *)
    cbn [fst snd]. rewrite Enth.
    apply nth_error_None in Enth.
    split; [symmetry; now apply firstn_all2|].
    split; [f_equal; lia|]. split; reflexivity.
Qed.

(** ** Trims of different topics *)

Lemma delete_messages_nothing db c :
  (forall m, In m (messages db) -> c m = false) ->
  delete_messages db c = db.
Proof.
  intros H. unfold delete_messages.
  rewrite (filter_none c) by exact H.
  rewrite filter_all
    by (intros m Hm; apply negb_true_iff; now apply H).
  rewrite filter_all by (intros r _; reflexivity).
  now destruct db.
Qed.

Lemma delete_messages_ext db (c c' : MessageRow -> bool) :
  (forall m, c m = c' m) -> delete_messages db c = delete_messages db c'.
Proof.
  intros H. unfold delete_messages.
  rewrite (filter_ext c c' H).
  now rewrite (filter_ext (fun m => negb (c m)) (fun m => negb (c' m)))
    by (intros m; now rewrite H).
Qed.

Lemma trim_as_delete db this :
  trim db this
  = (delete_messages db (trimmed db this),
     Z.of_nat (List.length (filter (trimmed db this) (messages db)))).
Proof.
  unfold trim, trimmed.
  destruct (maxMessagesRetention this) as [k|].
  - destruct (nth_error (acknowledged_desc db this) k) as [x|];
      [reflexivity|].
    rewrite delete_messages_nothing by reflexivity.
    now rewrite filter_none by reflexivity.
  - rewrite delete_messages_nothing by reflexivity.
    now rewrite filter_none by reflexivity.
Qed.

Lemma trimmed_topic db this m :
  trimmed db this m = true -> m_topic_id m = topicId this.
Proof.
  unfold trimmed. destruct (maxMessagesRetention this) as [k|];
    [|discriminate].
  destruct (nth_error (acknowledged_desc db this) k); [|discriminate].
  intros H. apply andb_true_iff in H. destruct H as [H _].
  now apply Nat.eqb_eq.
Qed.

Lemma other_topic_after_delete db (ca : MessageRow -> bool) a b :
  schema_core db -> topicId a <> topicId b ->
  (forall m, ca m = true -> m_topic_id m = topicId a) ->
  earliest_unprocessed (delete_messages db ca) b = earliest_unprocessed db b
  /\ filter (fun m => Nat.eqb (m_topic_id m) (topicId b))
            (messages (delete_messages db ca))
     = filter (fun m => Nat.eqb (m_topic_id m) (topicId b)) (messages db).
Proof.
  intros [Hpkm [Hpk [Hfk Hsid]]] Hneq Hca. split.
  - unfold earliest_unprocessed at 1.
    change (subscriptions (delete_messages db ca)) with (subscriptions db).
    unfold earliest_unprocessed at 1.
    destruct (map s_id (filter (fun s => Nat.eqb (s_topic_id s) (topicId b))
                               (subscriptions db))) as [|i ids] eqn:Eids;
      [reflexivity|].
    do 3 f_equal. unfold delete_messages. cbn [subscription_messages].
    rewrite filter_filter. apply filter_ext_in. intros r Hr.
    match goal with
    | |- _ && ?q = ?q => destruct q eqn:EQ; [|apply andb_false_r]
    end.
    rewrite andb_true_r. apply negb_true_iff.
    destruct (any_eq (sm_message_id r) _) eqn:Egone; [|reflexivity].
    exfalso.
    apply andb_true_iff in EQ. destruct EQ as [Hsub _].
    apply any_eq_In in Hsub. rewrite <- Eids in Hsub.
    apply in_map_iff in Hsub. destruct Hsub as [s [Hid Hs]].
    apply filter_In in Hs. destruct Hs as [Hs Ht]. apply Nat.eqb_eq in Ht.
    destruct (Hfk r Hr) as [s' [m [Hs' [Hid' [Hm [Hmid Htop]]]]]].
    assert (s' = s)
      by (apply (NoDup_map_eq s_id (subscriptions db)); congruence).
    subst s'.
    apply any_eq_In in Egone. apply in_map_iff in Egone.
    destruct Egone as [m' [Hmid' Hm']]. apply filter_In in Hm'.
    destruct Hm' as [Hm' Hc]. apply Hca in Hc.
    assert (m' = m)
      by (apply (NoDup_map_eq m_id (messages db));
          [exact Hpkm | assumption | assumption | congruence]).
    subst m'. congruence.
  - unfold delete_messages. cbn [messages]. rewrite filter_filter.
    apply filter_ext. intros m.
    destruct (Nat.eqb (m_topic_id m) (topicId b)) eqn:Eb;
      [|apply andb_false_r].
    rewrite andb_true_r. apply Nat.eqb_eq in Eb. apply negb_true_iff.
    destruct (ca m) eqn:Ea; [|reflexivity].
    apply Hca in Ea. congruence.
Qed.

Lemma delete_messages_disjoint db (ca cb : MessageRow -> bool) :
  (forall m, ca m = true -> cb m = false) ->
  delete_messages (delete_messages db ca) cb
  = delete_messages (delete_messages db cb) ca.
Proof.
  intros Hdisj.
  assert (Hcb : filter cb (filter (fun m => negb (ca m)) (messages db))
                = filter cb (messages db)).
  { rewrite filter_filter. apply filter_ext. intros m.
    destruct (cb m) eqn:E; [|apply andb_false_r].
    rewrite andb_true_r. apply negb_true_iff.
    destruct (ca m) eqn:Ea; [|reflexivity].
    rewrite (Hdisj m Ea) in E. discriminate. }
  assert (Hca : filter ca (filter (fun m => negb (cb m)) (messages db))
                = filter ca (messages db)).
  { rewrite filter_filter. apply filter_ext. intros m.
    destruct (ca m) eqn:E; [|apply andb_false_r].
    rewrite andb_true_r. apply negb_true_iff. now apply Hdisj. }
  unfold delete_messages. cbn [topics messages scheduled_messages
                               subscriptions subscription_messages].
  rewrite Hcb, Hca. f_equal; apply filter_comm.
Qed.

Lemma trimmed_other_topic db a b m :
  schema_core db -> topicId a <> topicId b ->
  trimmed (fst (trim db a)) b m = trimmed db b m.
Proof.
  intros Hschema Hneq. rewrite trim_as_delete. cbn [fst].
  destruct (other_topic_after_delete db (trimmed db a) a b Hschema Hneq
              (trimmed_topic db a)) as [He Hm].
  assert (Hack : acknowledged_desc (delete_messages db (trimmed db a)) b
                 = acknowledged_desc db b).
  { unfold acknowledged_desc. rewrite He. do 2 f_equal.
    rewrite <- (filter_filter
                  (fun m => match earliest_unprocessed db b with
                            | Some e => Nat.ltb (m_id m) e
                            | None => true
                            end)
                  (fun m => Nat.eqb (m_topic_id m) (topicId b))).
    rewrite Hm. now rewrite filter_filter. }
  unfold trimmed at 1. rewrite Hack. reflexivity.
Qed.

Lemma trim_after_trim db a b :
  schema_core db -> topicId a <> topicId b ->
  trim (fst (trim db a)) b
  = (delete_messages (delete_messages db (trimmed db a)) (trimmed db b),
     snd (trim db b)).
Proof.
  intros Hschema Hneq.
  rewrite (trim_as_delete (fst (trim db a)) b).
  rewrite (delete_messages_ext _ _ (trimmed db b))
    by (intros m; now apply trimmed_other_topic).
  rewrite (filter_ext _ (trimmed db b))
    by (intros m; now apply trimmed_other_topic).
  rewrite (trim_as_delete db a), (trim_as_delete db b). cbn [fst snd].
  f_equal. do 2 f_equal.
  unfold delete_messages. cbn [messages]. rewrite filter_filter.
  apply filter_ext. intros m.
  destruct (trimmed db b m) eqn:Eb; [|apply andb_false_r].
  rewrite andb_true_r. apply negb_true_iff.
  destruct (trimmed db a m) eqn:Ea; [|reflexivity].
  apply trimmed_topic in Ea, Eb. congruence.
Qed.

(** X18. Trims of different topics do not influence each other.  After a
    trim of topic [a], a trim of another topic [b] returns the count it
    would have returned before and removes the same messages, so the two
    trims give the same database in either order; [trimTopics], which
    trims every topic and adds up the counts, returns the same database and
    the same total whichever of the two comes first. *)
Theorem X18_trims_of_different_topics_commute :
  forall db a b,
    schema_core db -> topicId a <> topicId b ->
    snd (trim (fst (trim db a)) b) = snd (trim db b)
    /\ fst (trim (fst (trim db a)) b) = fst (trim (fst (trim db b)) a)
    /\ trimTopics db [a; b] = trimTopics db [b; a]
    /\ snd (trimTopics db [a; b]) = snd (trim db a) + snd (trim db b).
Proof.
  intros db a b Hschema Hneq.
  pose proof (trim_after_trim db a b Hschema Hneq) as Hab.
  pose proof (trim_after_trim db b a Hschema (not_eq_sym Hneq)) as Hba.
  assert (Hcomm : delete_messages (delete_messages db (trimmed db a))
                                  (trimmed db b)
                  = delete_messages (delete_messages db (trimmed db b))
                                    (trimmed db a)).
  { apply delete_messages_disjoint. intros m Ha.
    destruct (trimmed db b m) eqn:Eb; [|reflexivity].
    apply trimmed_topic in Ha, Eb. congruence. }
  split; [now rewrite Hab|]. split; [now rewrite Hab, Hba|].
  unfold trimTopics. cbn [trim_each].
  destruct (trim db a) as [dba ca] eqn:Ea.
  destruct (trim db b) as [dbb cb] eqn:Eb.
  cbn [fst snd] in Hab, Hba. rewrite Hab, Hba. cbn [fold_left snd].
  split; [|lia]. rewrite Hcomm. f_equal. lia.
Qed.

(** ** Sequential exclusivity for careful clients *)

Section CarefulExclusive.
Variable cron_next : string -> timestamp -> timestamp.

Lemma step_schema op db db' :
  schema db -> step cron_next op db db' -> schema db'.
Proof.
  intros IH Hstep. destruct Hstep.
  - unfold topic_init in H. destruct (find _ _).
    + now injection H as <- _.
    + destruct (existsb _ _); [discriminate|]. injection H as <- _.
      exact IH.
  - destruct IH as [S S5]. split.
    + eapply schema_core_send; eassumption.
    + apply insertMessages_Ok in H.
      destruct H as [_ [_ [-> _]]]. exact S5.
  - eapply schema_subscribe; eassumption.
  - eapply schema_reserve; eassumption.
  - now apply schema_complete.
  - eapply schema_fail; eassumption.
  - now apply schema_own_row.
  - now apply schema_own_row.
  - now apply schema_own_row.
  - now apply schema_stale.
  - unfold trim. destruct (maxMessagesRetention topic); [|assumption].
    destruct (nth_error _ _); [|assumption].
    now apply schema_delete_messages.
  - now apply (schema_schedule cron_next).
  - eapply (schema_fire cron_next); eassumption.
  - now apply schema_delete_messages.
  - now apply schema_remove_subscription.
  - now apply schema_filter_scheduled.
  - unfold clear.
    apply (schema_filter_scheduled (delete_messages db _)).
    now apply schema_delete_messages.
Qed.

Lemma careful_step_schema db db' :
  schema db -> careful_step cron_next db db' -> schema db'.
Proof.
  intros Hs Hstep. destruct Hstep.
  - eapply step_schema; eassumption.
  - now apply schema_complete.
  - eapply schema_fail; eassumption.
Qed.

End CarefulExclusive.

Lemma length_filter_update_where {A} (p c : A -> bool) (f : A -> A) l :
  (forall r, In r l -> c r = true -> p (f r) = true -> p r = true) ->
  (List.length (filter p (update_where c f l))
   <= List.length (filter p l))%nat.
Proof.
  intros H. unfold update_where. induction l as [|r l IH]; simpl; [lia|].
  assert (IH' : (List.length (filter p (map (fun r => if c r then f r else r)
                                            l))
                 <= List.length (filter p l))%nat)
    by (apply IH; intros x Hx; apply H; now right).
  destruct (c r) eqn:Ec.
  - destruct (p (f r)) eqn:Epf.
    + rewrite (H r (or_introl eq_refl) Ec Epf). simpl. lia.
    + destruct (p r); simpl; lia.
  - destruct (p r); simpl; lia.
Qed.

Lemma length_filter_filter {A} (p q : A -> bool) l :
  (List.length (filter p (filter q l)) <= List.length (filter p l))%nat.
Proof.
  induction l as [|r l IH]; simpl; [lia|].
  destruct (q r); simpl; destruct (p r); simpl; lia.
Qed.

Lemma is_processing_true sid r :
  is_processing sid r = true <->
  sm_subscription_id r = sid /\ sm_status r = processing.
Proof.
  unfold is_processing. now rewrite andb_true_iff, Nat.eqb_eq, status_eqb_eq.
Qed.

(** Operations that leave the gates alone and put nothing in flight. *)
Lemma exclusive_weaken db db' :
  exclusive db ->
  (forall s, In s (subscriptions db') ->
             s_consumption_mode s = sequential ->
             in_flight db' (s_id s) = []
             \/ (In s (subscriptions db)
                 /\ (List.length (in_flight db' (s_id s))
                     <= List.length (in_flight db (s_id s)))%nat)) ->
  exclusive db'.
Proof.
  intros Hex H s Hs Hseq. destruct (H s Hs Hseq) as [Hnil | [Hin Hle]].
  - rewrite Hnil. simpl. split; [lia | reflexivity].
  - destruct (Hex s Hin Hseq) as [H1 H2]. split; [lia|].
    intros Hgate. rewrite (H2 Hgate) in Hle. simpl in Hle.
    now apply length_zero_iff_nil, Nat.le_0_r.
Qed.

Lemma exclusive_same_gates db db' :
  exclusive db ->
  subscriptions db' = subscriptions db ->
  (forall sid, (List.length (in_flight db' sid)
                <= List.length (in_flight db sid))%nat) ->
  exclusive db'.
Proof.
  intros Hex Hsubs Hle. apply (exclusive_weaken db); [exact Hex|].
  intros s Hs _. right. rewrite Hsubs in Hs. split; [exact Hs | apply Hle].
Qed.

Lemma in_flight_own_row db h f sid :
  (forall r, sm_subscription_id (f r) = sm_subscription_id r) ->
  (forall r, sm_status (f r) = processing -> sm_status r = processing) ->
  (List.length (in_flight (update_own_row db h f) sid)
   <= List.length (in_flight db sid))%nat.
Proof.
  intros Hsub Hst. unfold in_flight, update_own_row. simpl.
  apply length_filter_update_where. intros r _ _ Hp.
  apply is_processing_true in Hp. apply is_processing_true.
  rewrite Hsub in Hp. destruct Hp as [H1 H2]. split; [exact H1|].
  now apply Hst.
Qed.

Lemma in_flight_delete db c sid :
  (List.length (in_flight (delete_messages db c) sid)
   <= List.length (in_flight db sid))%nat.
Proof.
  unfold in_flight, delete_messages. simpl. apply length_filter_filter.
Qed.

Lemma in_flight_send g db topicId data options now db' rows sid :
  insertMessages g db topicId data options now = Ok (db', rows) ->
  in_flight db' sid = in_flight db sid.
Proof.
  intros H. destruct (insertMessages_fan_out _ _ _ _ _ _ _ _ H)
    as [new [Hrows [_ Hnew]]].
  unfold in_flight. rewrite Hrows, filter_app.
  rewrite (filter_none _ new); [apply app_nil_r|].
  intros r Hr. apply Hnew in Hr. destruct Hr as [s [m [_ [_ [_ ->]]]]].
  unfold is_processing. simpl. apply andb_false_r.
Qed.

Lemma length_filter_update_where_add {A} (p c : A -> bool) (f : A -> A) l :
  (List.length (filter p (update_where c f l))
   <= List.length (filter p l) + List.length (filter c l))%nat.
Proof.
  unfold update_where. induction l as [|r l IH]; simpl; [lia|].
  destruct (c r); simpl.
  - destruct (p (f r)), (p r); simpl; lia.
  - destruct (p r); simpl; lia.
Qed.

Lemma length_filter_key {A B} (k : A -> B) (c : A -> bool) key l :
  NoDup (map k l) ->
  (forall x, c x = true -> k x = key) ->
  (List.length (filter c l) <= 1)%nat.
Proof.
  intros Hnd Hc. induction l as [|a l IH]; simpl; [lia|].
  simpl in Hnd. apply NoDup_cons_iff in Hnd. destruct Hnd as [Hnin Hnd].
  destruct (c a) eqn:Ea; [|now apply IH].
  rewrite filter_none; [simpl; lia|].
  intros x Hx. destruct (c x) eqn:Ex; [|reflexivity].
  exfalso. apply Hnin. rewrite (Hc a Ea), <- (Hc x Ex). now apply in_map.
Qed.

Lemma in_flight_other_subscription db db' sid c f :
  subscription_messages db'
  = update_where c f (subscription_messages db) ->
  (forall r, c r = true ->
             sm_subscription_id r <> sid /\ sm_subscription_id (f r) <> sid) ->
  in_flight db' sid = in_flight db sid.
Proof.
  intros Hrows Hc. unfold in_flight. rewrite Hrows.
  apply filter_update_where_off. intros r Hr.
  destruct (Hc r Hr) as [H1 H2]. unfold is_processing.
  apply Nat.eqb_neq in H1, H2. now rewrite H1, H2.
Qed.

Lemma subscription_by_id db s s' :
  NoDup (map s_id (subscriptions db)) ->
  In s (subscriptions db) -> In s' (subscriptions db) ->
  s_id s = s_id s' -> s = s'.
Proof.
  intros Hnd Hs Hs' Hid.
  now apply (NoDup_map_eq s_id (subscriptions db)).
Qed.

Lemma exclusive_reserve_batch db s0 count now :
  schema db -> exclusive db -> In s0 (subscriptions db) ->
  (s_consumption_mode s0 = sequential -> s_processing s0 = false) ->
  exclusive (fst (reserve_batch db (object_of_row s0) count now)).
Proof.
  intros [[_ [Hpk [_ Hsid]]] _] Hex Hs0 Hgate.
  pose proof (reserve_batch_rows db (object_of_row s0) count now)
    as [Hrows _].
  set (this := object_of_row s0) in *.
  assert (Hid : id this = s_id s0) by reflexivity.
  set (db1 := fst (reserve_batch db this count now)) in *.
  assert (Hother : forall sid, sid <> s_id s0 ->
                     in_flight db1 sid = in_flight db sid).
  { intros sid Hneq.
    apply (in_flight_other_subscription db db1 sid _ _ Hrows).
    intros r Hc. apply andb_true_iff in Hc. destruct Hc as [Hc _].
    apply Nat.eqb_eq in Hc. simpl. rewrite Hc, Hid.
    split; congruence. }
  assert (Hshape : db1 = db
                   \/ exists j, firstn (reservation_limit this count)
                                       (candidates db (id this) now) <> []
                        /\ subscriptions db1
                           = match s_consumption_mode s0 with
                             | sequential =>
                                 update_where
                                   (fun s => Nat.eqb (s_id s) (s_id s0))
                                   (set_processing true) (subscriptions db)
                             | parallel => subscriptions db
                             end
                        /\ j = tt).
  { unfold db1, reserve_batch.
    destruct (firstn (reservation_limit this count)
                     (candidates db (id this) now)) as [|j batch] eqn:E;
      [now left|].
    right. exists tt. split; [discriminate|]. split; [|reflexivity].
    unfold this, object_of_row. simpl.
    now destruct (s_consumption_mode s0). }
  destruct Hshape as [-> | [_ [Hne [Hsubs _]]]]; [exact Hex|].
  intros s Hs Hseq.
  destruct (s_consumption_mode s0) eqn:Emode.
  - (* the reserving subscription is sequential *)
    rewrite Hsubs in Hs. apply update_where_In in Hs.
    destruct Hs as [s' [Hs' ->]].
    destruct (Nat.eqb (s_id s') (s_id s0)) eqn:E.
    + apply Nat.eqb_eq in E.
      assert (s' = s0) by now apply (subscription_by_id db).
      subst s'. simpl. split; [|discriminate].
      destruct (Hex s0 Hs0 Emode) as [_ Hnone].
      specialize (Hnone (Hgate eq_refl)).
      unfold in_flight in *. rewrite Hrows.
      eapply Nat.le_trans; [apply length_filter_update_where_add|].
      rewrite Hnone. simpl.
      assert (Hone : reservation_limit this count = 1%nat).
      { unfold reservation_limit, this, object_of_row. simpl.
        now rewrite Emode. }
      rewrite Hone in *. change (id this) with (s_id s0) in *.
      destruct (candidates db (s_id s0) now) as [|j rest];
        [contradiction|].
      cbn [firstn map].
      apply (length_filter_key sm_key _ (s_id s0, joined_id j) _ Hpk).
      intros x Hx. apply andb_true_iff in Hx. destruct Hx as [Hx1 Hx2].
      apply Nat.eqb_eq in Hx1. apply any_eq_In in Hx2.
      destruct Hx2 as [Hx2 | []]. unfold sm_key. now rewrite Hx1, Hx2.
    + apply Nat.eqb_neq in E. rewrite (Hother (s_id s') E).
      now apply Hex.
  - (* a parallel subscription reserves: the gates are not touched *)
    rewrite Hsubs in Hs.
    assert (Hneq : s_id s <> s_id s0).
    { intros Heq. assert (s = s0) by now apply (subscription_by_id db).
      subst s. congruence. }
    rewrite (Hother (s_id s) Hneq). now apply Hex.
Qed.

Lemma exclusive_reserve db s0 count now db' batch :
  schema db -> exclusive db -> In s0 (subscriptions db) ->
  getNextMessages db (object_of_row s0) count now = Ok (db', batch) ->
  exclusive db'.
Proof.
  intros Hschema Hex Hs0 H.
  pose proof Hschema as [[_ [_ [_ Hsid]]] _].
  unfold getNextMessages in H. destruct (count <=? 0); [discriminate|].
  change (consumptionMode (object_of_row s0)) with (s_consumption_mode s0)
    in H.
  change (id (object_of_row s0)) with (s_id s0) in H.
  destruct (s_consumption_mode s0) eqn:Emode.
  - unfold find_subscription in H.
    rewrite (find_unique s_id (subscriptions db) s0 Hsid Hs0) in H.
    destruct (s_processing s0) eqn:Egate.
    + injection H as <- _. exact Hex.
    + injection H as H.
      pose proof (exclusive_reserve_batch db s0 count now Hschema Hex Hs0
                    (fun _ => Egate)) as Hres.
      rewrite H in Hres. exact Hres.
  - injection H as H.
    assert (Hgate : s_consumption_mode s0 = sequential ->
                    s_processing s0 = false) by (rewrite Emode; discriminate).
    pose proof (exclusive_reserve_batch db s0 count now Hschema Hex Hs0
                  Hgate) as Hres.
    rewrite H in Hres. exact Hres.
Qed.

Lemma length_le_1_singleton {A} (l : list A) x :
  (List.length l <= 1)%nat -> In x l -> l = [x].
Proof.
  destruct l as [|a [|b l]]; simpl; intros Hlen Hin;
    [destruct Hin | | lia].
  destruct Hin as [-> | []]. reflexivity.
Qed.

(** Concluding the message in flight empties the flight and opens the
    gate. *)
Lemma exclusive_conclude db s0 h f :
  schema db -> exclusive db -> In s0 (subscriptions db) ->
  In h (getMessages db (object_of_row s0) [processing]) ->
  (forall r, sm_subscription_id (f r) = sm_subscription_id r) ->
  (forall r, sm_status (f r) <> processing) ->
  exclusive
    (match consumptionMode (subscription h) with
     | sequential =>
         update_processing (update_own_row db h f)
                           (id (subscription h)) false
     | parallel => update_own_row db h f
     end).
Proof.
  intros [[_ [_ [_ Hsid]]] _] Hex Hs0 Hh Hsub Hst.
  apply getMessages_In in Hh.
  destruct Hh as [r [Hr [Hrsub [Hrst ->]]]].
  destruct Hrst as [Hrst | Hrst]; [discriminate|].
  destruct Hrst as [Hrst | []]. symmetry in Hrst.
  cbn [subscription row_handle msg_id consumptionMode id object_of_row].
  change (joined_id (left_join_message db r)) with (sm_message_id r).
  set (h := row_handle (object_of_row s0) (left_join_message db r)).
  assert (Hle : forall sid,
            (List.length (in_flight (update_own_row db h f) sid)
             <= List.length (in_flight db sid))%nat).
  { intros sid. apply in_flight_own_row; [exact Hsub|].
    intros x Hx. destruct (Hst x Hx). }
  destruct (s_consumption_mode s0) eqn:Emode.
  - intros s Hs Hseq.
    unfold update_processing in Hs. cbn [subscriptions set_subscriptions] in Hs.
    apply update_where_In in Hs. destruct Hs as [s' [Hs' ->]].
    change (subscriptions (update_own_row db h f)) with (subscriptions db)
      in Hs'.
    change (in_flight (update_processing (update_own_row db h f) (s_id s0)
                                         false))
      with (in_flight (update_own_row db h f)).
    destruct (Nat.eqb (s_id s') (s_id s0)) eqn:E.
    + apply Nat.eqb_eq in E.
      assert (s' = s0) by now apply (subscription_by_id db).
      subst s'. cbn [s_id set_processing].
      assert (Hnil : in_flight (update_own_row db h f) (s_id s0) = []).
      { destruct (Hex s0 Hs0 Emode) as [Hone _].
        assert (Hin : In r (in_flight db (s_id s0))).
        { apply filter_In. split; [exact Hr|].
          apply is_processing_true. split; assumption. }
        pose proof (length_le_1_singleton _ _ Hone Hin) as Hflight.
        unfold in_flight, update_own_row.
        cbn [subscription_messages set_subscription_messages].
        apply filter_none. intros x Hx. apply update_where_In in Hx.
        destruct Hx as [x0 [Hx0 ->]].
        destruct (sm_key_is (id (subscription h)) (msg_id h) x0) eqn:Ek.
        - unfold is_processing.
          destruct (sm_status (f x0)) eqn:Es; try apply andb_false_r.
          destruct (Hst x0 Es).
        - destruct (is_processing (s_id s0) x0) eqn:Ep; [|reflexivity].
          assert (In x0 (in_flight db (s_id s0)))
            by (apply filter_In; now split).
          rewrite Hflight in H. destruct H as [<- | []].
          assert (sm_key_is (id (subscription h)) (msg_id h) r = true).
          { apply sm_key_is_true. split; [exact Hrsub | reflexivity]. }
          congruence. }
      rewrite Hnil. simpl. split; [lia | reflexivity].
    + destruct (Hex s' Hs' Hseq) as [H1 H2]. specialize (Hle (s_id s')).
      split; [lia|]. intros Hgate. rewrite (H2 Hgate) in Hle.
      simpl in Hle. now apply length_zero_iff_nil, Nat.le_0_r.
  - apply (exclusive_same_gates db); [exact Hex | reflexivity | exact Hle].
Qed.

Lemma exclusive_stale db timeout now :
  exclusive db -> exclusive (stale_db db timeout now).
Proof.
  intros Hex s Hs Hseq.
  rewrite stale_db_subscriptions in Hs. apply update_where_In in Hs.
  destruct Hs as [s' [Hs' Heq]].
  assert (Hle : (List.length (in_flight (stale_db db timeout now) (s_id s'))
                 <= List.length (in_flight db (s_id s')))%nat).
  { unfold in_flight. rewrite stale_db_rows.
    apply length_filter_update_where. intros r _ _ Hp.
    apply is_processing_true in Hp. destruct Hp as [_ Hp].
    unfold reset_row in Hp. simpl in Hp.
    destruct (sm_stale_count r =? 0); discriminate. }
  destruct (any_eq (s_id s') _) eqn:Estale.
  - subst s. cbn [s_id set_processing] in *.
    apply any_eq_In in Estale. apply in_map_iff in Estale.
    destruct Estale as [r0 [Hsub0 Hr0]]. apply filter_In in Hr0.
    destruct Hr0 as [Hr0 Hstale0].
    pose proof Hstale0 as Hst0. apply is_stale_true in Hst0.
    destruct Hst0 as [Hst0 _].
    destruct (Hex s' Hs' Hseq) as [Hone _].
    assert (Hin : In r0 (in_flight db (s_id s'))).
    { apply filter_In. split; [exact Hr0|].
      apply is_processing_true. now split. }
    pose proof (length_le_1_singleton _ _ Hone Hin) as Hflight.
    assert (Hnil : in_flight (stale_db db timeout now) (s_id s') = []).
    { unfold in_flight. rewrite stale_db_rows. apply filter_none.
      intros x Hx. apply update_where_In in Hx.
      destruct Hx as [x0 [Hx0 ->]].
      destruct (is_stale (now - timeout) x0) eqn:Ex.
      - unfold is_processing, reset_row. simpl.
        destruct (sm_stale_count x0 =? 0); apply andb_false_r.
      - destruct (is_processing (s_id s') x0) eqn:Ep; [|reflexivity].
        assert (In x0 (in_flight db (s_id s')))
          by (apply filter_In; now split).
        rewrite Hflight in H. destruct H as [<- | []]. congruence. }
    rewrite Hnil. simpl. split; [lia | reflexivity].
  - subst s. destruct (Hex s' Hs' Hseq) as [H1 H2]. split; [lia|].
    intros Hgate. rewrite (H2 Hgate) in Hle. simpl in Hle.
    now apply length_zero_iff_nil, Nat.le_0_r.
Qed.

Section CarefulRunsExclusive.
Variable cron_next : string -> timestamp -> timestamp.

Lemma exclusive_api_step op db db' :
  op <> OpComplete -> op <> OpFail ->
  schema db -> exclusive db -> step cron_next op db db' -> exclusive db'.
Proof.
  intros Hnc Hnf Hschema Hex Hstep.
  pose proof Hschema as [[_ [_ [Hfk Hsid]]] _].
  destruct Hstep.
  - (* topic *)
    unfold topic_init in H. destruct (find _ _).
    + now injection H as <- _.
    + destruct (existsb _ _); [discriminate|]. injection H as <- _.
      apply (exclusive_same_gates db); [exact Hex | reflexivity|].
      intros sid. apply Nat.le_refl.
  - (* send *)
    apply (exclusive_same_gates db); [exact Hex| |].
    + apply insertMessages_Ok in H. now destruct H as [_ [_ [_ [-> _]]]].
    + intros sid. rewrite (in_flight_send _ _ _ _ _ _ _ _ sid H).
      apply Nat.le_refl.
  - (* subscribe *)
    destruct (name_taken db topic n) eqn:Etaken.
    + now rewrite (subscribe_taken _ _ _ _ _ _ _ _ Etaken H0).
    + destruct (subscribe_created _ _ _ _ _ _ _ _ Etaken H0)
        as [_ [_ [_ [_ [_ [Hsubs Hrows]]]]]].
      destruct (subscribe_created_keys _ _ _ _ _ _ _ _ Etaken H0)
        as [Hfresh _].
      assert (Hflight : forall sid,
                in_flight db' sid = in_flight db sid).
      { intros sid. unfold in_flight. rewrite Hrows, filter_app.
        rewrite (filter_none _ (match _ with earliest => _ | latest => _ end));
          [apply app_nil_r|].
        intros r Hr. destruct (or_default (o_startPosition options) latest);
          [|destruct Hr].
        apply in_map_iff in Hr. destruct Hr as [m [<- _]].
        unfold is_processing. simpl. apply andb_false_r. }
      apply (exclusive_weaken db); [exact Hex|].
      intros s Hs _. rewrite Hsubs in Hs. apply in_app_or in Hs.
      destruct Hs as [Hs | [<- | []]].
      * right. split; [exact Hs|]. rewrite Hflight. apply Nat.le_refl.
      * left. rewrite Hflight. cbn [s_id]. apply filter_none.
        intros r Hr. unfold is_processing.
        destruct (Nat.eqb (sm_subscription_id r) g) eqn:E; [|reflexivity].
        apply Nat.eqb_eq in E. exfalso. apply Hfresh.
        destruct (Hfk r Hr) as [s [_ [Hs [Hid _]]]].
        apply in_map_iff. exists s. split; [congruence | exact Hs].
  - (* reserve *)
    eapply exclusive_reserve; eassumption.
  - now destruct Hnc.
  - now destruct Hnf.
  - (* retry *)
    apply (exclusive_same_gates db); [exact Hex | reflexivity|].
    intros sid. apply in_flight_own_row; [reflexivity|]. discriminate.
  - (* heartbeat *)
    apply (exclusive_same_gates db); [exact Hex | reflexivity|].
    intros sid. apply in_flight_own_row; [reflexivity | auto].
  - (* progress *)
    apply (exclusive_same_gates db); [exact Hex | reflexivity|].
    intros sid. apply in_flight_own_row; [reflexivity | auto].
  - (* stale detector *)
    now apply exclusive_stale.
  - (* trim *)
    rewrite trim_as_delete. cbn [fst].
    apply (exclusive_same_gates db); [exact Hex | reflexivity|].
    intros sid. apply in_flight_delete.
  - (* schedule *)
    apply (exclusive_same_gates db); [exact Hex| |].
    + unfold schedule. now destruct (existsb _ _).
    + intros sid. unfold schedule, in_flight.
      destruct (existsb _ _); apply Nat.le_refl.
  - (* scheduler run *)
    assert (HP : subscriptions db' = subscriptions db
                 /\ forall sid, in_flight db' sid = in_flight db sid).
    { unfold processScheduledMessages in H.
      apply (fire_rows_preserves cron_next
               (fun d => subscriptions d = subscriptions db
                         /\ forall sid, in_flight d sid = in_flight db sid))
        with (rows := due_rows db now) (g := g) (db := db) (now := now)
             (g' := g') (msgs := msgs); [| |now split|exact H].
      - intros g0 d topicId data options now0 d' rows [Hs Hf] Hins. split.
        + apply insertMessages_Ok in Hins.
          destruct Hins as [_ [_ [_ [-> _]]]]. exact Hs.
        + intros sid. rewrite (in_flight_send _ _ _ _ _ _ _ _ sid Hins).
          apply Hf.
      - intros d l [Hs Hf]. split; [exact Hs | exact Hf]. }
    destruct HP as [Hs Hf].
    apply (exclusive_same_gates db); [exact Hex | exact Hs|].
    intros sid. rewrite Hf. apply Nat.le_refl.
  - (* Message.remove *)
    apply (exclusive_same_gates db); [exact Hex | reflexivity|].
    intros sid. apply in_flight_delete.
  - (* Subscription.remove *)
    apply (exclusive_weaken db); [exact Hex|].
    intros s Hs _. right. unfold removeSubscription in *.
    cbn [subscriptions] in Hs. apply filter_In in Hs.
    split; [apply Hs|]. unfold in_flight. cbn [subscription_messages].
    apply length_filter_filter.
  - (* ScheduledMessage.remove *)
    apply (exclusive_same_gates db); [exact Hex | reflexivity|].
    intros sid. apply Nat.le_refl.
  - (* Topic.clear *)
    apply (exclusive_same_gates db); [exact Hex | reflexivity|].
    intros sid. unfold clear.
    change (in_flight (set_scheduled ?d ?l) sid) with (in_flight d sid).
    apply in_flight_delete.
Qed.

Lemma exclusive_careful_step db db' :
  schema db -> exclusive db -> careful_step cron_next db db' ->
  exclusive db'.
Proof.
  intros Hschema Hex Hstep. destruct Hstep.
  - eapply exclusive_api_step; eassumption.
  - unfold complete, completeMessage.
    pose proof (exclusive_conclude db s h (set_status completed)
                  Hschema Hex H H0) as Hc.
    destruct (consumptionMode (subscription h));
      apply Hc; try reflexivity; discriminate.
  - destruct (fail_Ok _ _ _ _ _ _ H1) as [av [_ [-> _]]].
    pose proof (exclusive_conclude db s h
                  (set_outcome
                     (if attempts h >=? maxAttempts (subscription h)
                      then failed else waiting)
                     av (stack error))
                  Hschema Hex H H0) as Hc.
    destruct (consumptionMode (subscription h));
      apply Hc; try reflexivity;
      intros r; simpl; destruct (attempts h >=? _); discriminate.
Qed.

Lemma careful_run_invariant db :
  careful_run cron_next db -> schema db /\ exclusive db.
Proof.
  induction 1 as [|db db' Hrun [Hschema Hex] Hstep].
  - split.
    + repeat split; try constructor. intros r [].
    + intros s [].
  - split.
    + eapply careful_step_schema; eassumption.
    + eapply exclusive_careful_step; eassumption.
Qed.

(** X19. Sequential exclusivity holds for careful clients.  In every
    database reached through the API, with the stale detector, manual
    retries and removals allowed at any time, and [complete] and [fail]
    called only on a message whose row is still 'processing', every
    sequential subscription has at most one message in 'processing', and
    none while its gate is open. *)
Theorem X19_careful_runs_are_exclusive :
  forall db s,
    careful_run cron_next db ->
    In s (subscriptions db) -> s_consumption_mode s = sequential ->
    (List.length (in_processing db (s_id s)) <= 1)%nat
    /\ (s_processing s = false -> in_processing db (s_id s) = []).
Proof.
  intros db s Hrun Hs Hseq.
  destruct (careful_run_invariant db Hrun) as [_ Hex].
  destruct (Hex s Hs Hseq) as [H1 H2].
  unfold in_processing. fold (is_processing (s_id s)).
  fold (in_flight db (s_id s)). rewrite length_map. split; [exact H1|].
  intros Hgate. now rewrite (H2 Hgate).
Qed.

End CarefulRunsExclusive.

(** ** Retry delay and reservation *)


(** ** Migrations *)

Lemma run_each_spec notExecuted :
  forall table,
    NoDup (map version notExecuted) ->
    (forall m, In m notExecuted -> ~ In (version m) table) ->
    run_each table notExecuted
    = Ok (table ++ map version notExecuted, map sql notExecuted).
Proof.
  induction notExecuted as [|m rest IH]; intros table Hnd Hnew; simpl.
  - now rewrite app_nil_r.
  - simpl in Hnd. apply NoDup_cons_iff in Hnd. destruct Hnd as [Hnin Hnd].
    replace (existsb (String.eqb (version m)) table) with false.
    + rewrite IH; [now rewrite <- app_assoc|exact Hnd|].
      intros x Hx Hin. apply in_app_or in Hin. destruct Hin as [Hin|Hin].
      * apply (Hnew x); [now right | exact Hin].
      * destruct Hin as [Heq | []]. apply Hnin. rewrite Heq.
        now apply in_map.
    + symmetry. apply existsb_false. intros v Hv.
      apply String.eqb_neq. intros Heq. apply (Hnew m); [now left|].
      now rewrite Heq.
Qed.

(** X21. [runMigrations] is safe to call at every start.  With distinct
    declared versions it succeeds, runs exactly the scripts whose version
    is not recorded yet, in the declared order, and records their versions
    after the existing ones; afterwards every declared version is recorded,
    and a second call runs nothing and leaves the table as it is.  The
    registry of the package declares distinct versions. *)
Theorem X21_migrations_run_once :
  forall declared table,
    NoDup (map version declared) ->
    exists table' scripts,
      runMigrations declared table = Ok (table', scripts)
      /\ scripts
         = map sql
             (filter (fun m =>
                        negb (existsb (String.eqb (version m))
                                      (match table with
                                       | Some rows => rows
                                       | None => []
                                       end)))
                     declared)
      /\ (forall v, In v table' <->
                    In v (match table with Some rows => rows | None => [] end)
                    \/ In v (map version declared))
      /\ runMigrations declared (Some table') = Ok (table', [])
      /\ NoDup (map version migrations).
Proof.
  intros declared table Hnd.
  set (executed := match table with Some rows => rows | None => [] end).
  set (todo := filter (fun m => negb (existsb (String.eqb (version m))
                                              executed)) declared).
  assert (Hrun : runMigrations declared table
                 = Ok (executed ++ map version todo, map sql todo)).
  { unfold runMigrations. fold executed. fold todo.
    apply run_each_spec.
    - unfold todo. now apply NoDup_map_filter.
    - intros m Hm Hin. unfold todo in Hm. apply filter_In in Hm.
      destruct Hm as [_ Hm]. apply negb_true_iff in Hm.
      assert (existsb (String.eqb (version m)) executed = true).
      { apply existsb_exists. exists (version m).
        split; [exact Hin | apply String.eqb_refl]. }
      congruence. }
  assert (Hall : forall v, In v (executed ++ map version todo) <->
                           In v executed \/ In v (map version declared)).
  { intros v. rewrite in_app_iff. split.
    - intros [H | H]; [now left | right].
      apply in_map_iff in H. destruct H as [m [<- Hm]].
      apply in_map. unfold todo in Hm. now apply filter_In in Hm.
    - intros [H | H]; [now left|].
      apply in_map_iff in H. destruct H as [m [<- Hm]].
      destruct (existsb (String.eqb (version m)) executed) eqn:E.
      + left. apply existsb_exists in E. destruct E as [x [Hx Heq]].
        apply String.eqb_eq in Heq. now rewrite Heq.
      + right. apply in_map. unfold todo. apply filter_In.
        split; [exact Hm | now rewrite E]. }
  exists (executed ++ map version todo), (map sql todo).
  split; [exact Hrun|]. split; [reflexivity|]. split; [exact Hall|]. split.
  - unfold runMigrations. rewrite filter_none; [reflexivity|].
    intros m Hm. apply negb_false_iff. apply existsb_exists.
    exists (version m). split; [|apply String.eqb_refl].
    apply Hall. right. now apply in_map.
  - simpl. constructor; [intros [] | constructor].
Qed.

(** ** Bounds of a reservation *)

Lemma NoDup_firstn_keeps {A} (l : list A) :
  NoDup l -> forall k, NoDup (firstn k l).
Proof.
  induction 1 as [|a l Hnin Hnd IH]; intros [|k]; simpl;
    try constructor.
  - intros Hin. apply Hnin. eapply firstn_incl_In. exact Hin.
  - apply IH.
Qed.

(** X22. [getNextMessages(count)] throws when [count] is not positive and
    otherwise never hands out more than it was asked for: at most one
    message on a sequential subscription, at most [count] on a parallel
    one; each message at most once; only rows of the subscription that were
    'waiting' and due; and a poll that finds nothing writes nothing, so it
    never closes the gate. *)
Theorem X22_reservation_bounds :
  forall db this count now,
    (count <= 0 ->
     getNextMessages db this count now = Err CountMustBePositive)
    /\ (forall db' batch,
          getNextMessages db this count now = Ok (db', batch) ->
          0 < count
          /\ (List.length batch <= reservation_limit this count)%nat
          /\ (consumptionMode this = sequential ->
              (List.length batch <= 1)%nat)
          /\ Z.of_nat (List.length batch) <= count
          /\ (batch = [] -> db' = db)
          /\ (pk_subscription_messages db -> NoDup (map msg_id batch))
          /\ (forall h, In h batch ->
                exists r, In r (subscription_messages db)
                          /\ is_candidate (id this) now r = true
                          /\ sm_message_id r = msg_id h)).
Proof.
  intros db this count now. split.
  - intros Hle. unfold getNextMessages.
    now replace (count <=? 0) with true by (symmetry; apply Z.leb_le; lia).
  - intros db' batch H.
    assert (Hpos : 0 < count).
    { unfold getNextMessages in H. destruct (count <=? 0) eqn:E;
        [discriminate|]. now apply Z.leb_gt in E. }
    destruct (getNextMessages_batch _ _ _ _ _ _ H) as [k [Hb Hk]].
    assert (Hlen : (List.length batch <= reservation_limit this count)%nat).
    { rewrite Hb, length_map.
      destruct Hk as [-> | ->]; [simpl; lia | apply firstn_le_length]. }
    assert (Hlim : Z.of_nat (reservation_limit this count) <= count).
    { unfold reservation_limit. destruct (consumptionMode this); lia. }
    split; [exact Hpos|]. split; [exact Hlen|].
    split; [|split; [lia|split; [|split]]].
    + intros Hseq. unfold reservation_limit in Hlen. now rewrite Hseq in Hlen.
    + intros Hnil. unfold getNextMessages in H.
      destruct (count <=? 0); [discriminate|].
      assert (Hres : fst (reserve_batch db this count now) = db'
                     -> snd (reserve_batch db this count now) = batch
                     -> db' = db).
      { unfold reserve_batch.
        destruct (firstn (reservation_limit this count)
                         (candidates db (id this) now)) as [|j l].
        - intros <- _. reflexivity.
        - intros _ Hs. simpl in Hs. rewrite Hnil in Hs. discriminate. }
      destruct (consumptionMode this).
      * destruct (find_subscription db (id this)) as [row|]; [|discriminate].
        destruct (s_processing row).
        -- now injection H as <- _.
        -- injection H as H. apply Hres; now rewrite H.
      * injection H as H. apply Hres; now rewrite H.
    + intros Hpk. rewrite Hb, map_map.
      change (fun x => msg_id (reserved_handle this now x)) with joined_id.
      rewrite <- firstn_map.
      apply NoDup_firstn_keeps. now apply candidates_ids_NoDup.
    + intros h Hh. rewrite Hb in Hh. apply in_map_iff in Hh.
      destruct Hh as [j [<- Hj]]. apply firstn_incl_In in Hj.
      apply candidates_In in Hj. destruct Hj as [r [Hr [Hc ->]]].
      exists r. repeat split; assumption.
Qed.

(** ** The message object and its row *)

Lemma own_row_mirrored db h f r :
  In r (subscription_messages db) ->
  sm_subscription_id r = id (subscription h) ->
  sm_message_id r = msg_id h ->
  In (f r) (subscription_messages (update_own_row db h f)).
Proof.
  intros Hr Hs Hm. unfold update_own_row. simpl.
  apply update_where_In. exists r. split; [exact Hr|].
  replace (sm_key_is (id (subscription h)) (msg_id h) r) with true;
    [reflexivity|].
  symmetry. apply sm_key_is_true. now split.
Qed.

(** X23. A message object stays in step with its row.  If the object shows
    a stored row of its subscription as it is (as the objects returned by
    [getNextMessages] and [getMessages] do), then after [complete], after a
    [fail] that returns, after [retry], [heartbeat] or an [updateProgress]
    with a value other than [null] the object again shows the row as
    stored: [getMessages] on the resulting database returns an equal
    object.  After [updateProgress(null)] the object shows the progress
    [null], whereas the column is NULL and the row read again shows no
    progress. *)
Theorem X23_message_object_mirrors_its_row :
  forall db h,
    In h (getMessages db (subscription h) []) ->
    In (snd (complete db h))
       (getMessages (fst (complete db h)) (subscription h) [completed])
    /\ (forall error now db' h',
          fail db h error now = Ok (db', h') ->
          In h' (getMessages db' (subscription h) []))
    /\ In (snd (retry db h))
          (getMessages (fst (retry db h)) (subscription h) [waiting])
    /\ (forall now,
          In (snd (heartbeat db h now))
             (getMessages (fst (heartbeat db h now)) (subscription h) []))
    /\ (forall value,
          value <> JNull ->
          In (snd (updateProgress db h value))
             (getMessages (fst (updateProgress db h value))
                          (subscription h) []))
    /\ (progress (snd (updateProgress db h JNull)) = Some JNull
        /\ exists h',
             In h' (getMessages (fst (updateProgress db h JNull))
                                (subscription h) [])
             /\ msg_id h' = msg_id h /\ progress h' = None).
Proof.
  intros db h Hh. remember (subscription h) as S eqn:ES.
  apply getMessages_In in Hh.
  destruct Hh as [r [Hr [Hs [_ Hrow]]]]. subst h. clear ES.
  set (h := row_handle S (left_join_message db r)).
  assert (Hown : forall f, In (f r) (subscription_messages
                                       (update_own_row db h f)))
    by (intros f; now apply own_row_mirrored).
  split; [|split; [|split; [|split; [|split]]]].
  - apply getMessages_iff. exists (set_status completed r).
    unfold complete, completeMessage.
    change (consumptionMode (subscription h)) with (consumptionMode S).
    destruct (consumptionMode S); simpl;
      (split; [apply Hown|]); (split; [exact Hs|]);
      (split; [right; now left|]); reflexivity.
  - intros error now db' h' Hfail.
    destruct (fail_Ok _ _ _ _ _ _ Hfail) as [av [_ [-> ->]]].
    apply getMessages_iff.
    exists (set_outcome
              (if attempts h >=? maxAttempts (subscription h)
               then failed else waiting)
              av (stack error) r).
    change (consumptionMode (subscription h)) with (consumptionMode S).
    destruct (consumptionMode S); simpl;
      (split; [apply Hown|]); (split; [exact Hs|]);
      (split; [now left|]); reflexivity.
  - apply getMessages_iff. exists (set_outcome waiting None None r).
    unfold retry. simpl.
    split; [apply Hown|]. split; [exact Hs|]. split; [right; now left|].
    reflexivity.
  - intros now. apply getMessages_iff.
    exists (mkSM (sm_subscription_id r) (sm_message_id r) (sm_status r)
                 (sm_attempts r) (sm_available_at r) (sm_error_stack r)
                 (Some now) (sm_progress r) (sm_stale_count r)).
    unfold heartbeat. simpl.
    split; [apply (Hown (fun r => mkSM _ _ _ _ _ _ _ _ _))|].
    split; [exact Hs|]. split; [now left|]. reflexivity.
  - intros value Hvalue. apply getMessages_iff.
    exists (mkSM (sm_subscription_id r) (sm_message_id r) (sm_status r)
                 (sm_attempts r) (sm_available_at r) (sm_error_stack r)
                 (sm_last_heartbeat_at r) (json_param value)
                 (sm_stale_count r)).
    unfold updateProgress. simpl.
    split; [apply (Hown (fun r => mkSM _ _ _ _ _ _ _ _ _))|].
    split; [exact Hs|]. split; [now left|].
    destruct value; [now destruct Hvalue | reflexivity].
  - split; [reflexivity|].
    exists (row_handle S
              (left_join_message db
                 (mkSM (sm_subscription_id r) (sm_message_id r) (sm_status r)
                       (sm_attempts r) (sm_available_at r) (sm_error_stack r)
                       (sm_last_heartbeat_at r) None (sm_stale_count r)))).
    split; [|split; reflexivity].
    apply getMessages_iff.
    exists (mkSM (sm_subscription_id r) (sm_message_id r) (sm_status r)
                 (sm_attempts r) (sm_available_at r) (sm_error_stack r)
                 (sm_last_heartbeat_at r) None (sm_stale_count r)).
    unfold updateProgress. simpl.
    split; [apply (Hown (fun r => mkSM _ _ _ _ _ _ _ _ _))|].
    split; [exact Hs|]. split; [now left|]. reflexivity.
Qed.

(** ** What an operation never touches *)

Section Frames.
Variable cron_next : string -> timestamp -> timestamp.

Lemma reserve_batch_subscriptions db this count now :
  subscriptions (fst (reserve_batch db this count now)) = subscriptions db
  \/ subscriptions (fst (reserve_batch db this count now))
     = update_where (fun s => Nat.eqb (s_id s) (id this))
                    (set_processing true) (subscriptions db).
Proof.
  unfold reserve_batch.
  destruct (firstn (reservation_limit this count)
                   (candidates db (id this) now)); [now left|].
  destruct (consumptionMode this); [now right | now left].
Qed.

(** X24. Consumption never alters the stored messages.  Only [trim] and
    the removals delete messages; every other operation, reservations,
    completions, failures, retries, heartbeats, progress updates, stale
    resets, subscriptions and schedules included, leaves the messages table
    as it is, and a send or a scheduler run only appends to it. *)
Theorem X24_only_trim_and_removal_delete_messages :
  forall op db db',
    step cron_next op db db' ->
    op <> OpTrim -> op <> OpRemove ->
    exists new,
      messages db' = messages db ++ new
      /\ (op <> OpSend -> op <> OpFire -> new = []).
Proof.
  intros op db db' Hstep Hnt Hnr.
  assert (Hsame : messages db' = messages db ->
                  exists new, messages db' = messages db ++ new
                              /\ (op <> OpSend -> op <> OpFire -> new = [])).
  { intros ->. exists []. split; [now rewrite app_nil_r | auto]. }
  destruct Hstep; try (now destruct Hnt); try (now destruct Hnr).
  - apply Hsame. unfold topic_init in H. destruct (find _ _).
    + now injection H as <- _.
    + destruct (existsb _ _); [discriminate|]. now injection H as <- _.
  - apply insertMessages_Ok in H. destruct H as [_ [_ [_ [_ [Hm _]]]]].
    exists rows. split; [exact Hm|]. intros Hs. now destruct Hs.
  - apply Hsame. now apply subscribe_other_tables in H0.
  - apply Hsame.
    destruct (getNextMessages_db _ _ _ _ _ _ H0) as [-> | ->];
      [reflexivity|].
    apply reserve_batch_rows.
  - apply Hsame. unfold complete, completeMessage.
    now destruct (consumptionMode (subscription h)).
  - apply Hsame. destruct (fail_Ok _ _ _ _ _ _ H) as [av [_ [-> _]]].
    now destruct (consumptionMode (subscription h)).
  - now apply Hsame.
  - now apply Hsame.
  - now apply Hsame.
  - apply Hsame. unfold stale_db, resetStaleMessages.
    now destruct (filter _ _).
  - apply Hsame. unfold schedule. now destruct (existsb _ _).
  - assert (HP : exists new, messages db' = messages db ++ new).
    { unfold processScheduledMessages in H.
      apply (fire_rows_preserves cron_next
               (fun d => exists new, messages d = messages db ++ new))
        with (rows := due_rows db now) (g := g) (db := db)
             (now := now) (g' := g') (msgs := msgs);
        [| |exists []; now rewrite app_nil_r|exact H].
      - intros g0 d topicId data options now0 d' rows [new Hd] Hins.
        apply insertMessages_Ok in Hins.
        destruct Hins as [_ [_ [_ [_ [Hm _]]]]].
        exists (new ++ rows). now rewrite Hm, Hd, app_assoc.
      - intros d l Hd. exact Hd. }
    destruct HP as [new Hnew]. exists new. split; [exact Hnew|].
    intros _ Hf. now destruct Hf.
Qed.

(** X25. The configuration of a subscription is immutable.  After any
    operation every stored subscription is one that was stored before, with
    the same id, topic, name, consumption mode, start position, maximal
    attempts, retry strategy and retry delay, only its gate possibly
    changed, or it is the subscription that [subscribe] has just created
    under a new id. *)
Theorem X25_subscription_config_is_immutable :
  forall op db db' s',
    step cron_next op db db' ->
    In s' (subscriptions db') ->
    (exists s, In s (subscriptions db)
               /\ set_processing false s' = set_processing false s)
    \/ (op = OpSubscribe /\ ~ In (s_id s') (map s_id (subscriptions db))).
Proof.
  intros op db db' s' Hstep Hs'.
  assert (Hsame : subscriptions db' = subscriptions db ->
                  exists s, In s (subscriptions db)
                            /\ set_processing false s'
                               = set_processing false s).
  { intros Heq. exists s'. split; [now rewrite <- Heq | reflexivity]. }
  assert (Hgate : forall c b,
            subscriptions db'
            = update_where c (set_processing b) (subscriptions db) ->
            exists s, In s (subscriptions db)
                      /\ set_processing false s' = set_processing false s).
  { intros c b Heq. rewrite Heq in Hs'. apply update_where_In in Hs'.
    destruct Hs' as [s [Hs ->]]. exists s. split; [exact Hs|].
    now destruct (c s). }
  destruct Hstep.
  - left. apply Hsame. unfold topic_init in H. destruct (find _ _).
    + now injection H as <- _.
    + destruct (existsb _ _); [discriminate|]. now injection H as <- _.
  - left. apply Hsame. apply insertMessages_Ok in H.
    now destruct H as [_ [_ [_ [-> _]]]].
  - destruct (name_taken db topic n) eqn:Etaken.
    + left. apply Hsame.
      now rewrite (subscribe_taken _ _ _ _ _ _ _ _ Etaken H0).
    + destruct (subscribe_created _ _ _ _ _ _ _ _ Etaken H0)
        as [_ [_ [_ [_ [_ [Hsubs _]]]]]].
      destruct (subscribe_created_keys _ _ _ _ _ _ _ _ Etaken H0)
        as [Hfresh _].
      rewrite Hsubs in Hs'. apply in_app_or in Hs'.
      destruct Hs' as [Hold | [<- | []]].
      * left. exists s'. split; [exact Hold | reflexivity].
      * right. split; [reflexivity | exact Hfresh].
  - left. destruct (getNextMessages_db _ _ _ _ _ _ H0) as [Hdb | Hdb].
    + apply Hsame. now rewrite Hdb.
    + destruct (reserve_batch_subscriptions db (object_of_row s) count now)
        as [Heq | Heq]; rewrite <- Hdb in Heq.
      * now apply Hsame.
      * eapply Hgate. exact Heq.
  - left. destruct (consumptionMode (subscription h)) eqn:Em.
    + apply (Hgate (fun s => Nat.eqb (s_id s) (id (subscription h))) false).
      unfold complete, completeMessage. now rewrite Em.
    + apply Hsame. unfold complete, completeMessage. now rewrite Em.
  - left. destruct (fail_Ok _ _ _ _ _ _ H) as [av [_ [Hdb _]]].
    destruct (consumptionMode (subscription h)) eqn:Em.
    + apply (Hgate (fun s => Nat.eqb (s_id s) (id (subscription h))) false).
      now rewrite Hdb.
    + apply Hsame. now rewrite Hdb.
  - left. now apply Hsame.
  - left. now apply Hsame.
  - left. now apply Hsame.
  - left. eapply Hgate. apply stale_db_subscriptions.
  - left. apply Hsame. rewrite trim_as_delete. reflexivity.
  - left. apply Hsame. unfold schedule. now destruct (existsb _ _).
  - left. apply Hsame.
    unfold processScheduledMessages in H.
    apply (fire_rows_preserves cron_next
             (fun d => subscriptions d = subscriptions db))
      with (rows := due_rows db now) (g := g) (db := db)
           (now := now) (g' := g') (msgs := msgs);
      [| |reflexivity|exact H].
    + intros g0 d topicId data options now0 d' rows Hd Hins.
      apply insertMessages_Ok in Hins.
      destruct Hins as [_ [_ [_ [-> _]]]]. exact Hd.
    + intros d l Hd. exact Hd.
  - left. now apply Hsame.
  - left. exists s'. split; [|reflexivity].
    unfold removeSubscription in Hs'. simpl in Hs'.
    now apply filter_In in Hs'.
  - left. now apply Hsame.
  - left. now apply Hsame.
Qed.

End Frames.

(** * Instances *)

Ltac nodup_concrete :=
  repeat (constructor;
          [simpl; intros H; repeat destruct H as [H | H];
           try discriminate; try contradiction |]);
  constructor.

(** C2 on the "jobs" queue: a reservation of two returns 201 and 202;
    reservations of one and then two return 201, 202, 200.  On the
    sequential "worker" a reservation of five returns 100 alone while the
    gate is open, and nothing once it is closed. *)
Lemma C2_reservation_order_witness :
  consumptionMode jobs = parallel
  /\ pk_subscription_messages priority_queue
  /\ no_delays priority_queue (id jobs)
  /\ (exists db' batch,
        getNextMessages priority_queue jobs 2 0 = Ok (db', batch)
        /\ map msg_id batch = [201%nat; 202%nat])
  /\ (exists db' out,
        reserveInOrder priority_queue jobs [(1, 0); (2, 5)] = Ok (db', out)
        /\ map msg_id out = [201%nat; 202%nat; 200%nat])
  /\ (exists db' batch,
        getNextMessages three_waiting worker 5 0 = Ok (db', batch)
        /\ map msg_id batch = [100%nat])
  /\ exists db' batch,
       getNextMessages reserved_once worker 5 9 = Ok (db', batch)
       /\ map msg_id batch = [].
Proof.
  assert (Hpk : pk_subscription_messages priority_queue)
    by (unfold pk_subscription_messages; simpl; nodup_concrete).
  assert (Hnd : no_delays priority_queue (id jobs)).
  { intros r Hr _ _. simpl in Hr.
    repeat destruct Hr as [<- | Hr]; try reflexivity; contradiction. }
  assert (Hpos : forall q, In q [(1, 0); (2, 5)] -> 0 < fst q).
  { intros q Hq. simpl in Hq.
    repeat destruct Hq as [<- | Hq]; simpl; try lia; contradiction. }
  destruct (C2_reservation_order priority_queue jobs 2 0)
    as [_ [_ [_ [Hret [Hbatch Horder]]]]].
  split; [reflexivity|]. split; [exact Hpk|]. split; [exact Hnd|].
  split; [|split; [|split]].
  - destruct Hret as [db' [batch E]]; [lia | discriminate|].
    exists db', batch. split; [exact E|].
    destruct (Hbatch db' batch E) as [Hids _].
    rewrite Hids. vm_compute. reflexivity.
  - destruct (Horder eq_refl _ Hpos Hpk Hnd) as [db' [out [Hrun Hout]]].
    exists db', out. split; [exact Hrun|]. rewrite (Hout 0).
    vm_compute. reflexivity.
  - destruct (C2_reservation_order three_waiting worker 5 0)
      as [_ [_ [_ [Hret1 [Hbatch1 _]]]]].
    destruct Hret1 as [db' [batch E]]; [lia | discriminate|].
    exists db', batch. split; [exact E|].
    destruct (Hbatch1 db' batch E) as [Hids _].
    rewrite Hids. vm_compute. reflexivity.
  - destruct (C2_reservation_order reserved_once worker 5 9)
      as [_ [_ [_ [Hret2 [Hbatch2 _]]]]].
    destruct Hret2 as [db' [batch E]]; [lia | discriminate|].
    exists db', batch. split; [exact E|].
    destruct (Hbatch2 db' batch E) as [Hids _].
    rewrite Hids. vm_compute. reflexivity.
Defined.


(** The database of the instance below is reached by a plain run. *)
Lemma reserved_once_reachable : reachable every_10ms plain_run reserved_once.
Proof.
  assert (Hplain : forall op, op <> OpRetry -> op <> OpResetStale ->
                              plain_run op) by (intros; now split).
  pose proof (reach_empty every_10ms plain_run) as R.
  eapply (reach_step every_10ms plain_run OpTopic) in R;
    [| apply Hplain; discriminate
     | eapply (step_topic every_10ms 1%nat empty_db "orders" (Some 0%nat));
       vm_compute; reflexivity].
  eapply (reach_step every_10ms plain_run OpSubscribe) in R;
    [| apply Hplain; discriminate
     | eapply (step_subscribe every_10ms 10%nat _ topic_orders "worker" default_options);
       [vm_compute; discriminate | vm_compute; reflexivity]].
  eapply (reach_step every_10ms plain_run OpSend) in R;
    [| apply Hplain; discriminate
     | eapply (step_send every_10ms 100%nat _ 1%nat [JText "a"] no_options 0);
       vm_compute; reflexivity].
  eapply (reach_step every_10ms plain_run OpReserve) in R;
    [| apply Hplain; discriminate
     | eapply (step_reserve every_10ms _ worker_row 1 0);
       [left; reflexivity | vm_compute; reflexivity]].
  exact R.
Qed.



(** C5 on topic "audit" ([max_retention = 1]): 300 is trimmed, the newest
    acknowledged message 301 and the unacknowledged 302 stay. *)
Lemma C5_trim_retention_witness :
  maxMessagesRetention topic_audit = Some 1%nat
  /\ pk_messages audit_db /\ fk_subscription_messages audit_db
  /\ map m_id (messages (fst (trim audit_db topic_audit)))
     = [301%nat; 302%nat]
  /\ In (mkMessage 302%nat 3%nat (JText "c") 0 None None)
        (messages (fst (trim audit_db topic_audit)))
  /\ exists m, In m (messages (fst (trim audit_db topic_audit)))
               /\ m_id m = 301%nat /\ m_topic_id m = topicId topic_audit.
Proof.
  assert (Hpk : pk_messages audit_db)
    by (unfold pk_messages; simpl; nodup_concrete).
  assert (Hfk : fk_subscription_messages audit_db).
  { intros r Hr. simpl in Hr.
    exists (mkSubscriptionRow 30%nat 3%nat "auditor" false sequential latest
                              1 linear 0).
    destruct Hr as [<- | [<- | [<- | []]]];
      [exists (mkMessage 300%nat 3%nat (JText "a") 0 None None)
      |exists (mkMessage 301%nat 3%nat (JText "b") 0 None None)
      |exists (mkMessage 302%nat 3%nat (JText "c") 0 None None)];
      simpl; tauto. }
  destruct (C5_trim_retention audit_db topic_audit) as [_ Hfinite].
  destruct (Hfinite 1%nat eq_refl Hpk Hfk)
    as [Hunack [_ [_ [_ [Hkept _]]]]].
  split; [reflexivity|]. split; [exact Hpk|]. split; [exact Hfk|].
  split; [vm_compute; reflexivity|]. split.
  - apply (Hunack _ (default_sm 30%nat 302%nat None)).
    + simpl. tauto.
    + simpl. tauto.
    + reflexivity.
    + discriminate.
  - apply Hkept. vm_compute. left. reflexivity.
Defined.

(** C6 on a batch of two sent to "orders" at 1000 with
    [deliverInMs = 250]. *)
Lemma C6_insert_fan_out_witness :
  exists db' rows,
    insertMessages 500%nat priority_queue 1%nat [JText "x"; JText "y"]
                   (mkMessageOptions (Some 250) None (Some 2)) 1000
    = Ok (db', rows)
    /\ map m_deliver_at rows = [Some 1250; Some 1250]
    /\ exists new,
         subscription_messages db' = subscription_messages priority_queue ++ new
         /\ NoDup (map sm_key new)
         /\ In (mkSM 20%nat 501%nat waiting 0 (Some 1250) None None None 0) new.
Proof.
  destruct (insertMessages 500%nat priority_queue 1%nat [JText "x"; JText "y"]
              (mkMessageOptions (Some 250) None (Some 2)) 1000)
    as [[db' rows]|e] eqn:E; [|vm_compute in E; discriminate E].
  exists db', rows. split; [reflexivity|].
  destruct (C6_insert_fan_out _ _ _ _ _ _ _ _ E)
    as [_ [Hin [_ [_ [_ [_ [_ [new [Hrows [Hnd Hnew]]]]]]]]]].
  split.
  - vm_compute in E. injection E as _ <-. reflexivity.
  - exists new. split; [exact Hrows|]. split; [exact Hnd|].
    apply Hnew.
    exists (mkSubscriptionRow 20%nat 1%nat "jobs" false parallel latest 3
                              exponential 10000),
           (mkMessage 501%nat 1%nat (JText "y") 1000 (Some 1250) (Some 2)).
    split; [simpl; tauto|]. split; [reflexivity|]. split.
    + vm_compute in E. injection E as _ <-. simpl. tauto.
    + reflexivity.
Defined.


(** C8 on a row whose heartbeat stopped at 0, with a timeout of 60: stale
    at 100, fresh at 30. *)
Lemma C8_reset_stale_witness :
  find_sm reserved_once 10%nat 100%nat = Some stalled_row
  /\ find_sm (stale_db reserved_once 60 100) 10%nat 100%nat
     = Some (mkSM 10%nat 100%nat waiting 1 None None None None 1)
  /\ (forall s, In s (subscriptions (stale_db reserved_once 60 100)) ->
                s_id s = 10%nat -> s_processing s = false)
  /\ In (mkStale 100%nat 10%nat) (stale_events reserved_once 60 100)
  /\ find_sm (stale_db reserved_once 60 30) 10%nat 100%nat
     = Some stalled_row.
Proof.
  destruct (C8_reset_stale reserved_once 60 100 10%nat 100%nat stalled_row
              eq_refl) as [Hstale _].
  destruct (C8_reset_stale reserved_once 60 30 10%nat 100%nat stalled_row
              eq_refl) as [_ [Hfresh _]].
  destruct Hstale as [Hrow [Hgate Hevent]];
    [reflexivity | exists 0; split; [reflexivity | lia] |].
  split; [reflexivity|]. split; [exact Hrow|]. split; [exact Hgate|].
  split; [exact Hevent|].
  apply Hfresh. right. intros hb Hhb. injection Hhb as <-. lia.
Defined.

(** C10 on a message due at 5000: the subscription created from
    'earliest' can reserve it at 0; a message sent afterwards with the same
    [deliverAt] gets a row with [available_at = 5000], which cannot be
    reserved at 0. *)
Lemma C10_earliest_backfill_witness :
  name_taken delayed_db topic_orders "late" = false
  /\ exists db' this,
       subscribe 40%nat delayed_db topic_orders "late" from_earliest
       = Ok (db', this, [])
       /\ In 400%nat (map joined_id (candidates db' (id this) 0))
       /\ exists db2 rows new,
            insertMessages 401%nat db' 1%nat [JText "again"]
                           (mkMessageOptions None (Some 5000) None) 0
            = Ok (db2, rows)
            /\ subscription_messages db2 = subscription_messages db' ++ new
            /\ In (mkSM 40%nat 401%nat waiting 0 (Some 5000)
                        None None None 0) new
            /\ forall r, In r new ->
                 is_candidate (sm_subscription_id r) 0 r = false.
Proof.
  destruct C10_earliest_backfill_ignores_deliver_at as [Hback Hfan].
  split; [reflexivity|].
  destruct (subscribe 40%nat delayed_db topic_orders "late" from_earliest)
    as [[[db' this] errs]|e] eqn:E; [|vm_compute in E; discriminate E].
  assert (errs = []) by (vm_compute in E; now injection E).
  subst errs. exists db', this. split; [reflexivity|].
  destruct (Hback 40%nat delayed_db topic_orders "late"%string from_earliest
              db' this [] eq_refl eq_refl E) as [_ [_ Hcand]].
  split.
  - apply (Hcand (mkMessage 400%nat 1%nat (JText "later") 0 (Some 5000) None)).
    + simpl. tauto.
    + reflexivity.
  - destruct (insertMessages 401%nat db' 1%nat [JText "again"]
                (mkMessageOptions None (Some 5000) None) 0)
      as [[db2 rows]|e] eqn:E2.
    + destruct (Hfan _ _ _ _ _ _ _ _ E2)
        as [_ [new [Hrows [_ [Hnew Hlate]]]]].
      exists db2, rows, new. split; [reflexivity|]. split; [exact Hrows|].
      split.
      * apply Hnew.
        exists (mkSubscriptionRow 40%nat 1%nat "late" false parallel
                                  earliest 1 linear 0),
               (mkMessage 401%nat 1%nat (JText "again") 0 (Some 5000) None).
        vm_compute in E. injection E as <- _.
        vm_compute in E2. injection E2 as _ <-.
        split; [simpl; tauto|]. split; [reflexivity|].
        split; [simpl; tauto | reflexivity].
      * intros r Hr. now rewrite (Hlate 5000 r 0 eq_refl Hr).
    + exfalso. vm_compute in E. injection E as <- _.
      vm_compute in E2. discriminate E2.
Defined.

(** ** Instances of the further properties *)

Ltac rows_concrete H :=
  simpl in H; repeat destruct H as [<- | H]; try contradiction.

Lemma three_waiting_schema : schema_core three_waiting.
Proof.
  split; [|split; [|split]].
  - unfold pk_messages. simpl. nodup_concrete.
  - unfold pk_subscription_messages. simpl. nodup_concrete.
  - intros r Hr. exists worker_row. simpl in Hr.
    destruct Hr as [<- | [<- | [<- | []]]];
      [exists (mkMessage 100%nat 1%nat (JText "a") 0 None None)
      |exists (mkMessage 101%nat 1%nat (JText "b") 0 None None)
      |exists (mkMessage 102%nat 1%nat (JText "c") 0 None None)];
      simpl; tauto.
  - simpl. nodup_concrete.
Qed.

Lemma second_attempt_db_schema : schema_core second_attempt_db.
Proof.
  split; [|split; [|split]].
  - unfold pk_messages. simpl. nodup_concrete.
  - unfold pk_subscription_messages. simpl. nodup_concrete.
  - intros r Hr.
    exists (mkSubscriptionRow 20%nat 1%nat "jobs" false parallel latest 3
                              exponential 10000),
           (mkMessage 201%nat 1%nat (JText "b") 0 None (Some 1)).
    simpl in Hr. destruct Hr as [<- | []]. simpl. tauto.
  - simpl. nodup_concrete.
Qed.

Lemma second_attempt_db_fresh : fresh 500%nat second_attempt_db.
Proof.
  intros m Hm. rows_concrete Hm. simpl. lia.
Qed.

(** X1 on the database reached by topic, subscribe, send, reserve. *)
Lemma X1_runs_keep_keys_witness :
  reachable every_10ms plain_run reserved_once
  /\ NoDup (map sm_key (subscription_messages reserved_once)).
Proof.
  split; [exact reserved_once_reachable|].
  exact (proj1 (proj2 (X1_runs_keep_keys every_10ms plain_run reserved_once
                         reserved_once_reachable))).
Defined.

(** X2 on topic "orders", which exists with id 1: whatever [v7()] returns,
    the stored id comes back. *)
Lemma X2_topic_get_or_create_witness :
  topic_init 3%nat two_topics "orders" (Some 0%nat)
  = Ok (two_topics, topic_orders)
  /\ forall g' retention',
       topic_init g' two_topics "orders" retention'
       = Ok (two_topics, mkTopicObject 1%nat "orders" retention').
Proof.
  split; [reflexivity|].
  destruct (X2_topic_get_or_create 3%nat two_topics "orders" (Some 0%nat)
              two_topics topic_orders eq_refl)
    as [_ [_ [_ [_ [_ [_ [_ [_ H]]]]]]]].
  exact H.
Defined.

(** X3 on "logger" of topic "orders", asked for again as a parallel
    subscription from the earliest message. *)
Lemma X3_subscribe_existing_witness :
  name_taken two_loggers topic_orders "logger" = true
  /\ exists e errs,
       subscribe 12%nat two_loggers topic_orders "logger" from_earliest
       = Ok (two_loggers, object_of_row e, errs)
       /\ s_name e = "logger"%string.
Proof.
  split; [reflexivity|].
  destruct (X3_subscribe_existing_keeps_stored_config 12%nat two_loggers
              topic_orders "logger" from_earliest eq_refl)
    as [e [errs [H [_ [Hn _]]]]].
  exists e, errs. split; assumption.
Defined.

(** X5 on the "jobs" queue: a reservation of two. *)
Lemma X5_reservation_read_back_witness :
  pk_subscription_messages priority_queue
  /\ exists db' batch,
       getNextMessages priority_queue jobs 2 0 = Ok (db', batch)
       /\ messages db' = messages priority_queue
       /\ forall h, In h (getMessages db' jobs [processing]) <-> In h batch.
Proof.
  assert (Hpk : pk_subscription_messages priority_queue)
    by (unfold pk_subscription_messages; simpl; nodup_concrete).
  split; [exact Hpk|].
  destruct (getNextMessages priority_queue jobs 2 0)
    as [[db' batch]|e] eqn:E; [|vm_compute in E; discriminate E].
  exists db', batch. split; [reflexivity|].
  destruct (X5_reservation_read_back priority_queue jobs 2 0 db' batch Hpk E)
    as [Hm [_ Hb]].
  split; [exact Hm|]. intros h. rewrite Hb. split; [|now left].
  intros [Hh | Hh]; [exact Hh | destruct Hh].
Defined.

(** X7 on message 100 of "worker": its heartbeat stopped at 0, a heartbeat
    at 50 keeps the sweep at 100 (timeout 60) away. *)
Lemma X7_heartbeat_defers_stale_reset_witness :
  find_sm reserved_once 10%nat 100%nat = Some stalled_row
  /\ 100 - 60 < 50
  /\ ~ In (mkStale 100%nat 10%nat)
          (stale_events (fst (heartbeat reserved_once first_attempt 50))
                        60 100).
Proof.
  split; [reflexivity|]. split; [lia|].
  assert (Hlt : 100 - 60 < 50) by lia.
  exact (proj1 (proj2 (proj2
           (X7_heartbeat_defers_stale_reset reserved_once first_attempt 50
              60 100 stalled_row eq_refl Hlt)))).
Defined.

(** X8 on message 201 of "jobs" after its last attempt failed: [retry()]
    and a reservation deliver it a fourth time. *)
Lemma X8_retry_requeues_witness :
  find_sm failed_db 20%nat 201%nat
  = Some (mkSM 20%nat 201%nat failed 3 None (Some "boom"%string) (Some 7)
               None 0)
  /\ exists db' batch h',
       getNextMessages (fst (retry failed_db failed_message)) jobs 1 1000
       = Ok (db', batch)
       /\ In h' batch /\ msg_id h' = 201%nat /\ attempts h' = 4.
Proof.
  split; [reflexivity|].
  destruct (X8_retry_requeues failed_db failed_message _ eq_refl)
    as [_ [_ Hpar]].
  assert (Hlen : Z.of_nat (List.length
                   (candidates (fst (retry failed_db failed_message))
                               (id (subscription failed_message)) 1000))
                 <= 1) by (vm_compute; discriminate).
  destruct (Hpar eq_refl 1 1000 Hlen)
    as [db' [batch [h' [Hrun [Hin [Hid [Hatt _]]]]]]].
  exists db', batch, h'. repeat split; assumption.
Defined.

(** X9 on message 100 of topic "orders". *)
Lemma X9_remove_message_cascades_witness :
  pk_messages three_waiting
  /\ In (mkMessage 100%nat 1%nat (JText "a") 0 None None)
        (messages three_waiting)
  /\ forall this count now db' batch,
       getNextMessages
         (removeMessage three_waiting
            (mkMessage 100%nat 1%nat (JText "a") 0 None None))
         this count now = Ok (db', batch) ->
       ~ In 100%nat (map msg_id batch).
Proof.
  assert (Hpk : pk_messages three_waiting)
    by (unfold pk_messages; simpl; nodup_concrete).
  assert (Hin : In (mkMessage 100%nat 1%nat (JText "a") 0 None None)
                   (messages three_waiting)) by (simpl; tauto).
  split; [exact Hpk|]. split; [exact Hin|].
  destruct (X9_remove_message_cascades three_waiting _ Hpk Hin)
    as [_ [_ [_ [_ [H _]]]]].
  exact H.
Defined.

(** X10 on "worker": removed, then subscribed again as a parallel
    subscription from the earliest message. *)
Lemma X10_remove_subscription_then_subscribe_witness :
  schema_core three_waiting
  /\ ~ In 11%nat (map s_id (subscriptions three_waiting))
  /\ exists db2,
       subscribe 11%nat (removeSubscription three_waiting worker)
                 topic_orders "worker" from_earliest
       = Ok (db2, mkSubscription 11%nat "worker" parallel earliest 1 linear 0,
             []).
Proof.
  assert (Hname : forall s, In s (subscriptions three_waiting) ->
                            s_topic_id s = topicId topic_orders ->
                            s_name s = name worker -> s_id s = id worker).
  { intros s Hs _ _. rows_concrete Hs. reflexivity. }
  assert (Hg : ~ In 11%nat (map s_id (subscriptions three_waiting))).
  { simpl. intros [H | []]. discriminate H. }
  split; [exact three_waiting_schema|]. split; [exact Hg|].
  destruct (X10_remove_subscription_then_subscribe 11%nat three_waiting
              topic_orders worker from_earliest three_waiting_schema
              Hname Hg eq_refl)
    as [_ [_ [_ [_ [db2 [H _]]]]]].
  exists db2. exact H.
Defined.

(** X11 on topic "orders": "worker" has nothing left. *)
Lemma X11_clear_empties_one_topic_witness :
  schema_core three_waiting
  /\ getMessages (clear three_waiting topic_orders) worker [] = [].
Proof.
  split; [exact three_waiting_schema|].
  destruct (X11_clear_empties_one_topic three_waiting topic_orders
              three_waiting_schema) as [_ [_ [_ [_ [_ [_ [H _]]]]]]].
  apply (H worker_row worker []); [simpl; tauto | reflexivity | reflexivity].
Defined.

(** X14 on two payloads sent to "orders" at 1000. *)
Lemma X14_send_then_list_witness :
  fresh 500%nat second_attempt_db
  /\ exists db1 rows,
       sendBulk 500%nat second_attempt_db topic_orders
                [JText "x"; JText "y"] no_options 1000 = Ok (db1, rows)
       /\ map m_data rows = [JText "x"; JText "y"]
       /\ topic_getMessages db1 topic_orders
          = topic_getMessages second_attempt_db topic_orders ++ rows.
Proof.
  split; [exact second_attempt_db_fresh|].
  destruct (sendBulk 500%nat second_attempt_db topic_orders
                     [JText "x"; JText "y"] no_options 1000)
    as [[db1 rows]|e] eqn:E; [|vm_compute in E; discriminate E].
  exists db1, rows. split; [reflexivity|].
  destruct (X14_send_then_list 500%nat second_attempt_db topic_orders
              [JText "x"; JText "y"] no_options 1000 db1 rows
              second_attempt_db_fresh E) as [Hd [_ [_ [Hl _]]]].
  split; assumption.
Defined.

(** X15 on the same two payloads: "jobs", whose only message is in
    'processing', gets both in order. *)
Lemma X15_bulk_is_delivered_in_order_witness :
  schema_core second_attempt_db /\ fresh 500%nat second_attempt_db
  /\ candidates second_attempt_db (id jobs) 1000 = []
  /\ exists db1 rows,
       sendBulk 500%nat second_attempt_db topic_orders
                [JText "x"; JText "y"] no_options 1000 = Ok (db1, rows)
       /\ exists db2 batch,
            getNextMessages db1 jobs 2 1000 = Ok (db2, batch)
            /\ map data batch = [JText "x"; JText "y"].
Proof.
  split; [exact second_attempt_db_schema|].
  split; [exact second_attempt_db_fresh|]. split; [reflexivity|].
  destruct (sendBulk 500%nat second_attempt_db topic_orders
                     [JText "x"; JText "y"] no_options 1000)
    as [[db1 rows]|e] eqn:E; [|vm_compute in E; discriminate E].
  exists db1, rows. split; [reflexivity|].
  assert (Hpos : 0 < 2) by lia.
  destruct (X15_bulk_is_delivered_in_order 500%nat second_attempt_db
              topic_orders [JText "x"; JText "y"] no_options 1000 db1 rows
              (mkSubscriptionRow 20%nat 1%nat "jobs" false parallel latest 3
                                 exponential 10000)
              jobs 2 1000 second_attempt_db_schema second_attempt_db_fresh E
              (or_introl eq_refl) eq_refl eq_refl eq_refl eq_refl I Hpos)
    as [db2 [batch [Hrun [Hdata _]]]].
  exists db2, batch. split; [exact Hrun | exact Hdata].
Defined.

Lemma audit_db_schema : schema_core audit_db.
Proof.
  split; [|split; [|split]].
  - unfold pk_messages. simpl. nodup_concrete.
  - unfold pk_subscription_messages. simpl. nodup_concrete.
  - intros r Hr. simpl in Hr.
    exists (mkSubscriptionRow 30%nat 3%nat "auditor" false sequential latest
                              1 linear 0).
    destruct Hr as [<- | [<- | [<- | []]]];
      [exists (mkMessage 300%nat 3%nat (JText "a") 0 None None)
      |exists (mkMessage 301%nat 3%nat (JText "b") 0 None None)
      |exists (mkMessage 302%nat 3%nat (JText "c") 0 None None)];
      simpl; tauto.
  - simpl. nodup_concrete.
Qed.

Lemma three_waiting_at_rest : at_rest three_waiting worker.
Proof.
  split; [|split].
  - unfold pk_subscription_messages. simpl. nodup_concrete.
  - intros r Hr _ _. rows_concrete Hr; reflexivity.
  - intros _. exists worker_row. split; reflexivity.
Qed.

Lemma reserved_once_careful : careful_run every_10ms reserved_once.
Proof.
  pose proof (careful_start every_10ms) as R.
  eapply (careful_next every_10ms) in R;
    [|apply (careful_api every_10ms OpTopic); [discriminate | discriminate|];
      eapply (step_topic every_10ms 1%nat empty_db "orders" (Some 0%nat));
      vm_compute; reflexivity].
  eapply (careful_next every_10ms) in R;
    [|apply (careful_api every_10ms OpSubscribe);
      [discriminate | discriminate|];
      eapply (step_subscribe every_10ms 10%nat _ topic_orders "worker"
                default_options);
      [vm_compute; discriminate | vm_compute; reflexivity]].
  eapply (careful_next every_10ms) in R;
    [|apply (careful_api every_10ms OpSend); [discriminate | discriminate|];
      eapply (step_send every_10ms 100%nat _ 1%nat [JText "a"] no_options 0);
      vm_compute; reflexivity].
  eapply (careful_next every_10ms) in R;
    [|apply (careful_api every_10ms OpReserve);
      [discriminate | discriminate|];
      eapply (step_reserve every_10ms _ worker_row 1 0);
      [left; reflexivity | vm_compute; reflexivity]].
  exact R.
Qed.

(** X16 on "worker" with three waiting messages and a handler that always
    succeeds: 100, 101 and 102 are processed in this order. *)
Lemma X16_consumer_drains_in_order_witness :
  at_rest three_waiting worker
  /\ failure_is_final always_succeeds three_waiting worker
  /\ exists db' events,
       consume always_succeeds worker four_rounds three_waiting
       = Ok (db', events, true)
       /\ processed events = [100%nat; 101%nat; 102%nat].
Proof.
  assert (Hfinal : failure_is_final always_succeeds three_waiting worker)
    by (left; reflexivity).
  assert (Hlen : (List.length (candidates three_waiting (id worker) 0%Z)
                  < List.length four_rounds)%nat)
    by (apply Nat.ltb_lt; vm_compute; reflexivity).
  split; [exact three_waiting_at_rest|]. split; [exact Hfinal|].
  destruct (X16_consumer_drains_in_order always_succeeds worker three_waiting
              four_rounds 0 three_waiting_at_rest Hfinal Hlen)
    as [db' [events [Hrun [_ [Hproc _]]]]].
  exists db', events. split; [exact Hrun|].
  rewrite Hproc. vm_compute. reflexivity.
Defined.

(** X17 on topic "audit" ([max_retention = 1]): one message is removed and
    a second trim removes nothing. *)
Lemma X17_trim_leaves_the_newest_witness :
  maxMessagesRetention topic_audit = Some 1%nat
  /\ pk_messages audit_db
  /\ snd (trim audit_db topic_audit) = 1
  /\ trim (fst (trim audit_db topic_audit)) topic_audit
     = (fst (trim audit_db topic_audit), 0).
Proof.
  assert (Hpk : pk_messages audit_db)
    by (unfold pk_messages; simpl; nodup_concrete).
  destruct (X17_trim_leaves_the_newest audit_db topic_audit 1%nat eq_refl Hpk)
    as [_ [_ [Hcount [_ [Hagain _]]]]].
  split; [reflexivity|]. split; [exact Hpk|].
  split; [rewrite Hcount; vm_compute; reflexivity | exact Hagain].
Defined.

(** X18 on topics "audit" and "orders". *)
Lemma X18_trims_commute_witness :
  schema_core audit_db
  /\ topicId topic_audit <> topicId topic_orders
  /\ trimTopics audit_db [topic_audit; topic_orders]
     = trimTopics audit_db [topic_orders; topic_audit].
Proof.
  assert (Hneq : topicId topic_audit <> topicId topic_orders)
    by (simpl; discriminate).
  split; [exact audit_db_schema|]. split; [exact Hneq|].
  exact (proj1 (proj2 (proj2
           (X18_trims_of_different_topics_commute audit_db topic_audit
              topic_orders audit_db_schema Hneq)))).
Defined.

(** X19 on the database reached by topic, subscribe, send, reserve. *)
Lemma X19_careful_runs_are_exclusive_witness :
  careful_run every_10ms reserved_once
  /\ (List.length (in_processing reserved_once 10%nat) <= 1)%nat.
Proof.
  split; [exact reserved_once_careful|].
  exact (proj1 (X19_careful_runs_are_exclusive every_10ms reserved_once
                  (mkSubscriptionRow 10%nat 1%nat "worker" true sequential
                                     latest 1 linear 0)
                  reserved_once_careful (or_introl eq_refl) eq_refl)).
Defined.


(** X21 on the registry of the package, on a database that has no
    migrations table yet. *)
Lemma X21_migrations_run_once_witness :
  NoDup (map version migrations)
  /\ exists table' scripts,
       runMigrations migrations None = Ok (table', scripts)
       /\ runMigrations migrations (Some table') = Ok (table', []).
Proof.
  assert (Hnd : NoDup (map version migrations))
    by (simpl; nodup_concrete).
  split; [exact Hnd|].
  destruct (X21_migrations_run_once migrations None Hnd)
    as [table' [scripts [Hrun [_ [_ [Hagain _]]]]]].
  exists table', scripts. split; assumption.
Defined.

(** X23 on the handle of message 100 of "worker" after its reservation. *)
Lemma X23_message_object_mirrors_its_row_witness :
  In first_attempt (getMessages reserved_once (subscription first_attempt) [])
  /\ In (snd (complete reserved_once first_attempt))
        (getMessages (fst (complete reserved_once first_attempt))
                     (subscription first_attempt) [completed])
  /\ In (snd (updateProgress reserved_once first_attempt (JText "half")))
        (getMessages
           (fst (updateProgress reserved_once first_attempt (JText "half")))
           (subscription first_attempt) []).
Proof.
  assert (Hin : In first_attempt
                   (getMessages reserved_once (subscription first_attempt)
                                []))
    by (left; reflexivity).
  split; [exact Hin|].
  destruct (X23_message_object_mirrors_its_row reserved_once
              first_attempt Hin) as [Hc [_ [_ [_ [Hp _]]]]].
  split; [exact Hc|]. apply Hp. discriminate.
Defined.

(** X24 on the completion of message 100 of "worker". *)
Lemma X24_only_trim_and_removal_delete_messages_witness :
  step every_10ms OpComplete reserved_once
       (fst (complete reserved_once first_attempt))
  /\ messages (fst (complete reserved_once first_attempt))
     = messages reserved_once.
Proof.
  assert (Hstep : step every_10ms OpComplete reserved_once
                       (fst (complete reserved_once first_attempt)))
    by apply step_complete.
  split; [exact Hstep|].
  assert (Hnt : OpComplete <> OpTrim) by discriminate.
  assert (Hnr : OpComplete <> OpRemove) by discriminate.
  assert (Hns : OpComplete <> OpSend) by discriminate.
  assert (Hnf : OpComplete <> OpFire) by discriminate.
  destruct (X24_only_trim_and_removal_delete_messages every_10ms OpComplete
              reserved_once _ Hstep Hnt Hnr) as [new [Hm Hnew]].
  rewrite Hm, (Hnew Hns Hnf). apply app_nil_r.
Defined.

(** X25 on the same completion: "worker" is the subscription it was, with
    its gate open. *)
Lemma X25_subscription_config_is_immutable_witness :
  step every_10ms OpComplete reserved_once
       (fst (complete reserved_once first_attempt))
  /\ In worker_row (subscriptions (fst (complete reserved_once first_attempt)))
  /\ ((exists s, In s (subscriptions reserved_once)
                 /\ set_processing false worker_row = set_processing false s)
      \/ (OpComplete = OpSubscribe
          /\ ~ In (s_id worker_row)
                  (map s_id (subscriptions reserved_once)))).
Proof.
  assert (Hstep : step every_10ms OpComplete reserved_once
                       (fst (complete reserved_once first_attempt)))
    by apply step_complete.
  assert (Hin : In worker_row
                   (subscriptions (fst (complete reserved_once
                                                 first_attempt))))
    by (left; reflexivity).
  split; [exact Hstep|]. split; [exact Hin|].
  exact (X25_subscription_config_is_immutable every_10ms OpComplete
           reserved_once _ worker_row Hstep Hin).
Defined.


